(** * DesktopCommanderMCP: the tool-call dispatcher, the Claude setup script
      and the command-session manager

    Part I embeds the program:
    - [Js]: the JavaScript values the setup script manipulates;
    - [Setup]: [setup()] of [setup-claude-server.js], as far as it touches the
      Claude configuration file;
    - [Server]: the [ListTools] catalogue and the [CallTool] request handler
      of [src/server.ts];
    - [Listing]: the list handlers of [src/server.ts];
    - [Script]: the whole of [setup-claude-server.js], with what it prints,
      logs, writes and runs;
    - [SetupOutcome]: the outcomes of the update of the configuration;
    - [Validator] and [Manager]: the command validator and the session
      manager behind the terminal handlers.

    Part II states and proves the properties. *)

From Stdlib Require Import String Ascii List ZArith Bool Lia Floats.
From stdpp Require Import gmap list strings.
Import ListNotations.

Set Warnings "-register-all".
Open Scope string_scope.

(* ===================================================================== *)
(** * Part I: the embedding                                               *)
(* ===================================================================== *)

(** ** JavaScript values, as far as [setup()] handles them *)

Module Js.

(** The values [JSON.parse] produces, plus what the script can add to them.
    An object is its list of own properties in enumeration order; an array
    also carries the non-index properties assigned to it ([extra]), which
    [JSON.stringify] does not print. *)
Inductive JsVal :=
| VNull
| VBool (b : bool)
| VNum (f : float)
| VStr (s : string)
| VArr (elems : list JsVal) (extra : list (string * JsVal))
| VObj (props : list (string * JsVal)).

(** ToBoolean. *)
Definition truthy (v : JsVal) : bool :=
  match v with
  | VNull => false
  | VBool b => b
  | VNum f => negb (PrimFloat.eqb f 0%float) && negb (PrimFloat.is_nan f)
  | VStr s => negb (s =? "")
  | VArr _ _ => true
  | VObj _ => true
  end.

(** ToBoolean of a property read: a missing property reads [undefined]. *)
Definition truthy_read (r : option JsVal) : bool :=
  match r with
  | Some v => truthy v
  | None => false
  end.

(** Own-property lookup. *)
Fixpoint lookup_prop (k : string) (ps : list (string * JsVal)) : option JsVal :=
  match ps with
  | [] => None
  | (k', v) :: rest => if k' =? k then Some v else lookup_prop k rest
  end.

(** Assignment to a property named by a non-index string: an existing
    property keeps its place, a new one goes last. *)
Fixpoint assign_prop (k : string) (x : JsVal) (ps : list (string * JsVal))
  : list (string * JsVal) :=
  match ps with
  | [] => [(k, x)]
  | (k', v) :: rest =>
      if k' =? k then (k, x) :: rest else (k', v) :: assign_prop k x rest
  end.

(** [delete] of an own property. *)
Fixpoint remove_prop (k : string) (ps : list (string * JsVal)) : list (string * JsVal) :=
  match ps with
  | [] => []
  | (k', v) :: rest =>
      if k' =? k then remove_prop k rest else (k', v) :: remove_prop k rest
  end.

(** An operation either completes or throws a [TypeError]. *)
Inductive Access (A : Type) :=
| Done (a : A)
| TypeError.
Arguments Done {A} a.
Arguments TypeError {A}.

(** [v.k] for a name [k] that is no array index and that no prototype
    defines (the script reads "mcpServers" and "desktopCommander" only):
    reading from [null] throws, a primitive has no such property. *)
Definition get (v : JsVal) (k : string) : Access (option JsVal) :=
  match v with
  | VNull => TypeError
  | VBool _ | VNum _ | VStr _ => Done None
  | VArr _ extra => Done (lookup_prop k extra)
  | VObj props => Done (lookup_prop k props)
  end.

(** [v.k = x] in strict mode (the script is an ES module): assignment to a
    property of [null] or of a primitive throws. *)
Definition set (v : JsVal) (k : string) (x : JsVal) : Access JsVal :=
  match v with
  | VNull | VBool _ | VNum _ | VStr _ => TypeError
  | VArr elems extra => Done (VArr elems (assign_prop k x extra))
  | VObj props => Done (VObj (assign_prop k x props))
  end.

(** [delete v.k] *)
Definition delete (v : JsVal) (k : string) : Access JsVal :=
  match v with
  | VNull => TypeError
  | VBool _ | VNum _ | VStr _ => Done v
  | VArr elems extra => Done (VArr elems (remove_prop k extra))
  | VObj props => Done (VObj (remove_prop k props))
  end.

(** What [JSON.parse] reads back from the text [JSON.stringify] prints for
    a value: the non-index properties of arrays are not printed, negative
    zero is printed as 0, and NaN and the infinities as null. *)
Fixpoint reparse (v : JsVal) : JsVal :=
  match v with
  | VNull => VNull
  | VBool b => VBool b
  | VNum f =>
      if PrimFloat.is_nan f || PrimFloat.is_infinity f then VNull
      else if PrimFloat.eqb f 0%float then VNum 0%float
      else VNum f
  | VStr s => VStr s
  | VArr elems _ => VArr (map reparse elems) []
  | VObj props => VObj (map (fun p => (fst p, reparse (snd p))) props)
  end.

(** The values that [JSON.stringify] prints and [JSON.parse] reads back
    without loss: no NaN or infinite number, no negative zero, no array with
    properties of its own. Of these only an infinite number and negative
    zero occur in what [JSON.parse] reads. *)
Fixpoint survives_printing (v : JsVal) : bool :=
  match v with
  | VNull => true
  | VBool _ => true
  | VNum f =>
      negb (PrimFloat.is_nan f) && negb (PrimFloat.is_infinity f)
      && (negb (PrimFloat.eqb f 0%float) || PrimFloat.Leibniz.eqb f 0%float)
  | VStr _ => true
  | VArr elems extra =>
      forallb survives_printing elems && match extra with [] => true | _ => false end
  | VObj props => forallb (fun p => survives_printing (snd p)) props
  end.

End Js.

(** ** The setup script ([setup-claude-server.js]) *)

Module Setup.
Import Js.

(** What the script reads from its environment. *)
Record Env := {
  debugMode : bool;                    (* isDebugMode(): --debug on the command line *)
  isNpx : bool;                        (* import.meta.url.includes('node_modules') *)
  isWindows : bool;                    (* platform() === 'win32' *)
  APPDATA : option string;             (* process.env.APPDATA *)
  __dirname : string;
  join : list string -> string         (* path.join *)
}.

(** The Claude configuration file: absent, or holding a text that
    [JSON.parse] either turns into a value or rejects. *)
Inductive FileContent :=
| JsonText (v : JsVal)
| Unparseable (raw : string).

Record Fs := {
  configDirExists : bool;
  configFile : option FileContent
}.

(** [s.replace(/\\/g, '\\\\')]: every backslash is doubled. *)
Fixpoint escape_backslashes (s : string) : string :=
  match s with
  | EmptyString => EmptyString
  | String c rest =>
      if Ascii.eqb c "\"%char
      then String "\"%char (String "\"%char (escape_backslashes rest))
      else String c (escape_backslashes rest)
  end.

Definition debugEnv : JsVal :=
  VObj [ ("NODE_OPTIONS", VStr "--trace-warnings --trace-exit"); ("DEBUG", VStr "*") ].

(** The [serverConfig] object, by the four branches of the source. *)
Definition serverConfig (env : Env) : JsVal :=
  if debugMode env then
    if isNpx env then
      VObj [ ("command", VStr (if isWindows env then "node.exe" else "node"));
             ("args", VArr [ VStr "--inspect-brk=9229";
                             VStr (if isWindows env
                                   then escape_backslashes
                                          (join env [ match APPDATA env with
                                                      | Some appdata => appdata
                                                      | None => ""      (* || '' *)
                                                      end; "npm"; "npx.cmd" ])
                                   else "$(which npx)");
                             VStr "@wonderwhy-er/desktop-commander@latest" ] []);
             ("env", debugEnv) ]
    else
      let indexPath := join env [ __dirname env; "dist"; "index.js" ] in
      VObj [ ("command", VStr (if isWindows env then "node.exe" else "node"));
             ("args", VArr [ VStr "--inspect-brk=9229";
                             VStr (escape_backslashes indexPath) ] []);
             ("env", debugEnv) ]
  else
    if isNpx env then
      VObj [ ("command", VStr (if isWindows env then "npx.cmd" else "npx"));
             ("args", VArr [ VStr "@wonderwhy-er/desktop-commander@latest" ] []) ]
    else
      let indexPath := join env [ __dirname env; "dist"; "index.js" ] in
      VObj [ ("command", VStr "node");
             ("args", VArr [ VStr (escape_backslashes indexPath) ] []) ].

(** The [defaultConfig] written when no configuration file exists. *)
Definition defaultConfig (env : Env) : JsVal :=
  VObj [ ("serverConfig",
          if isWindows env
          then VObj [ ("command", VStr "cmd.exe"); ("args", VArr [ VStr "/c" ] []) ]
          else VObj [ ("command", VStr "/bin/sh"); ("args", VArr [ VStr "-c" ] []) ]) ].

Definition bind {A B : Type} (a : Access A) (k : A -> Access B) : Access B :=
  match a with
  | Done x => k x
  | TypeError => TypeError
  end.

(** A statement that changes the object [config.mcpServers] refers to: the
    change is seen through [config], which holds the same object. *)
Definition on_mcpServers (config : JsVal) (change : JsVal -> Access JsVal)
  : Access JsVal :=
  bind (get config "mcpServers") (fun m =>
    match m with
    | None => TypeError                          (* a property of undefined *)
    | Some servers => bind (change servers) (fun servers' =>
                        set config "mcpServers" servers')
    end).

(** [config.mcpServers.desktopCommander], read for its truth value. *)
Definition has_old_entry (config : JsVal) : Access bool :=
  bind (get config "mcpServers") (fun m =>
    match m with
    | None => TypeError
    | Some servers => bind (get servers "desktopCommander") (fun old =>
                        Done (truthy_read old))
    end).

(** The "Update the config" block, lines 292-303. *)
Definition update_config (config serverConfig : JsVal) : Access JsVal :=
  (* if (!config.mcpServers) config.mcpServers = {}; *)
  bind (get config "mcpServers") (fun m =>
  bind (if negb (truthy_read m) then set config "mcpServers" (VObj []) else Done config)
       (fun config =>
  (* if (config.mcpServers.desktopCommander) delete config.mcpServers.desktopCommander; *)
  bind (has_old_entry config) (fun old =>
  bind (if old then on_mcpServers config (fun servers => delete servers "desktopCommander")
        else Done config)
       (fun config =>
  (* config.mcpServers["desktop-commander"] = serverConfig; *)
  on_mcpServers config (fun servers => set servers "desktop-commander" serverConfig))))).

(** [writeFileSync(claudeConfigPath, JSON.stringify(value, null, 2))]: the
    file now holds a text that parses to [reparse value]. *)
Definition writeConfig (value : JsVal) (fs : Fs) : Fs :=
  {| configDirExists := configDirExists fs;
     configFile := Some (JsonText (reparse value)) |}.

(** [setup()], as far as the configuration file goes: the returned flag and
    the file system it leaves. Logging, the banner and [restartClaude()]
    (whose failures are caught inside it) do not touch the file; every
    exception of the [try] block ends in [return false]. *)
Definition setup (env : Env) (fs : Fs) : bool * Fs :=
  (* if (!existsSync(configDir)) mkdirSync(configDir, { recursive: true }); *)
  let fs := {| configDirExists := true; configFile := configFile fs |} in
  match configFile fs with
  | None =>
      let fs := writeConfig (defaultConfig env) fs in
      match update_config (defaultConfig env) (serverConfig env) with
      | Done config => (true, writeConfig config fs)
      | TypeError => (false, fs)
      end
  | Some (Unparseable _) => (false, fs)          (* JSON.parse throws *)
  | Some (JsonText config) =>
      match update_config config (serverConfig env) with
      | Done config => (true, writeConfig config fs)
      | TypeError => (false, fs)
      end
  end.

(** A property of the configuration object, and an entry of its
    [mcpServers] object. *)
Definition field (config : JsVal) (k : string) : option JsVal :=
  match config with
  | VObj props => lookup_prop k props
  | _ => None
  end.

Definition server_entry (config : JsVal) (k : string) : option JsVal :=
  match field config "mcpServers" with
  | Some servers => field servers k
  | None => None
  end.

(** A configuration as [setup()] expects one: an object whose [mcpServers]
    property is missing, falsy, or an object. *)
Definition object_config (config : JsVal) : bool :=
  match config with
  | VObj props =>
      match lookup_prop "mcpServers" props with
      | Some (VObj _) => true
      | Some servers => negb (truthy servers)
      | None => true
      end
  | _ => false
  end.

(** The properties of an object other than [k], in order. *)
Definition others (k : string) (ps : list (string * JsVal)) : list (string * JsVal) :=
  remove_prop k ps.

(** An environment and two configuration files to run [setup] on. *)
Definition sample_env : Env :=
  {| debugMode := false; isNpx := true; isWindows := false; APPDATA := None;
     __dirname := "/opt/dc";
     join := fun parts => String.concat "/" parts |}.

Definition sample_config : JsVal :=
  VObj [ ("theme", VStr "dark");
         ("mcpServers",
          VObj [ ("desktopCommander", VObj [ ("command", VStr "old") ]);
                 ("filesystem", VObj [ ("command", VStr "fs-server") ]) ]);
         ("scale", VNum 1.5%float) ].

Definition null_entry_config : JsVal :=
  VObj [ ("mcpServers", VObj [ ("desktopCommander", VNull) ]) ].

(** The file [{"retries": 1e400}]: [JSON.parse] reads a number beyond the
    range of a double as [Infinity]. *)
Definition overflow_config : JsVal :=
  VObj [ ("retries", VNum infinity) ].

(** The file system with an existing configuration file. *)
Definition with_file (config : JsVal) : Fs :=
  {| configDirExists := true; configFile := Some (JsonText config) |}.

End Setup.

(** ** The tool-call server ([src/server.ts]) *)

Module Server.

(** One entry of a result's [content] array: [{type: "text", text: ...}]. *)
Record ContentItem := { type : string; text : string }.

(** [ServerResult]: [content] and the optional [isError] flag. *)
Record ServerResult := { content : list ContentItem; isError : option bool }.

(** What a JavaScript [throw] (or a rejected promise) carries, as far as the
    outer [catch] looks at it: [error instanceof Error] selects
    [error.message], which the template literal then converts to a string;
    anything else goes through [String(error)]. Either conversion gives a
    text or throws in its turn: [String(Object.create(null))] throws a
    [TypeError], and so does the template literal on a [message] that is a
    Symbol; a getter or a [toString] method can throw any value. *)
Inductive Thrown :=
| ErrorInstance (message : Rendering)
| OtherValue (rendered : Rendering)
with Rendering :=
| Text (s : string)
| Unrenderable (raised : Thrown).

(** How an awaited call ends. *)
Inductive Completion (A : Type) :=
| Returned (a : A)
| Threw (e : Thrown).
Arguments Returned {A} a.
Arguments Threw {A} e.

(** An asynchronous computation over the state [W] of everything the
    handlers can reach (registry, file system, configuration store). *)
Definition Async (W A : Type) : Type := W -> Completion A * W.

Definition ret {W A : Type} (a : A) : Async W A := fun w => (Returned a, w).

Definition throw {W A : Type} (error : Thrown) : Async W A := fun w => (Threw error, w).

(** [try { body } catch (error) { handler }] *)
Definition try_catch {W A : Type} (body : Async W A) (handler : Thrown -> Async W A)
  : Async W A :=
  fun w =>
    match body w with
    | (Returned a, w') => (Returned a, w')
    | (Threw error, w') => handler error w'
    end.

(** [request.params]: the tool name and its (untyped) arguments. *)
Record CallToolRequest (Args : Type) := { name : string; arguments : Args }.
Arguments name {Args} _.
Arguments arguments {Args} _.

(** The imported collaborators: [getConfig], [setConfigValue]
    ([./tools/config.js]) and the sixteen functions of [./handlers/index.js]. *)
Record Handlers (W Args : Type) := {
  getConfig : Async W ServerResult;
  setConfigValue : Args -> Async W ServerResult;
  handleExecuteCommand : Args -> Async W ServerResult;
  handleReadOutput : Args -> Async W ServerResult;
  handleForceTerminate : Args -> Async W ServerResult;
  handleListSessions : Async W ServerResult;
  handleListProcesses : Async W ServerResult;
  handleKillProcess : Args -> Async W ServerResult;
  handleReadFile : Args -> Async W ServerResult;
  handleReadMultipleFiles : Args -> Async W ServerResult;
  handleWriteFile : Args -> Async W ServerResult;
  handleCreateDirectory : Args -> Async W ServerResult;
  handleListDirectory : Args -> Async W ServerResult;
  handleMoveFile : Args -> Async W ServerResult;
  handleSearchFiles : Args -> Async W ServerResult;
  handleSearchCode : Args -> Async W ServerResult;
  handleGetFileInfo : Args -> Async W ServerResult;
  handleEditBlock : Args -> Async W ServerResult
}.
Arguments getConfig {W Args} _.
Arguments setConfigValue {W Args} _.
Arguments handleExecuteCommand {W Args} _.
Arguments handleReadOutput {W Args} _.
Arguments handleForceTerminate {W Args} _.
Arguments handleListSessions {W Args} _.
Arguments handleListProcesses {W Args} _.
Arguments handleKillProcess {W Args} _.
Arguments handleReadFile {W Args} _.
Arguments handleReadMultipleFiles {W Args} _.
Arguments handleWriteFile {W Args} _.
Arguments handleCreateDirectory {W Args} _.
Arguments handleListDirectory {W Args} _.
Arguments handleMoveFile {W Args} _.
Arguments handleSearchFiles {W Args} _.
Arguments handleSearchCode {W Args} _.
Arguments handleGetFileInfo {W Args} _.
Arguments handleEditBlock {W Args} _.

(** [{content: [{type: "text", text: msg}], isError: true}] *)
Definition error_result (msg : string) : ServerResult :=
  {| content := [ {| type := "text"; text := msg |} ]; isError := Some true |}.

(** [error instanceof Error ? error.message : String(error)], as the text
    it contributes to the template literal of the next statement. *)
Definition errorMessage (error : Thrown) : Completion string :=
  match error with
  | ErrorInstance (Text message) => Returned message
  | OtherValue (Text rendered) => Returned rendered
  | ErrorInstance (Unrenderable raised) => Threw raised
  | OtherValue (Unrenderable raised) => Threw raised
  end.

(** The handler registered for [CallToolRequestSchema]: the [switch] on
    [name], inside the outer [try]/[catch]. *)
Definition CallToolHandler {W Args : Type} (handlers : Handlers W Args)
    (request : CallToolRequest Args) : Async W ServerResult :=
  try_catch
    (let name := name request in
     let args := arguments request in
     if name =? "get_config" then
       try_catch (getConfig handlers)
         (fun _ => ret (error_result "Error: Failed to get configuration"))
     else if name =? "set_config_value" then
       try_catch (setConfigValue handlers args)
         (fun _ => ret (error_result "Error: Failed to set configuration value"))
     else if name =? "execute_command" then handleExecuteCommand handlers args
     else if name =? "read_output" then handleReadOutput handlers args
     else if name =? "force_terminate" then handleForceTerminate handlers args
     else if name =? "list_sessions" then handleListSessions handlers
     else if name =? "list_processes" then handleListProcesses handlers
     else if name =? "kill_process" then handleKillProcess handlers args
     else if name =? "read_file" then handleReadFile handlers args
     else if name =? "read_multiple_files" then handleReadMultipleFiles handlers args
     else if name =? "write_file" then handleWriteFile handlers args
     else if name =? "create_directory" then handleCreateDirectory handlers args
     else if name =? "list_directory" then handleListDirectory handlers args
     else if name =? "move_file" then handleMoveFile handlers args
     else if name =? "search_files" then handleSearchFiles handlers args
     else if name =? "search_code" then handleSearchCode handlers args
     else if name =? "get_file_info" then handleGetFileInfo handlers args
     else if name =? "edit_block" then handleEditBlock handlers args
     else ret (error_result ("Error: Unknown tool: " ++ name)))
    (fun error =>
       match errorMessage error with
       | Returned errorMessage => ret (error_result ("Error: " ++ errorMessage))
       | Threw raised => throw raised
       end).

(** The argument schemas imported from [./tools/schemas.js]. *)
Inductive ArgsSchema :=
| GetConfigArgsSchema | SetConfigValueArgsSchema
| ReadFileArgsSchema | ReadMultipleFilesArgsSchema | WriteFileArgsSchema
| CreateDirectoryArgsSchema | ListDirectoryArgsSchema | MoveFileArgsSchema
| SearchFilesArgsSchema | SearchCodeArgsSchema | GetFileInfoArgsSchema
| EditBlockArgsSchema
| ExecuteCommandArgsSchema | ReadOutputArgsSchema | ForceTerminateArgsSchema
| ListSessionsArgsSchema | ListProcessesArgsSchema | KillProcessArgsSchema.

(** One entry of the catalogue. The description texts do not take part in
    dispatch and are left out. *)
Record Tool := { tool_name : string; inputSchema : ArgsSchema }.

(** The [tools] array returned by the [ListToolsRequestSchema] handler, in
    the order of the source. *)
Definition tools : list Tool :=
  [ {| tool_name := "get_config"; inputSchema := GetConfigArgsSchema |};
    {| tool_name := "set_config_value"; inputSchema := SetConfigValueArgsSchema |};
    {| tool_name := "read_file"; inputSchema := ReadFileArgsSchema |};
    {| tool_name := "read_multiple_files"; inputSchema := ReadMultipleFilesArgsSchema |};
    {| tool_name := "write_file"; inputSchema := WriteFileArgsSchema |};
    {| tool_name := "create_directory"; inputSchema := CreateDirectoryArgsSchema |};
    {| tool_name := "list_directory"; inputSchema := ListDirectoryArgsSchema |};
    {| tool_name := "move_file"; inputSchema := MoveFileArgsSchema |};
    {| tool_name := "search_files"; inputSchema := SearchFilesArgsSchema |};
    {| tool_name := "search_code"; inputSchema := SearchCodeArgsSchema |};
    {| tool_name := "get_file_info"; inputSchema := GetFileInfoArgsSchema |};
    {| tool_name := "edit_block"; inputSchema := EditBlockArgsSchema |};
    {| tool_name := "execute_command"; inputSchema := ExecuteCommandArgsSchema |};
    {| tool_name := "read_output"; inputSchema := ReadOutputArgsSchema |};
    {| tool_name := "force_terminate"; inputSchema := ForceTerminateArgsSchema |};
    {| tool_name := "list_sessions"; inputSchema := ListSessionsArgsSchema |};
    {| tool_name := "list_processes"; inputSchema := ListProcessesArgsSchema |};
    {| tool_name := "kill_process"; inputSchema := KillProcessArgsSchema |} ].

(** The [case] labels of the [switch], in the order of the source. *)
Definition dispatched_tool_names : list string :=
  [ "get_config"; "set_config_value";
    "execute_command"; "read_output"; "force_terminate"; "list_sessions";
    "list_processes"; "kill_process";
    "read_file"; "read_multiple_files"; "write_file"; "create_directory";
    "list_directory"; "move_file"; "search_files"; "search_code";
    "get_file_info"; "edit_block" ].

(** The six operations of the session manager's external interface, each
    with the tool name it is exposed under and the dedicated handler its
    [case] calls. *)
Inductive Operation :=
| OpExecute | OpReadOutput | OpTerminate | OpListSessions | OpListProcesses
| OpKillProcess.

Definition operations : list Operation :=
  [OpExecute; OpReadOutput; OpTerminate; OpListSessions; OpListProcesses;
   OpKillProcess].

Definition exposed_as (op : Operation) : string :=
  match op with
  | OpExecute => "execute_command"
  | OpReadOutput => "read_output"
  | OpTerminate => "force_terminate"
  | OpListSessions => "list_sessions"
  | OpListProcesses => "list_processes"
  | OpKillProcess => "kill_process"
  end.

Definition dedicated_handler {W Args : Type} (handlers : Handlers W Args)
    (op : Operation) (args : Args) : Async W ServerResult :=
  match op with
  | OpExecute => handleExecuteCommand handlers args
  | OpReadOutput => handleReadOutput handlers args
  | OpTerminate => handleForceTerminate handlers args
  | OpListSessions => handleListSessions handlers
  | OpListProcesses => handleListProcesses handlers
  | OpKillProcess => handleKillProcess handlers args
  end.

(** The function a [case] label calls, for every label of the [switch]
    ([None]: the [default] branch). Used to state what the dispatcher does
    with a handler's outcome. *)
Definition routed {W Args : Type} (handlers : Handlers W Args) (name : string)
  : option (Args -> Async W ServerResult) :=
  if name =? "get_config" then Some (fun _ => getConfig handlers)
  else if name =? "set_config_value" then Some (setConfigValue handlers)
  else if name =? "execute_command" then Some (handleExecuteCommand handlers)
  else if name =? "read_output" then Some (handleReadOutput handlers)
  else if name =? "force_terminate" then Some (handleForceTerminate handlers)
  else if name =? "list_sessions" then Some (fun _ => handleListSessions handlers)
  else if name =? "list_processes" then Some (fun _ => handleListProcesses handlers)
  else if name =? "kill_process" then Some (handleKillProcess handlers)
  else if name =? "read_file" then Some (handleReadFile handlers)
  else if name =? "read_multiple_files" then Some (handleReadMultipleFiles handlers)
  else if name =? "write_file" then Some (handleWriteFile handlers)
  else if name =? "create_directory" then Some (handleCreateDirectory handlers)
  else if name =? "list_directory" then Some (handleListDirectory handlers)
  else if name =? "move_file" then Some (handleMoveFile handlers)
  else if name =? "search_files" then Some (handleSearchFiles handlers)
  else if name =? "search_code" then Some (handleSearchCode handlers)
  else if name =? "get_file_info" then Some (handleGetFileInfo handlers)
  else if name =? "edit_block" then Some (handleEditBlock handlers)
  else None.

(** How the dispatcher ends when the function called for [name] throws
    [error]: the two configuration cases have a [catch] of their own, which
    does not look at the error; every other case falls to the outer one,
    which answers with the error's text, or throws what the conversion to
    text throws. *)
Definition answer_to_failure (name : string) (error : Thrown) : Completion ServerResult :=
  if name =? "get_config"
  then Returned (error_result "Error: Failed to get configuration")
  else if name =? "set_config_value"
  then Returned (error_result "Error: Failed to set configuration value")
  else match errorMessage error with
       | Returned errorMessage => Returned (error_result ("Error: " ++ errorMessage))
       | Threw raised => Threw raised
       end.

(** [Object.create(null)], thrown: no [Error], and [String()] of it throws
    the [TypeError] of an object that has no conversion to a primitive. *)
Definition cannot_convert : Thrown :=
  ErrorInstance (Text "Cannot convert object to primitive value").

Definition null_prototype_object : Thrown := OtherValue (Unrenderable cannot_convert).

(** Handlers that answer every call with the same non-error result, used
    to observe which names are dispatched. *)
Definition probe_result : ServerResult :=
  {| content := [ {| type := "text"; text := "ok" |} ]; isError := None |}.

Definition probe_handlers : Handlers unit unit :=
  {| getConfig := ret probe_result;
     setConfigValue := fun _ => ret probe_result;
     handleExecuteCommand := fun _ => ret probe_result;
     handleReadOutput := fun _ => ret probe_result;
     handleForceTerminate := fun _ => ret probe_result;
     handleListSessions := ret probe_result;
     handleListProcesses := ret probe_result;
     handleKillProcess := fun _ => ret probe_result;
     handleReadFile := fun _ => ret probe_result;
     handleReadMultipleFiles := fun _ => ret probe_result;
     handleWriteFile := fun _ => ret probe_result;
     handleCreateDirectory := fun _ => ret probe_result;
     handleListDirectory := fun _ => ret probe_result;
     handleMoveFile := fun _ => ret probe_result;
     handleSearchFiles := fun _ => ret probe_result;
     handleSearchCode := fun _ => ret probe_result;
     handleGetFileInfo := fun _ => ret probe_result;
     handleEditBlock := fun _ => ret probe_result |}.

(** Handlers that all throw, used to observe the error path. *)
Definition failing_handlers (e : Thrown) : Handlers unit unit :=
  {| getConfig := fun w => (Threw e, w);
     setConfigValue := fun _ w => (Threw e, w);
     handleExecuteCommand := fun _ w => (Threw e, w);
     handleReadOutput := fun _ w => (Threw e, w);
     handleForceTerminate := fun _ w => (Threw e, w);
     handleListSessions := fun w => (Threw e, w);
     handleListProcesses := fun w => (Threw e, w);
     handleKillProcess := fun _ w => (Threw e, w);
     handleReadFile := fun _ w => (Threw e, w);
     handleReadMultipleFiles := fun _ w => (Threw e, w);
     handleWriteFile := fun _ w => (Threw e, w);
     handleCreateDirectory := fun _ w => (Threw e, w);
     handleListDirectory := fun _ w => (Threw e, w);
     handleMoveFile := fun _ w => (Threw e, w);
     handleSearchFiles := fun _ w => (Threw e, w);
     handleSearchCode := fun _ w => (Threw e, w);
     handleGetFileInfo := fun _ w => (Threw e, w);
     handleEditBlock := fun _ w => (Threw e, w) |}.

End Server.

(** ** The list handlers of [src/server.ts] *)

Module Listing.
Import Server.

(** A line written with [console.error]: its text, and the value logged
    after it if there is one. *)
Record ErrorLine := { label : string; logged_value : option Thrown }.

(** The handlers of [resources/list] and [prompts/list]: the empty list. *)
Definition ListResourcesHandler {W R : Type} : Async W (list R) := ret [].

Definition ListPromptsHandler {W P : Type} : Async W (list P) := ret [].

(** One tool of the answer of [tools/list]: its name and the JSON schema
    [zodToJsonSchema] makes of its argument schema. The description texts
    are constants of the source and are left out, as in [Server.tools]. *)
Record ListedTool (S : Type) := { listed_name : string; listed_schema : S }.
Arguments listed_name {S} _.
Arguments listed_schema {S} _.

(** The array literal [tools: [ ... ]]: its elements are evaluated in
    order, and the first call of [zodToJsonSchema] that throws ends the
    evaluation. *)
Fixpoint listed {S : Type} (zodToJsonSchema : ArgsSchema -> Completion S)
    (entries : list Tool) : Completion (list (ListedTool S)) :=
  match entries with
  | [] => Returned []
  | entry :: rest =>
      match zodToJsonSchema (inputSchema entry) with
      | Threw error => Threw error
      | Returned schema =>
          match listed zodToJsonSchema rest with
          | Threw error => Threw error
          | Returned others =>
              Returned ({| listed_name := tool_name entry; listed_schema := schema |}
                        :: others)
          end
      end
  end.

(** [console.error(label)] and [console.error(label, value)], on the lines
    written so far. *)
Definition console_error (line : ErrorLine) : Async (list ErrorLine) unit :=
  fun w => (Returned tt, (w ++ [line])%list).

(** The handler registered for [ListToolsRequestSchema]. *)
Definition ListToolsHandler {S : Type} (zodToJsonSchema : ArgsSchema -> Completion S)
  : Async (list ErrorLine) (list (ListedTool S)) :=
  try_catch
    (fun w =>
       match console_error {| label := "Generating tools list...";
                              logged_value := None |} w with
       | (_, w') => (listed zodToJsonSchema tools, w')
       end)
    (fun error w =>
       match console_error {| label := "Error in list_tools request handler:";
                              logged_value := Some error |} w with
       | (_, w') => (Threw error, w')
       end).

End Listing.

(** ** The setup script with its effects ([setup-claude-server.js]) *)

Module Script.
Import Js.

(** A thrown value, as the script looks at one: [err.message], and the text
    a template literal gives for it. *)
Record Exn := { error_message : string; error_string : string }.

(** How a call ends. *)
Inductive Completion (A : Type) :=
| Returned (a : A)
| Threw (error : Exn).
Arguments Returned {A} a.
Arguments Threw {A} error.

(** What the script does to the world around it, in the order it does it. *)
Inductive Effect :=
| ConsoleLog (line : string)           (* console.log(line) *)
| AppendLog (text : string)            (* appendFileSync(LOG_FILE, text), done *)
| Stdout (text : string)               (* process.stdout.write(text) *)
| Stderr (text : string)               (* process.stderr.write(text) *)
| Mkdir (dir : string)                 (* mkdirSync(dir, { recursive: true }), done *)
| WriteConfig (value : JsVal)          (* writeFileSync(claudeConfigPath,
                                          JSON.stringify(value, null, 2)), done *)
| Exec (actualCommand : string)        (* exec(actualCommand, { timeout: 10000 }, ...) *)
| Sleep (ms : nat)                     (* await of a setTimeout(resolve, ms) *)
| ExitAfter (ms code : nat).           (* setTimeout(() => process.exit(code), ms) *)

(** A [writeFileSync] that throws. It opens the file with flag 'w', which
    creates or truncates it, then writes, then closes: when the open fails
    the file is left as it was; when a later step fails the file holds what
    had been written by then, which is nothing, a part of the text or all
    of it. *)
Record WriteFailure := {
  write_error : Exn;
  left_behind : option Setup.FileContent   (* what the file holds afterwards,
                                              if it was opened *)
}.

(** The machine the script runs on: what it reads from the process, and how
    the operating system answers each call that can fail. Writes to the
    console and to the standard streams, and timers, always complete. *)
Record Host := {
  platform : string;                   (* os.platform(), process.platform *)
  argv : list string;                  (* process.argv *)
  APPDATA : option string;             (* process.env.APPDATA *)
  npm_package_version : option string; (* process.env.npm_package_version *)
  homedir : string;                    (* os.homedir() *)
  import_meta_url : string;            (* import.meta.url *)
  __filename : string;                 (* fileURLToPath(import.meta.url) *)
  __dirname : string;                  (* dirname(__filename) *)
  join : list string -> string;        (* path.join *)
  dirname : string -> string;          (* path.dirname *)
  toISOString : nat -> string;         (* new Date().toISOString(), at the n-th
                                          call of logToFile *)
  String_ : JsVal -> string;           (* the text of a value that is no string,
                                          in a template literal *)
  appendFileSync_error : nat -> option Exn;
                                       (* what appendFileSync throws at the n-th
                                          call of logToFile, if it throws *)
  mkdirSync_error : option Exn;        (* what mkdirSync throws, if it throws *)
  readFileSync_error : option Exn;     (* what reading claudeConfigPath throws *)
  writeDefault_error : option WriteFailure;
                                       (* how the write of line 214 fails *)
  writeUpdated_error : option WriteFailure;
                                       (* how the write of line 306 fails *)
  ENOENT : Exn;                        (* reading a file that is not there *)
  ERR_INVALID_ARG_TYPE : Exn;          (* path.join on undefined *)
  SyntaxError : string -> Exn;         (* what JSON.parse throws on a text *)
  TypeError_on : JsVal -> Exn;         (* what a property access that fails on
                                          this configuration throws *)
  exec : string -> Completion (string * string);
                                       (* how a command run by exec ends: its
                                          {stdout, stderr} or the callback's error *)
  version_js : option (Completion (option JsVal));
                                       (* version.js beside the script, if it
                                          exists: how importing it ends, with its
                                          VERSION export (a JSON value) if any *)
  package_json : option (Completion Setup.FileContent)
                                       (* package.json beside the script, if it
                                          exists: how reading it ends *)
}.

(** The state a run changes: the Claude configuration on disk, the effects
    so far, and the number of calls of [logToFile] so far. *)
Record World := { fs : Setup.Fs; effects : list Effect; logged : nat }.

(** A statement sequence: runs from a world, returns or throws, leaves a
    world. *)
Definition Async (A : Type) : Type := World -> Completion A * World.

Definition ret {A : Type} (a : A) : Async A := fun w => (Returned a, w).

Definition throw {A : Type} (error : Exn) : Async A := fun w => (Threw error, w).

Definition bind {A B : Type} (c : Async A) (k : A -> Async B) : Async B :=
  fun w =>
    match c w with
    | (Returned a, w') => k a w'
    | (Threw error, w') => (Threw error, w')
    end.

(** [try { body } catch (error) { handler }] *)
Definition try_catch {A : Type} (body : Async A) (handler : Exn -> Async A) : Async A :=
  fun w =>
    match body w with
    | (Returned a, w') => (Returned a, w')
    | (Threw error, w') => handler error w'
    end.

Declare Scope script_scope.
Delimit Scope script_scope with script.
Notation "x <- c1 ;; c2" := (bind c1 (fun x => c2))
  (at level 100, c1 at next level, right associativity) : script_scope.
Notation "c1 ;; c2" := (bind c1 (fun _ => c2))
  (at level 100, right associativity) : script_scope.
Local Open Scope script_scope.

Definition emit (e : Effect) : Async unit :=
  fun w => (Returned tt,
            {| fs := fs w; effects := (effects w ++ [e])%list; logged := logged w |}).

(** An operation of [Js] inside the script: its [TypeError] is thrown. *)
Definition access {A : Type} (a : Access A) (error : Exn) : Async A :=
  match a with
  | Done x => ret x
  | TypeError => throw error
  end.

Definition nl : string := String "010"%char EmptyString.

(** The double quote. *)
Definition dq : string := String "034"%char EmptyString.

(** [hay.includes(needle)] on strings. *)
Fixpoint includes (needle hay : string) : bool :=
  String.prefix needle hay ||
  match hay with
  | EmptyString => false
  | String _ rest => includes needle rest
  end.

(** The art printed between the two [console.log('\n')] of [setup()]. *)
Definition banner : list string :=
  [ "██████╗ ███████╗███████╗██╗  ██╗████████╗ ██████╗ ██████╗     ██████╗ ██████╗ ███╗   ███╗███╗   ███╗ █████╗ ███╗   ██╗██████╗ ███████╗██████╗ ";
    "██╔══██╗██╔════╝██╔════╝██║ ██╔╝╚══██╔══╝██╔═══██╗██╔══██╗   ██╔════╝██╔═══██╗████╗ ████║████╗ ████║██╔══██╗████╗  ██║██╔══██╗██╔════╝██╔══██╗";
    "██║  ██║█████╗  ███████╗█████╔╝    ██║   ██║   ██║██████╔╝   ██║     ██║   ██║██╔████╔██║██╔████╔██║███████║██╔██╗ ██║██║  ██║█████╗  ██████╔╝";
    "██║  ██║██╔══╝  ╚════██║██╔═██╗    ██║   ██║   ██║██╔═══╝    ██║     ██║   ██║██║╚██╔╝██║██║╚██╔╝██║██╔══██║██║╚██╗██║██║  ██║██╔══╝  ██╔══██╗";
    "██████╔╝███████╗███████║██║  ██╗   ██║   ╚██████╔╝██║        ╚██████╗╚██████╔╝██║ ╚═╝ ██║██║ ╚═╝ ██║██║  ██║██║ ╚████║██████╔╝███████╗██║  ██║";
    "╚═════╝ ╚══════╝╚══════╝╚═╝  ╚═╝   ╚═╝    ╚═════╝ ╚═╝         ╚═════╝ ╚═════╝ ╚═╝     ╚═╝╚═╝     ╚═╝╚═╝  ╚═╝╚═╝  ╚═══╝╚═════╝ ╚══════╝╚═╝  ╚═╝" ].

Section OnHost.
Variable h : Host.

(** [isDebugMode()]: [process.argv.includes('--debug')]. *)
Definition isDebugMode : bool := existsb (String.eqb "--debug") (argv h).

Definition isWindows : bool := platform h =? "win32".

(** The [switch (os)] that sets [claudeConfigPath] when the module loads;
    [path.join] throws a [TypeError] on an argument that is no string. *)
Definition claudeConfigPath : Access string :=
  if platform h =? "win32" then
    match APPDATA h with
    | Some appdata => Done (join h [appdata; "Claude"; "claude_desktop_config.json"])
    | None => TypeError
    end
  else if platform h =? "darwin" then
    Done (join h [homedir h; "Library"; "Application Support"; "Claude";
                  "claude_desktop_config.json"])
  else if platform h =? "linux" then
    Done (join h [homedir h; ".config"; "Claude"; "claude_desktop_config.json"])
  else
    Done (join h [homedir h; ".claude_desktop_config.json"]).

(** What [setup()] reads from its environment, for [Setup.serverConfig] and
    [Setup.defaultConfig]. *)
Definition env : Setup.Env :=
  {| Setup.debugMode := isDebugMode;
     Setup.isNpx := includes "node_modules" (import_meta_url h);
     Setup.isWindows := isWindows;
     Setup.APPDATA := APPDATA h;
     Setup.__dirname := __dirname h;
     Setup.join := join h |}.

(** [appendFileSync(LOG_FILE, text)] at the [n]-th call of [logToFile]. *)
Definition appendFileSync (n : nat) (text : string) : Async unit :=
  match appendFileSync_error h n with
  | Some error => throw error
  | None => emit (AppendLog text)
  end.

(** [logToFile(message, isError = false)] *)
Definition logToFile (message : string) (isError : bool) : Async unit :=
  fun w =>
    let timestamp := toISOString h (logged w) in
    let logMessage :=
      timestamp ++ " - " ++ (if isError then "ERROR: " else "") ++ message ++ nl in
    try_catch
      (appendFileSync (logged w) logMessage ;;
       emit (Stdout (message ++ nl)))
      (fun err =>
         emit (Stderr ("Failed to write to log file: " ++ error_message err ++ nl)))
      {| fs := fs w; effects := effects w; logged := S (logged w) |}.

(** [execAsync(command)]: resolves with [{stdout, stderr}], rejects with the
    error [exec] reports. *)
Definition execAsync (command : string) : Async (string * string) :=
  let actualCommand := if isWindows then "cmd.exe /c " ++ command else command in
  emit (Exec actualCommand) ;;
  (fun w => (exec h actualCommand, w)).

(** [restartClaude()] *)
Definition restartClaude : Async unit :=
  try_catch
    (let platform := platform h in
     (* Try to kill Claude process first *)
     try_catch
       ((if platform =? "win32" then
           execAsync ("taskkill /F /IM " ++ dq ++ "Claude.exe" ++ dq) ;; ret tt
         else if platform =? "darwin" then
           execAsync ("killall " ++ dq ++ "Claude" ++ dq) ;; ret tt
         else if platform =? "linux" then
           execAsync ("pkill -f " ++ dq ++ "claude" ++ dq) ;; ret tt
         else ret tt) ;;
        logToFile "Claude process terminated successfully" false)
       (fun killError =>
          logToFile "Claude process not found or already terminated" false) ;;
     (* Wait a bit to ensure process termination *)
     emit (Sleep 3000) ;;
     (* Try to start Claude *)
     try_catch
       ((if platform =? "win32" then
           logToFile "Windows: Claude restart skipped - requires manual restart" false
         else if platform =? "darwin" then
           execAsync ("open -a " ++ dq ++ "Claude" ++ dq) ;;
           logToFile (nl ++ "✅ Claude has been restarted automatically!") false
         else if platform =? "linux" then
           execAsync "claude" ;;
           logToFile (nl ++ "✅ Claude has been restarted automatically!") false
         else
           logToFile (nl ++ "To use the server restart Claude if it's currently running"
                         ++ nl) false) ;;
        logToFile (nl ++ "✅ Installation successfully completed! Thank you for using Desktop Commander!" ++ nl) false ;;
        logToFile (nl ++ "The server is available as " ++ dq ++ "desktop-commander" ++ dq
                      ++ " in Claude's MCP server list") false ;;
        logToFile ("Future updates will install automatically — no need to run this setup again."
                     ++ nl ++ nl) false ;;
        logToFile ("💬 Need help or found an issue? Join our community: https://discord.com/invite/kQ27sNnZr7" ++ nl ++ nl) false)
       (fun startError => throw startError))
    (fun error =>
       logToFile ("Failed to restart Claude: " ++ error_string error
                    ++ ". Please restart it manually.") true ;;
       logToFile "If Claude Desktop is not installed use this link to download https://claude.ai/download" true).

(** [JSON.parse] of a file's content. *)
Definition JSON_parse (content : Setup.FileContent) : Async JsVal :=
  match content with
  | Setup.JsonText v => ret v
  | Setup.Unparseable raw => throw (SyntaxError h raw)
  end.

(** [getVersion()]; [None] is [undefined]. *)
Definition getVersion : Async (option JsVal) :=
  try_catch
    (let env_version := VStr <$> npm_package_version h in
     if truthy_read env_version then ret env_version
     else
       (* Check if version.js exists in dist directory (when running from root) *)
       match version_js h with
       | Some imported =>
           VERSION <- (fun w => (imported, w)) ;;
           ret VERSION
       | None =>
           match package_json h with
           | Some read =>
               packageJsonContent <- (fun w => (read, w)) ;;
               packageJson <- JSON_parse packageJsonContent ;;
               version <- access (get packageJson "version") (TypeError_on h packageJson) ;;
               if truthy_read version then ret version
               else ret (Some (VStr "unknown"))
           | None => ret (Some (VStr "unknown"))
           end
       end)
    (fun error => ret (Some (VStr "unknown"))).

(** The text of a value inside a template literal. *)
Definition display (v : option JsVal) : string :=
  match v with
  | None => "undefined"
  | Some (VStr s) => s
  | Some v => String_ h v
  end.

Definition existsSync_configDir : Async bool :=
  fun w => (Returned (Setup.configDirExists (fs w)), w).

Definition existsSync_config : Async bool :=
  fun w => (Returned (match Setup.configFile (fs w) with
                      | Some _ => true
                      | None => false
                      end), w).

(** [mkdirSync(configDir, { recursive: true })] *)
Definition mkdirSync (configDir : string) : Async unit :=
  match mkdirSync_error h with
  | Some error => throw error
  | None =>
      fun w => (Returned tt,
                {| fs := {| Setup.configDirExists := true;
                            Setup.configFile := Setup.configFile (fs w) |};
                   effects := (effects w ++ [Mkdir configDir])%list;
                   logged := logged w |})
  end.

(** [readFileSync(claudeConfigPath, 'utf8')] *)
Definition readFileSync_config : Async Setup.FileContent :=
  match readFileSync_error h with
  | Some error => throw error
  | None =>
      fun w =>
        match Setup.configFile (fs w) with
        | Some content => (Returned content, w)
        | None => (Threw (ENOENT h), w)
        end
  end.

(** The configuration on disk after a write that failed. *)
Definition after_failed_write (failed : WriteFailure) (disk : Setup.Fs) : Setup.Fs :=
  match left_behind failed with
  | Some content =>
      {| Setup.configDirExists := Setup.configDirExists disk;
         Setup.configFile := Some content |}
  | None => disk
  end.

(** [writeFileSync(claudeConfigPath, JSON.stringify(value, null, 2))] *)
Definition writeFileSync_config (failure : option WriteFailure) (value : JsVal)
  : Async unit :=
  match failure with
  | Some failed =>
      fun w => (Threw (write_error failed),
                {| fs := after_failed_write failed (fs w);
                   effects := effects w;
                   logged := logged w |})
  | None =>
      fun w => (Returned tt,
                {| fs := Setup.writeConfig value (fs w);
                   effects := (effects w ++ [WriteConfig value])%list;
                   logged := logged w |})
  end.

Fixpoint console_log_each (lines : list string) : Async unit :=
  match lines with
  | [] => ret tt
  | line :: rest => emit (ConsoleLog line) ;; console_log_each rest
  end.

(** [setup()], for the module-level constant [claudeConfigPath]. *)
Definition setup (claudeConfigPath : string) : Async bool :=
  let debugMode := isDebugMode in
  (* Print ASCII art for DESKTOP COMMANDER *)
  emit (ConsoleLog nl) ;;
  console_log_each banner ;;
  emit (ConsoleLog nl) ;;
  (if debugMode
   then logToFile "Debug mode enabled. Will configure with Node.js inspector options." false
   else ret tt) ;;
  try_catch
    ((* Check if config directory exists and create it if necessary *)
     let configDir := dirname h claudeConfigPath in
     dirExists <- existsSync_configDir ;;
     (if negb dirExists then
        logToFile ("Creating config directory: " ++ configDir) false ;;
        mkdirSync configDir
      else ret tt) ;;
     (* Check if config file exists and create default if not *)
     fileExists <- existsSync_config ;;
     config <- (if negb fileExists then
                  logToFile ("Claude config file not found at: " ++ claudeConfigPath) false ;;
                  logToFile "Creating default config file..." false ;;
                  let defaultConfig := Setup.defaultConfig env in
                  writeFileSync_config (writeDefault_error h) defaultConfig ;;
                  logToFile "Default config file created." false ;;
                  ret defaultConfig
                else
                  (* Read existing config *)
                  configData <- readFileSync_config ;;
                  JSON_parse configData) ;;
     (* Determine if running through npx or locally *)
     let isNpx := Setup.isNpx env in
     serverConfig <- (if debugMode then
                        if isNpx then
                          logToFile "Setting up debug configuration with npx. The process will pause on start until a debugger connects." false ;;
                          ret (Setup.serverConfig env)
                        else
                          logToFile "Setting up debug configuration with local path. The process will pause on start until a debugger connects." false ;;
                          ret (Setup.serverConfig env)
                      else ret (Setup.serverConfig env)) ;;
     (* Update the config *)
     config' <- access (Setup.update_config config serverConfig) (TypeError_on h config) ;;
     (* Write the updated config back *)
     writeFileSync_config (writeUpdated_error h) config' ;;
     appVersion <- getVersion ;;
     logToFile ("✅ Desktop Commander MCP v" ++ display appVersion
                  ++ " successfully added to Claude's configuration.") false ;;
     logToFile ("Configuration location: " ++ claudeConfigPath) false ;;
     (if debugMode then
        logToFile (nl ++ "To use the debug server:" ++ nl
                      ++ "1. Restart Claude if it's currently running" ++ nl
                      ++ "2. The server will be available as " ++ dq
                      ++ "desktop-commander-debug" ++ dq
                      ++ " in Claude's MCP server list" ++ nl
                      ++ "3. Connect your debugger to port 9229") false
      else ret tt) ;;
     (* Try to restart Claude *)
     restartClaude ;;
     ret true)
    (fun error =>
       logToFile ("Error updating Claude configuration: " ++ error_string error) true ;;
       ret false).

(** The module's top level, from the [switch (os)] on: [claudeConfigPath],
    then the "Allow direct execution" block. [Threw]: the module does not
    load. *)
Definition main : Async unit :=
  claudeConfigPath <- access claudeConfigPath (ERR_INVALID_ARG_TYPE h) ;;
  if Nat.leb 2 (List.length (argv h)) && String.eqb (nth 1 (argv h) "") (__filename h) then
    try_catch
      (success <- setup claudeConfigPath ;;
       if negb success then emit (ExitAfter 1000 1) else ret tt)
      (fun error =>
         logToFile ("Fatal error: " ++ error_string error) true ;;
         emit (ExitAfter 1000 1))
  else ret tt.

End OnHost.

(** [c], run from [w], ends in a result and a world that satisfy [Q]. *)
Definition ends {A : Type} (c : Async A) (w : World)
    (Q : Completion A -> World -> Prop) : Prop :=
  forall r w', c w = (r, w') -> Q r w'.

(** Printing and logging, as opposed to what changes the machine. *)
Definition silent (e : Effect) : bool :=
  match e with
  | ConsoleLog _ | AppendLog _ | Stdout _ | Stderr _ => true
  | _ => false
  end.

(** What a run did besides printing and logging, in order. *)
Definition deeds (es : list Effect) : list Effect :=
  List.filter (fun e => negb (silent e)) es.


(** The commands [restartClaude()] passes to [exec], with its pause, on each
    platform. *)
Definition restart_plan (h : Host) : list Effect :=
  if platform h =? "win32" then
    [ Exec ("cmd.exe /c taskkill /F /IM " ++ dq ++ "Claude.exe" ++ dq); Sleep 3000 ]
  else if platform h =? "darwin" then
    [ Exec ("killall " ++ dq ++ "Claude" ++ dq); Sleep 3000;
      Exec ("open -a " ++ dq ++ "Claude" ++ dq) ]
  else if platform h =? "linux" then
    [ Exec ("pkill -f " ++ dq ++ "claude" ++ dq); Sleep 3000; Exec "claude" ]
  else [ Sleep 3000 ].


(** What [logToFile] writes to the standard output for a message. *)
Definition echo (message : string) : string := message ++ nl.

(** The messages [logToFile] wrote to the standard output, in order. *)
Definition echoed (es : list Effect) : list string :=
  flat_map (fun e => match e with Stdout text => [text] | _ => [] end) es.

(** The lines appended to the log file, and the complaints written to the
    standard error stream, in order. *)
Definition appended (es : list Effect) : list string :=
  flat_map (fun e => match e with AppendLog text => [text] | _ => [] end) es.

Definition complained (es : list Effect) : list string :=
  flat_map (fun e => match e with Stderr text => [text] | _ => [] end) es.

(** Every call of [logToFile] so far has either appended a line to the log
    and echoed its message, or complained on the standard error stream. *)
Definition accounted (w : World) : Prop :=
  List.length (echoed (effects w)) = List.length (appended (effects w)) /\
  logged w =
    List.length (appended (effects w)) + List.length (complained (effects w)).

(** The command [restartClaude()] starts Claude with, where it has one. *)
Definition start_command (h : Host) : option string :=
  if platform h =? "win32" then None
  else if platform h =? "darwin" then Some ("open -a " ++ dq ++ "Claude" ++ dq)
  else if platform h =? "linux" then Some "claude"
  else None.

(** What [setup()] does before it writes the updated configuration: the
    directory is made when it is missing, the default configuration is
    written when there is no file. *)
Definition preparation (h : Host) (claudeConfigPath : string) (disk : Setup.Fs)
  : list Effect :=
  ((if Setup.configDirExists disk then [] else [Mkdir (dirname h claudeConfigPath)]) ++
   (match Setup.configFile disk with
    | None => [WriteConfig (Setup.defaultConfig (env h))]
    | Some _ => []
    end))%list.

(** How a run of [setup()] that does not write the updated configuration
    can leave the file: as it was; or, if there was none, holding the
    default configuration; or holding what a write that failed after
    opening the file left in it. *)
Definition unwritten (h : Host) (before after : Setup.Fs) : Prop :=
  Setup.configFile after = Setup.configFile before \/
  (Setup.configFile before = None /\
   Setup.configFile after =
     Some (Setup.JsonText (reparse (Setup.defaultConfig (env h))))) \/
  (Setup.configFile before = None /\
   exists failed content,
     writeDefault_error h = Some failed /\ left_behind failed = Some content /\
     Setup.configFile after = Some content) \/
  (exists failed content,
     writeUpdated_error h = Some failed /\ left_behind failed = Some content /\
     Setup.configFile after = Some content).

(** A Linux machine on which the script was started directly, where every
    file operation succeeds and the command that starts Claude fails. *)
Definition sample_host : Host :=
  {| platform := "linux";
     argv := [ "/usr/bin/node"; "/opt/dc/setup-claude-server.js" ];
     APPDATA := None;
     npm_package_version := None;
     homedir := "/home/user";
     import_meta_url := "file:///opt/dc/setup-claude-server.js";
     __filename := "/opt/dc/setup-claude-server.js";
     __dirname := "/opt/dc";
     join := String.concat "/";
     dirname := fun _ => "/home/user/.config/Claude";
     toISOString := fun _ => "2025-06-01T12:00:00.000Z";
     String_ := fun _ => "[object Object]";
     appendFileSync_error := fun _ => None;
     mkdirSync_error := None;
     readFileSync_error := None;
     writeDefault_error := None;
     writeUpdated_error := None;
     ENOENT := {| error_message := "ENOENT: no such file or directory";
                  error_string := "Error: ENOENT: no such file or directory" |};
     ERR_INVALID_ARG_TYPE :=
       {| error_message := "The path argument must be of type string";
          error_string := "TypeError: The path argument must be of type string" |};
     SyntaxError := fun _ =>
       {| error_message := "Unexpected end of JSON input";
          error_string := "SyntaxError: Unexpected end of JSON input" |};
     TypeError_on := fun _ =>
       {| error_message := "Cannot create property on a primitive";
          error_string := "TypeError: Cannot create property on a primitive" |};
     exec := fun actualCommand =>
       if actualCommand =? "claude"
       then Threw {| error_message := "Command failed: claude";
                     error_string := "Error: Command failed: claude" |}
       else Returned ("", "");
     version_js := None;
     package_json :=
       Some (Returned (Setup.JsonText (VObj [ ("version", VStr "0.2.3") ]))) |}.

Definition sample_path : string := "/home/user/.config/Claude/claude_desktop_config.json".

(** A world whose configuration file is [Setup.sample_config], and one
    whose file does not parse. *)
Definition sample_world : World :=
  {| fs := {| Setup.configDirExists := true;
              Setup.configFile := Some (Setup.JsonText Setup.sample_config) |};
     effects := [];
     logged := 0 |}.

Definition broken_world : World :=
  {| fs := {| Setup.configDirExists := true;
              Setup.configFile := Some (Setup.Unparseable "{") |};
     effects := [];
     logged := 0 |}.

End Script.

(** ** The outcomes of the update block *)

Module SetupOutcome.
Import Js.

(** An object or an array: a value a property can be assigned on. *)
Definition container (v : JsVal) : bool :=
  match v with
  | VObj _ | VArr _ _ => true
  | _ => false
  end.

(** The own properties of a value that are named by no array index. *)
Definition properties (v : JsVal) : list (string * JsVal) :=
  match v with
  | VObj props => props
  | VArr _ extra => extra
  | _ => []
  end.

(** The same value with other such properties. *)
Definition with_properties (v : JsVal) (ps : list (string * JsVal)) : JsVal :=
  match v with
  | VObj _ => VObj ps
  | VArr elems _ => VArr elems ps
  | _ => v
  end.



(** How many times a character occurs in a string. *)
Fixpoint occurrences (c : ascii) (s : string) : nat :=
  match s with
  | EmptyString => 0
  | String c' rest => (if Ascii.eqb c' c then 1 else 0) + occurrences c rest
  end.

(** A configuration whose [mcpServers] is an array. *)
Definition array_config : JsVal :=
  VObj [ ("mcpServers", VArr [ VStr "filesystem" ] []) ].

End SetupOutcome.

(** ** The command validator (spec section 4.1) *)

Module Validator.

(* The repository's command manager is not among the sources at hand
   ([server.ts] only calls [handlers.handleExecuteCommand]), so this module
   follows section 4.1 of the specification word by word: split the line on
   the chaining operators, take each piece's leading token, strip its path
   prefix, compare case-insensitively with the blocked patterns. *)

(** Modelled from the spec: the result of [validate], [Allowed] or
    [Rejected(reason)] (section 4.1; the command manager is missing). *)
Inductive Verdict :=
| Allowed
| Rejected (reason : string).

Definition newline : ascii := "010"%char.
Definition tab : ascii := "009"%char.

Definition is_space (c : ascii) : bool :=
  Ascii.eqb c " "%char || Ascii.eqb c tab.

Definition is_path_separator (c : ascii) : bool :=
  Ascii.eqb c "/"%char || Ascii.eqb c "\"%char.

(** Puts one more character in front of the first piece. *)
Definition push (c : ascii) (pieces : list (list ascii)) : list (list ascii) :=
  match pieces with
  | [] => [[c]]
  | piece :: rest => (c :: piece) :: rest
  end.

(** Modelled from the spec: the split into candidate sub-commands of
    section 4.1 (the command manager is missing). The line is cut at every
    [&&], [||], [;], pipe and newline; a lone [&] cuts nothing. *)
Fixpoint split_chain (line : list ascii) : list (list ascii) :=
  match line with
  | [] => [[]]
  | c :: rest =>
      if Ascii.eqb c ";"%char || Ascii.eqb c newline then [] :: split_chain rest
      else if Ascii.eqb c "|"%char then
        match rest with
        | c2 :: rest2 =>
            if Ascii.eqb c2 "|"%char then [] :: split_chain rest2
            else [] :: split_chain rest
        | [] => [] :: split_chain rest
        end
      else if Ascii.eqb c "&"%char then
        match rest with
        | c2 :: rest2 =>
            if Ascii.eqb c2 "&"%char then [] :: split_chain rest2
            else push c (split_chain rest)
        | [] => push c (split_chain rest)
        end
      else push c (split_chain rest)
  end.

Fixpoint skip_spaces (cs : list ascii) : list ascii :=
  match cs with
  | c :: rest => if is_space c then skip_spaces rest else cs
  | [] => []
  end.

Fixpoint take_token (cs : list ascii) : list ascii :=
  match cs with
  | c :: rest => if is_space c then [] else c :: take_token rest
  | [] => []
  end.

(** Modelled from the spec: the leading executable token of a sub-command
    (section 4.1; the command manager is missing), if it has one. *)
Definition leading_token (piece : list ascii) : option (list ascii) :=
  match take_token (skip_spaces piece) with
  | [] => None
  | token => Some token
  end.

(** Modelled from the spec: "stripping any path prefix" (section 4.1; the
    command manager is missing): what follows the last path separator. *)
Definition strip_path (token : list ascii) : list ascii :=
  fold_left (fun name c => if is_path_separator c then [] else (name ++ [c])%list) token [].

Definition lower (c : ascii) : ascii :=
  let n := nat_of_ascii c in
  if (65 <=? n)%nat && (n <=? 90)%nat then ascii_of_nat (n + 32) else c.

Definition lowercase (cs : list ascii) : list ascii := map lower cs.

(** The executable a sub-command names. *)
Definition executable (piece : list ascii) : option (list ascii) :=
  match leading_token piece with
  | Some token => Some (strip_path token)
  | None => None
  end.

(** Modelled from the spec: the case-insensitive comparison with a blocked
    pattern (section 4.1; the command manager is missing). *)
Definition matches (pattern : string) (name : list ascii) : bool :=
  bool_decide (lowercase name = lowercase (list_ascii_of_string pattern)).

Definition blocked (blockedPatterns : list string) (piece : list ascii) : bool :=
  match executable piece with
  | Some name => existsb (fun pattern => matches pattern name) blockedPatterns
  | None => false
  end.

(** Modelled from the spec: [validate(commandLine, blockedPatterns)] of
    section 4.1 (the command manager is missing): any single blocked
    sub-command rejects the whole line. *)
Definition validate (commandLine : string) (blockedPatterns : list string) : Verdict :=
  if existsb (blocked blockedPatterns) (split_chain (list_ascii_of_string commandLine))
  then Rejected "command is blocked"
  else Allowed.

(** The chaining operators, and "the line split on them", stated without
    reference to how [split_chain] scans: the pieces contain no operator,
    and the pieces put back together with operators between them are the
    line. *)
Definition operators : list (list ascii) :=
  [ ["&"%char; "&"%char]; ["|"%char; "|"%char]; [";"%char]; ["|"%char]; [newline] ].

Definition operator_free (piece : list ascii) : Prop :=
  forall pre op post, In op operators -> piece <> (pre ++ op ++ post)%list.

Inductive split_at_operators : list ascii -> list (list ascii) -> Prop :=
| split_last (piece : list ascii) :
    operator_free piece -> split_at_operators piece [piece]
| split_next (piece op rest : list ascii) (pieces : list (list ascii)) :
    operator_free piece -> In op operators ->
    split_at_operators rest pieces ->
    split_at_operators (piece ++ op ++ rest)%list (piece :: pieces).

End Validator.

(** ** The command-session manager (spec sections 3 to 5) *)

Module Manager.

(* The terminal and process managers behind [handlers.*] are not among the
   sources at hand, so this module follows the specification: the Session,
   the Session Registry and the operations on them (Execution Controller,
   Output Reader, Termination Controller, session enumeration, Process
   Inspector). Following section 5, every mutation goes through one
   coordinator, so the manager is a state machine: each call and each
   callback of the runtime (output arrived, process exited, timer fired) is
   one atomic [step]. The two calls that can suspend, [execute] in its
   timeout race and [terminate] in its grace period, are open in the state
   from the step that starts them to the step that ends them, and any
   other step can come in between. Left out, because the specification
   fixes neither bound nor behaviour: the retention bound of the buffers
   and the optional eviction of old sessions. *)

(** Modelled from the spec: the [status] of a Session (section 3; the
    terminal manager is missing). *)
Inductive Status := Running | Completed | Terminated | Failed.

Definition terminal (s : Status) : bool :=
  match s with
  | Running => false
  | Completed | Terminated | Failed => true
  end.

Inductive Stream := Stdout | Stderr.

#[global] Instance Status_eq_dec : EqDecision Status.
Proof. solve_decision. Defined.

#[global] Instance Stream_eq_dec : EqDecision Stream.
Proof. solve_decision. Defined.

(** Modelled from the spec: the Session of section 3 (the terminal manager
    is missing). [outputCursor] has one position per buffer; [exitReported]
    records that a read has already delivered the exit code (section 4.3). *)
Record Session := {
  id : nat;
  command : string;
  shell : string;
  workingDirectory : option string;
  pid : nat;
  status : Status;
  exitCode : option Z;
  stdoutBuffer : list ascii;
  stderrBuffer : list ascii;
  outputCursor : nat * nat;
  exitReported : bool;
  startedAt : nat;
  lastActivityAt : nat
}.

Definition buffer (s : Session) (stream : Stream) : list ascii :=
  match stream with
  | Stdout => stdoutBuffer s
  | Stderr => stderrBuffer s
  end.

Definition cursor (s : Session) (stream : Stream) : nat :=
  match stream with
  | Stdout => fst (outputCursor s)
  | Stderr => snd (outputCursor s)
  end.

(** The terminal transition. *)
Definition finish (to : Status) (code : option Z) (s : Session) : Session :=
  {| id := id s; command := command s; shell := shell s;
     workingDirectory := workingDirectory s; pid := pid s;
     status := to; exitCode := code;
     stdoutBuffer := stdoutBuffer s; stderrBuffer := stderrBuffer s;
     outputCursor := outputCursor s; exitReported := exitReported s;
     startedAt := startedAt s; lastActivityAt := lastActivityAt s |}.

(** Output arrives on one stream. *)
Definition append (stream : Stream) (chunk : list ascii) (at_time : nat) (s : Session)
  : Session :=
  {| id := id s; command := command s; shell := shell s;
     workingDirectory := workingDirectory s; pid := pid s;
     status := status s; exitCode := exitCode s;
     stdoutBuffer := match stream with
                     | Stdout => (stdoutBuffer s ++ chunk)%list
                     | Stderr => stdoutBuffer s
                     end;
     stderrBuffer := match stream with
                     | Stdout => stderrBuffer s
                     | Stderr => (stderrBuffer s ++ chunk)%list
                     end;
     outputCursor := outputCursor s; exitReported := exitReported s;
     startedAt := startedAt s; lastActivityAt := at_time |}.

(** The Output Reader acknowledges everything buffered so far. *)
Definition acknowledge (s : Session) : Session :=
  {| id := id s; command := command s; shell := shell s;
     workingDirectory := workingDirectory s; pid := pid s;
     status := status s; exitCode := exitCode s;
     stdoutBuffer := stdoutBuffer s; stderrBuffer := stderrBuffer s;
     outputCursor := (length (stdoutBuffer s), length (stderrBuffer s));
     exitReported := exitReported s || terminal (status s);
     startedAt := startedAt s; lastActivityAt := lastActivityAt s |}.

(** Consumed from the configuration collaborator (section 6). *)
Record Config := {
  defaultShell : string;
  blockedCommands : list string;
  allowedDirectories : list string
}.

(** What the manager asks of the operating system. *)
Inductive Signal := Graceful | Forceful.

Inductive OsCall :=
| OsSpawn (shell command : string) (workingDirectory : option string)
| OsSignal (pid : nat) (signal : Signal).

(** Modelled from the spec: the stages of one termination attempt (section
    9; the Termination Controller is missing): the graceful signal has been
    sent and the grace period runs, or the forceful signal has been sent too;
    either way the attempt waits for the confirmation that the process has
    exited. *)
Inductive Stage := Signalled | Escalated.

(** Modelled from the spec: the Session Registry (sections 2 and 3; the
    terminal manager is missing), with its id counter, the clock, the
    [execute] calls whose race is still open, the [terminate] calls that
    are suspended (one attempt per call, with the id of its session), and
    the log of operating-system calls made. *)
Record State := {
  sessions : gmap nat Session;
  nextId : nat;
  now : nat;
  racing : gset nat;
  attempts : list (nat * Stage);
  osLog : list OsCall
}.

Definition initial : State :=
  {| sessions := ∅; nextId := 1; now := 0; racing := ∅; attempts := [];
     osLog := [] |}.

Definition with_sessions (m : gmap nat Session) (st : State) : State :=
  {| sessions := m; nextId := nextId st; now := now st; racing := racing st;
     attempts := attempts st; osLog := osLog st |}.

Definition with_racing (r : gset nat) (st : State) : State :=
  {| sessions := sessions st; nextId := nextId st; now := now st; racing := r;
     attempts := attempts st; osLog := osLog st |}.

Definition with_attempts (a : list (nat * Stage)) (st : State) : State :=
  {| sessions := sessions st; nextId := nextId st; now := now st;
     racing := racing st; attempts := a; osLog := osLog st |}.

Definition log_os (calls : list OsCall) (st : State) : State :=
  {| sessions := sessions st; nextId := nextId st; now := now st;
     racing := racing st; attempts := attempts st;
     osLog := (osLog st ++ calls)%list |}.

(** How the operating system answers. *)
Inductive SpawnOutcome :=
| Spawned (pid : nat)
| SpawnRefused (diagnostic : string).

Inductive SignalOutcome :=
| Delivered
| NoSuchProcess.          (* delivery failed: the process was already gone *)

Inductive KillOutcome :=
| KillDelivered
| KillNoSuchProcess
| KillRefused.

Record ProcessInfo := {
  proc_pid : nat; proc_name : string; cpuPercent : nat; memPercent : nat
}.

Record SessionInfo := {
  info_id : nat; info_command : string; info_pid : nat; info_elapsed : nat;
  info_status : Status
}.

(** What a caller gets back. *)
Inductive Response :=
| ExecFinished (status : Status) (stdout stderr : list ascii) (exitCode : option Z)
| ExecRunning (sessionId : nat) (stdoutSoFar stderrSoFar : list ascii)
| ExecFailed (diagnostic : string)
| ValidationError (reason : string)
| NotFound
| OutputSlice (newStdout newStderr : list ascii) (status : Status)
              (exitCode : option Z)
| TerminateResult (alreadyFinished : bool)
| SessionList (running : list SessionInfo)
| ProcessList (snapshot : list ProcessInfo)
| KillOk
| SignalError.

(** Calls of the external interface and callbacks of the runtime. A read
    with [waitMs] takes effect when its wait ends, so the wait is the
    events that come before it. [Terminate] is the start of a call of
    [terminate], with how the delivery of its graceful signal ends;
    [GraceElapsed] is the timer of an attempt on the session running out;
    the call returns when the exit notification [ProcessExit] is served. *)
Inductive Event :=
| Execute (commandLine : string) (timeoutMs : nat) (workingDirectory : option string)
          (os : SpawnOutcome)
| ProcessOutput (sid : nat) (stream : Stream) (chunk : list ascii)
| ProcessExit (sid : nat) (failed : bool) (code : Z)
| TimeoutElapsed (sid : nat)
| ReadOutput (caller : nat) (sid : nat)
| Terminate (sid : nat) (os : SignalOutcome)
| GraceElapsed (sid : nat)
| ListSessions
| ListProcesses (snapshot : list ProcessInfo)
| KillProcess (target : nat) (os : KillOutcome)
| Tick (ms : nat).

Definition is_prefix (p : string) (s : string) : bool := String.prefix p s.

(** The delegated working-directory check: no restriction when the allowed
    set is empty. *)
Definition directory_allowed (cfg : Config) (workingDirectory : option string) : bool :=
  match workingDirectory, allowedDirectories cfg with
  | None, _ => true
  | Some _, [] => true
  | Some d, allowed => existsb (fun p => is_prefix p d) allowed
  end.

(** Modelled from the spec: [execute] of section 4.2 (the Execution
    Controller is missing), up to the start of the race: validate, check the
    working directory, spawn, register. A refused spawn registers nothing
    and is answered with the diagnostic. *)
Definition execute (cfg : Config) (commandLine : string) (timeoutMs : nat)
    (workingDirectory : option string) (os : SpawnOutcome) (st : State)
  : State * list Response :=
  match Validator.validate commandLine (blockedCommands cfg) with
  | Validator.Rejected reason => (st, [ValidationError reason])
  | Validator.Allowed =>
      if negb (directory_allowed cfg workingDirectory)
      then (st, [ValidationError "working directory is not allowed"])
      else
        let st := log_os [OsSpawn (defaultShell cfg) commandLine workingDirectory] st in
        match os with
        | SpawnRefused diagnostic => (st, [ExecFailed diagnostic])
        | Spawned pid =>
            let sid := nextId st in
            let session :=
              {| id := sid; command := commandLine; shell := defaultShell cfg;
                 workingDirectory := workingDirectory; pid := pid;
                 status := Running; exitCode := None;
                 stdoutBuffer := []; stderrBuffer := [];
                 outputCursor := (0, 0); exitReported := false;
                 startedAt := now st; lastActivityAt := now st |} in
            ({| sessions := <[sid := session]> (sessions st);
                nextId := S sid; now := now st;
                racing := {[sid]} ∪ racing st;
                attempts := attempts st;
                osLog := osLog st |}, [])
        end
  end.

(** Modelled from the spec: output capture of section 4.2 (the terminal
    manager is missing): output of a live process is appended as it
    arrives. *)
Definition onOutput (sid : nat) (stream : Stream) (chunk : list ascii) (st : State)
  : State * list Response :=
  match sessions st !! sid with
  | Some s =>
      if terminal (status s) then (st, [])
      else (with_sessions (<[sid := append stream chunk (now st) s]> (sessions st)) st, [])
  | None => (st, [])
  end.

(** What a resolved race returns when the process is no longer running. *)
Definition finished_result (s : Session) : Response :=
  ExecFinished (status s) (stdoutBuffer s) (stderrBuffer s) (exitCode s).

(** The suspended [terminate] calls on a session. *)
Definition awaited (sid : nat) (st : State) : bool :=
  existsb (fun attempt => Nat.eqb (fst attempt) sid) (attempts st).

Definition attempts_on (sid : nat) (st : State) : list (nat * Stage) :=
  List.filter (fun attempt => Nat.eqb (fst attempt) sid) (attempts st).

Definition attempts_elsewhere (sid : nat) (st : State) : list (nat * Stage) :=
  List.filter (fun attempt => negb (Nat.eqb (fst attempt) sid)) (attempts st).

(** Modelled from the spec: the exit notification of sections 3, 4.2, 4.4
    and 9 (the terminal manager is missing). It is one completion signal
    per session, observed by everything that waits for the process. For a
    running session on which a [terminate] call is suspended it is the
    confirmation of exit of section 4.4: the session becomes [Terminated]
    and every such call returns. Otherwise it is the natural exit of
    section 4.2: the session becomes [Completed] or [Failed], with the exit
    code. Either way a race of [execute] that is still open ends. *)
Definition onExit (sid : nat) (failed : bool) (code : Z) (st : State)
  : State * list Response :=
  match sessions st !! sid with
  | Some s =>
      let s' := if terminal (status s) then s
                else if awaited sid st then finish Terminated None s
                else finish (if failed then Failed else Completed) (Some code) s in
      let confirmed := map (fun _ => TerminateResult false) (attempts_on sid st) in
      let st' := with_attempts (attempts_elsewhere sid st)
                   (with_sessions (<[sid := s']> (sessions st)) st) in
      if bool_decide (sid ∈ racing st)
      then (with_racing (racing st ∖ {[sid]}) st', finished_result s' :: confirmed)
      else (st', confirmed)
  | None => (st, [])
  end.

(** Modelled from the spec: the timeout side of the race of section 4.2
    (the Execution Controller is missing): the timer of an [execute] call
    fires. *)
Definition onTimeout (sid : nat) (st : State) : State * list Response :=
  if bool_decide (sid ∈ racing st) then
    match sessions st !! sid with
    | Some s =>
        (with_racing (racing st ∖ {[sid]}) st,
         [if terminal (status s) then finished_result s
          else ExecRunning sid (stdoutBuffer s) (stderrBuffer s)])
    | None => (with_racing (racing st ∖ {[sid]}) st, [])
    end
  else (st, []).

(** Modelled from the spec: [readOutput] of section 4.3 (the Output Reader
    is missing): the slice of each buffer after the cursor, then the cursor
    moves to the end. *)
Definition readOutput (sid : nat) (st : State) : State * list Response :=
  match sessions st !! sid with
  | None => (st, [NotFound])
  | Some s =>
      (with_sessions (<[sid := acknowledge s]> (sessions st)) st,
       [OutputSlice (drop (cursor s Stdout) (stdoutBuffer s))
                    (drop (cursor s Stderr) (stderrBuffer s))
                    (status s)
                    (if terminal (status s) && negb (exitReported s)
                     then exitCode s else None)])
  end.

(** Modelled from the spec: the start of [terminate] of section 4.4 (the
    Termination Controller is missing). An unknown id and a session that is
    already terminal are answered at once. For a running session the
    graceful signal is sent; the call is then suspended, as an attempt that
    waits for the confirmation of exit, while the Registry goes on serving
    other events (section 5). A delivery failure is the benign race of
    section 4.4: the process is gone already, the session is reconciled to
    [Terminated] and the call returns. *)
Definition terminate (sid : nat) (os : SignalOutcome) (st : State)
  : State * list Response :=
  match sessions st !! sid with
  | None => (st, [NotFound])
  | Some s =>
      if terminal (status s) then (st, [TerminateResult true])
      else
        let st := log_os [OsSignal (pid s) Graceful] st in
        match os with
        | Delivered =>
            (with_attempts ((attempts st ++ [(sid, Signalled)])%list) st, [])
        | NoSuchProcess =>
            (with_sessions (<[sid := finish Terminated None s]> (sessions st)) st,
             [TerminateResult false])
        end
  end.

(** The first attempt on a session that is still in its grace period
    escalates. *)
Fixpoint escalate (sid : nat) (pending : list (nat * Stage)) : option (list (nat * Stage)) :=
  match pending with
  | [] => None
  | (sid', Signalled) :: rest =>
      if Nat.eqb sid' sid then Some ((sid', Escalated) :: rest)
      else option_map (cons (sid', Signalled)) (escalate sid rest)
  | (sid', Escalated) :: rest =>
      option_map (cons (sid', Escalated)) (escalate sid rest)
  end.

(** Modelled from the spec: the escalation of section 4.4 (the Termination
    Controller is missing): the grace period of an attempt has run out and
    the process has not exited, so the forceful signal is sent; the call
    stays suspended. *)
Definition onGraceElapsed (sid : nat) (st : State) : State * list Response :=
  match sessions st !! sid, escalate sid (attempts st) with
  | Some s, Some pending =>
      if terminal (status s) then (st, [])
      else (with_attempts pending (log_os [OsSignal (pid s) Forceful] st), [])
  | _, _ => (st, [])
  end.

(** Modelled from the spec: one entry of [listSessions] (section 4.5; the
    terminal manager is missing). *)
Definition info_of (at_time : nat) (entry : nat * Session) : SessionInfo :=
  {| info_id := fst entry; info_command := command (snd entry);
     info_pid := pid (snd entry); info_elapsed := at_time - startedAt (snd entry);
     info_status := status (snd entry) |}.

Definition is_running (entry : nat * Session) : bool :=
  negb (terminal (status (snd entry))).

(** Modelled from the spec: [listSessions] of section 4.5 (the terminal
    manager is missing): the sessions whose status is [Running]. *)
Definition listSessions (st : State) : list SessionInfo :=
  map (info_of (now st)) (List.filter is_running (map_to_list (sessions st))).

(** Modelled from the spec: the reconciliation of section 4.6 (the process
    manager is missing): a running session backed by the killed PID becomes
    [Terminated]. *)
Definition reconcile (target : nat) (s : Session) : Session :=
  if negb (terminal (status s)) && Nat.eqb (pid s) target
  then finish Terminated None s
  else s.

(** Modelled from the spec: [killProcess] of section 4.6 (the process
    manager is missing). *)
Definition killProcess (target : nat) (os : KillOutcome) (st : State)
  : State * list Response :=
  let st := log_os [OsSignal target Graceful] st in
  match os with
  | KillDelivered => (with_sessions (reconcile target <$> sessions st) st, [KillOk])
  | KillNoSuchProcess => (st, [NotFound])
  | KillRefused => (st, [SignalError])
  end.

Definition tick (ms : nat) (st : State) : State :=
  {| sessions := sessions st; nextId := nextId st; now := now st + ms;
     racing := racing st; attempts := attempts st; osLog := osLog st |}.

(** Modelled from the spec: one step of the coordinator of section 5 (the
    terminal and process managers are missing). *)
Definition step (cfg : Config) (st : State) (e : Event) : State * list Response :=
  match e with
  | Execute commandLine timeoutMs workingDirectory os =>
      execute cfg commandLine timeoutMs workingDirectory os st
  | ProcessOutput sid stream chunk => onOutput sid stream chunk st
  | ProcessExit sid failed code => onExit sid failed code st
  | TimeoutElapsed sid => onTimeout sid st
  | ReadOutput _ sid => readOutput sid st
  | Terminate sid os => terminate sid os st
  | GraceElapsed sid => onGraceElapsed sid st
  | ListSessions => (st, [SessionList (listSessions st)])
  | ListProcesses snapshot => (st, [ProcessList snapshot])
  | KillProcess target os => killProcess target os st
  | Tick ms => (tick ms st, [])
  end.

(** A run: the state after the events, and each event with its responses. *)
Fixpoint run (cfg : Config) (st : State) (events : list Event)
  : State * list (Event * list Response) :=
  match events with
  | [] => (st, [])
  | e :: rest =>
      let '(st1, responses) := step cfg st e in
      let '(st2, trace) := run cfg st1 rest in
      (st2, (e, responses) :: trace)
  end.

Definition after (cfg : Config) (st : State) (events : list Event) : State :=
  fst (run cfg st events).

(** The status of a session in a state, if it is registered. *)
Definition status_of (st : State) (sid : nat) : option Status :=
  status <$> sessions st !! sid.

(** The statuses a session goes through along a run, the start included. *)
Fixpoint status_history (cfg : Config) (st : State) (events : list Event) (sid : nat)
  : list (option Status) :=
  status_of st sid ::
  match events with
  | [] => []
  | e :: rest => status_history cfg (fst (step cfg st e)) rest sid
  end.

(** How often the status of the registered session changes from one entry
    to the next (registration itself, from [None], is no change of status). *)
Fixpoint transitions (history : list (option Status)) : nat :=
  match history with
  | a :: (b :: _) as rest =>
      (match a with
       | Some _ => if bool_decide (a = b) then 0 else 1
       | None => 0
       end) + transitions rest
  | _ => 0
  end.

(** Two consecutive entries of a history that respect the life cycle: no
    change, registration as [Running], or the move from [Running] to a
    terminal status. *)
Definition lifecycle_step (a b : option Status) : Prop :=
  a = b \/
  (a = None /\ b = Some Running) \/
  (a = Some Running /\ exists t, b = Some t /\ terminal t = true).

(** What one event does to one registered session, [waited_for] telling
    whether a [terminate] call is suspended on it. *)
Definition session_step (sid : nat) (at_time : nat) (waited_for : bool) (e : Event)
    (s : Session) : Session :=
  match e with
  | ProcessOutput sid' stream chunk =>
      if Nat.eqb sid' sid && negb (terminal (status s))
      then append stream chunk at_time s else s
  | ProcessExit sid' failed code =>
      if Nat.eqb sid' sid && negb (terminal (status s))
      then (if waited_for then finish Terminated None s
            else finish (if failed then Failed else Completed) (Some code) s)
      else s
  | ReadOutput _ sid' => if Nat.eqb sid' sid then acknowledge s else s
  | Terminate sid' NoSuchProcess =>
      if Nat.eqb sid' sid && negb (terminal (status s))
      then finish Terminated None s else s
  | KillProcess target KillDelivered => reconcile target s
  | _ => s
  end.

(** What the reads of session [sid] delivered on a stream along a trace, in
    the order of the calls. *)
Definition slice (stream : Stream) (r : Response) : list ascii :=
  match r with
  | OutputSlice newStdout newStderr _ _ =>
      match stream with
      | Stdout => newStdout
      | Stderr => newStderr
      end
  | _ => []
  end.

Definition delivered (sid : nat) (stream : Stream)
    (trace : list (Event * list Response)) : list ascii :=
  flat_map (fun entry =>
              match fst entry with
              | ReadOutput _ sid' =>
                  if Nat.eqb sid' sid then flat_map (slice stream) (snd entry) else []
              | _ => []
              end) trace.

(** What the process of session [sid] produced on a stream along a run, in
    the order of production. *)
Fixpoint produced (cfg : Config) (st : State) (events : list Event) (sid : nat)
    (stream : Stream) : list ascii :=
  match events with
  | [] => []
  | e :: rest =>
      (match e with
      | ProcessOutput sid' stream' chunk =>
          if Nat.eqb sid' sid && bool_decide (stream' = stream)
             && bool_decide (status_of st sid = Some Running)
          then chunk else []
      | _ => []
      end ++ produced cfg (fst (step cfg st e)) rest sid stream)%list
  end.


(** Events other than the exit notification of session [sid]: what the
    Registry can serve while a [terminate] call on it is suspended. *)
Definition before_exit (sid : nat) (e : Event) : bool :=
  match e with
  | ProcessExit sid' _ _ => negb (Nat.eqb sid' sid)
  | _ => true
  end.


(** The invariants of section 3 that the proofs rely on: registered ids
    are the keys and below the counter, cursors stay within the buffers. *)
Definition wf (st : State) : Prop :=
  forall sid s, sessions st !! sid = Some s ->
    id s = sid /\ sid < nextId st /\
    fst (outputCursor s) <= length (stdoutBuffer s) /\
    snd (outputCursor s) <= length (stderrBuffer s).

Definition sample_config : Config :=
  {| defaultShell := "/bin/sh"; blockedCommands := ["rm"; "sudo"];
     allowedDirectories := [] |}.

(** A session that outlived its timeout and has had part of its output
    read, and some further events, to run the operations on. *)
Definition sample_state : State :=
  after sample_config initial
    [ Execute "sleep 5 && echo done" 100 None (Spawned 4242);
      ProcessOutput 1 Stdout (list_ascii_of_string "do");
      Tick 100;
      TimeoutElapsed 1;
      ReadOutput 7 1;
      ProcessOutput 1 Stderr (list_ascii_of_string "warn") ].

Definition sample_session : Session :=
  {| id := 1; command := "sleep 5 && echo done"; shell := "/bin/sh";
     workingDirectory := None; pid := 4242; status := Running; exitCode := None;
     stdoutBuffer := list_ascii_of_string "do";
     stderrBuffer := list_ascii_of_string "warn";
     outputCursor := (2, 0); exitReported := false;
     startedAt := 0; lastActivityAt := 100 |}.

Definition sample_events : list Event :=
  [ ProcessOutput 1 Stdout (list_ascii_of_string "ne");
    ReadOutput 8 1;
    ListSessions;
    ProcessExit 1 false 0;
    ReadOutput 7 1;
    Terminate 1 Delivered;
    KillProcess 4242 KillDelivered;
    ProcessExit 1 true 9 ].

(** What the Registry serves while a [terminate] call on the sample
    session is suspended: output, the escalation, a read, a second call, a
    kill of another process, the exit of another session. *)
Definition sample_meanwhile : list Event :=
  [ ProcessOutput 1 Stdout (list_ascii_of_string "ne");
    GraceElapsed 1;
    ReadOutput 8 1;
    Terminate 1 Delivered;
    KillProcess 5 KillDelivered;
    ProcessExit 2 false 0 ].

(** Case split on whether an event is about the session looked at. *)
Ltac by_sid sid' sid :=
  destruct (Nat.eqb_spec sid' sid) as [->|?]; cbn [andb negb];
  [ rewrite ?lookup_insert_eq | rewrite ?lookup_insert_ne by congruence ].

End Manager.

(* ===================================================================== *)
(** * Part II: properties                                                 *)
(* ===================================================================== *)

(** ** The setup script *)

Section SetupFacts.
Import Js Setup.

Lemma lookup_assign_eq (k : string) (x : JsVal) (ps : list (string * JsVal)) :
  lookup_prop k (assign_prop k x ps) = Some x.
Proof.
  induction ps as [|[k' v] ps IH]; cbn.
  - rewrite String.eqb_refl. reflexivity.
  - destruct (String.eqb k' k) eqn:E; cbn.
    + rewrite String.eqb_refl. reflexivity.
    + rewrite E. exact IH.
Qed.

Lemma lookup_assign_ne (k k' : string) (x : JsVal) (ps : list (string * JsVal)) :
  k' <> k -> lookup_prop k' (assign_prop k x ps) = lookup_prop k' ps.
Proof.
  intros Hne. induction ps as [|[k0 v] ps IH]; cbn.
  - apply String.eqb_neq in Hne. rewrite String.eqb_sym, Hne. reflexivity.
  - destruct (String.eqb k0 k) eqn:E; cbn.
    + apply String.eqb_eq in E. subst k0.
      apply String.eqb_neq in Hne. rewrite String.eqb_sym, Hne. reflexivity.
    + destruct (String.eqb k0 k'); [reflexivity|exact IH].
Qed.

Lemma lookup_remove_eq (k : string) (ps : list (string * JsVal)) :
  lookup_prop k (remove_prop k ps) = None.
Proof.
  induction ps as [|[k' v] ps IH]; cbn; [reflexivity|].
  destruct (String.eqb k' k) eqn:E; cbn; [exact IH|]. rewrite E. exact IH.
Qed.

Lemma lookup_remove_ne (k k' : string) (ps : list (string * JsVal)) :
  k' <> k -> lookup_prop k' (remove_prop k ps) = lookup_prop k' ps.
Proof.
  intros Hne. induction ps as [|[k0 v] ps IH]; cbn; [reflexivity|].
  destruct (String.eqb k0 k) eqn:E; cbn.
  - apply String.eqb_eq in E. subst k0.
    apply String.eqb_neq in Hne. rewrite String.eqb_sym, Hne. exact IH.
  - destruct (String.eqb k0 k'); [reflexivity|exact IH].
Qed.

Lemma assign_assign (k : string) (x y : JsVal) (ps : list (string * JsVal)) :
  assign_prop k y (assign_prop k x ps) = assign_prop k y ps.
Proof.
  induction ps as [|[k' v] ps IH]; cbn.
  - rewrite String.eqb_refl. reflexivity.
  - destruct (String.eqb k' k) eqn:E; cbn.
    + rewrite String.eqb_refl. reflexivity.
    + rewrite E, IH. reflexivity.
Qed.

(** Assigning or deleting a property leaves the others in place and order. *)
Lemma others_assign (k : string) (x : JsVal) (ps : list (string * JsVal)) :
  others k (assign_prop k x ps) = others k ps.
Proof.
  unfold others. induction ps as [|[k' v] ps IH]; cbn.
  - rewrite String.eqb_refl. reflexivity.
  - destruct (String.eqb k' k) eqn:E; cbn.
    + rewrite String.eqb_refl. reflexivity.
    + rewrite E, IH. reflexivity.
Qed.

Lemma others_remove_comm (k k' : string) (ps : list (string * JsVal)) :
  others k (remove_prop k' ps) = remove_prop k' (others k ps).
Proof.
  unfold others. induction ps as [|[k0 v] ps IH]; cbn; [reflexivity|].
  destruct (String.eqb k0 k') eqn:E1, (String.eqb k0 k) eqn:E2; cbn;
    rewrite ?E1, ?E2, ?IH; reflexivity.
Qed.

Lemma remove_remove (k : string) (ps : list (string * JsVal)) :
  remove_prop k (remove_prop k ps) = remove_prop k ps.
Proof.
  induction ps as [|[k0 v] ps IH]; cbn; [reflexivity|].
  destruct (String.eqb k0 k) eqn:E; cbn; rewrite ?E, ?IH; reflexivity.
Qed.

Lemma lookup_reparse (k : string) (ps : list (string * JsVal)) :
  lookup_prop k (map (fun p => (fst p, reparse (snd p))) ps) =
  reparse <$> lookup_prop k ps.
Proof.
  induction ps as [|[k' v] ps IH]; cbn; [reflexivity|].
  destruct (String.eqb k' k); [reflexivity|exact IH].
Qed.

Lemma remove_reparse (k : string) (ps : list (string * JsVal)) :
  remove_prop k (map (fun p => (fst p, reparse (snd p))) ps) =
  map (fun p => (fst p, reparse (snd p))) (remove_prop k ps).
Proof.
  induction ps as [|[k' v] ps IH]; cbn; [reflexivity|].
  destruct (String.eqb k' k); cbn; rewrite IH; reflexivity.
Qed.

(** Induction over values, through the lists of elements and properties. *)
Lemma JsVal_induction (P : JsVal -> Prop) :
  P VNull ->
  (forall b, P (VBool b)) ->
  (forall f, P (VNum f)) ->
  (forall str, P (VStr str)) ->
  (forall elems extra,
      Forall P elems -> Forall (fun p => P (snd p)) extra -> P (VArr elems extra)) ->
  (forall props, Forall (fun p => P (snd p)) props -> P (VObj props)) ->
  forall v, P v.
Proof.
  intros Hnull Hbool Hnum Hstr Harr Hobj.
  fix IH 1. intros v. destruct v as [|b|f|str|elems extra|props].
  - exact Hnull.
  - apply Hbool.
  - apply Hnum.
  - apply Hstr.
  - apply Harr.
    + induction elems as [|e elems IHe]; constructor; [apply IH|exact IHe].
    + induction extra as [|[k x] extra IHe]; constructor; [apply IH|exact IHe].
  - apply Hobj.
    induction props as [|[k x] props IHp]; constructor; [apply IH|exact IHp].
Qed.

(** Printing and reading back a second time changes nothing more: a file
    that [JSON.stringify] wrote is read and written back as it is. *)
Lemma reparse_idempotent (v : JsVal) : reparse (reparse v) = reparse v.
Proof.
  induction v as [|b|f|str|elems extra IHe _|props IHp] using JsVal_induction;
    try reflexivity.
  - cbn [reparse].
    destruct (PrimFloat.is_nan f || PrimFloat.is_infinity f) eqn:E1; [reflexivity|].
    destruct (PrimFloat.eqb f 0) eqn:E2; [reflexivity|].
    cbn [reparse]. rewrite E1, E2. reflexivity.
  - cbn [reparse]. f_equal. rewrite map_map.
    induction IHe as [|e elems He _ IH]; [reflexivity|].
    cbn [map]. rewrite He, IH. reflexivity.
  - cbn [reparse]. f_equal. rewrite map_map.
    induction IHp as [|[k x] props Hx _ IH]; [reflexivity|].
    cbn [map fst snd] in *. rewrite Hx, IH. reflexivity.
Qed.

(** Printing and reading back changes nothing in a value without infinite
    numbers, NaN, negative zero and array properties. *)
Lemma reparse_survivor (v : JsVal) : survives_printing v = true -> reparse v = v.
Proof.
  induction v as [|b|f|str|elems extra IHe _|props IHp] using JsVal_induction;
    try reflexivity.
  - cbn [survives_printing reparse]. intros H.
    apply andb_true_iff in H. destruct H as [H Hzero].
    apply andb_true_iff in H. destruct H as [Hnan Hinf].
    apply negb_true_iff in Hnan, Hinf. rewrite Hnan, Hinf. cbn [orb].
    destruct (PrimFloat.eqb f 0) eqn:E; [|reflexivity].
    cbn [negb orb] in Hzero. apply FloatAxioms.Leibniz.eqb_spec in Hzero.
    rewrite Hzero. reflexivity.
  - cbn [survives_printing reparse]. intros H.
    apply andb_true_iff in H. destruct H as [He Hx].
    destruct extra; [|discriminate Hx]. f_equal.
    induction IHe as [|e elems Hhead _ IH]; [reflexivity|].
    cbn [forallb] in He. apply andb_true_iff in He. destruct He as [He1 He2].
    cbn [map]. rewrite (Hhead He1), (IH He2). reflexivity.
  - cbn [survives_printing reparse]. intros H. f_equal.
    induction IHp as [|[k x] props Hx _ IH]; [reflexivity|].
    cbn [forallb snd] in H. apply andb_true_iff in H. destruct H as [H1 H2].
    cbn [map fst snd] in *. rewrite (Hx H1), (IH H2). reflexivity.
Qed.

(** The computed server configuration is printed and read back as it is. *)
Lemma reparse_serverConfig (env : Env) : reparse (serverConfig env) = serverConfig env.
Proof.
  unfold serverConfig, debugEnv.
  destruct (debugMode env), (isNpx env), (isWindows env); reflexivity.
Qed.

(** What the update block computes on a configuration object, by the
    shape of its [mcpServers] property. *)
Lemma update_config_fresh (props : list (string * JsVal)) (sc : JsVal) :
  truthy_read (lookup_prop "mcpServers" props) = false ->
  update_config (VObj props) sc =
  Done (VObj (assign_prop "mcpServers" (VObj [("desktop-commander", sc)]) props)).
Proof.
  intros Hf. unfold update_config, has_old_entry, on_mcpServers, bind, get, set.
  rewrite Hf. cbn [negb]. rewrite !lookup_assign_eq. cbn.
  rewrite lookup_assign_eq, assign_assign. reflexivity.
Qed.

Lemma update_config_servers (props servers : list (string * JsVal)) (sc : JsVal) :
  lookup_prop "mcpServers" props = Some (VObj servers) ->
  update_config (VObj props) sc =
  Done (VObj (assign_prop "mcpServers"
                (VObj (assign_prop "desktop-commander" sc
                         (if truthy_read (lookup_prop "desktopCommander" servers)
                          then remove_prop "desktopCommander" servers
                          else servers)))
                props)).
Proof.
  intros Hm. unfold update_config, has_old_entry, on_mcpServers, bind, get, set, delete.
  rewrite Hm. cbn [truthy_read truthy negb]. rewrite ?Hm.
  destruct (truthy_read (lookup_prop "desktopCommander" servers));
    rewrite ?Hm, ?lookup_assign_eq, ?assign_assign; reflexivity.
Qed.

Lemma setup_existing (env : Env) (fs : Fs) (config : JsVal) :
  configFile fs = Some (JsonText config) ->
  setup env fs =
  match update_config config (serverConfig env) with
  | Done config' =>
      (true, {| configDirExists := true;
                configFile := Some (JsonText (reparse config')) |})
  | TypeError =>
      (false, {| configDirExists := true; configFile := Some (JsonText config) |})
  end.
Proof.
  intros Hf. unfold setup. cbn [configFile]. rewrite Hf.
  destruct (update_config config (serverConfig env)); reflexivity.
Qed.

Lemma update_config_array (props elems extra : list (string * JsVal))
    (es : list JsVal) (sc : JsVal) :
  lookup_prop "mcpServers" props = Some (VArr es extra) ->
  exists extra',
    update_config (VObj props) sc =
    Done (VObj (assign_prop "mcpServers" (VArr es extra') props)).
Proof.
  intros Hm. unfold update_config, has_old_entry, on_mcpServers, bind, get, set, delete.
  rewrite Hm. cbn [truthy_read truthy negb]. rewrite ?Hm.
  destruct (truthy_read (lookup_prop "desktopCommander" extra));
    rewrite ?Hm, ?lookup_assign_eq, ?assign_assign; eexists; reflexivity.
Qed.

Lemma update_config_primitive (props : list (string * JsVal)) (v sc : JsVal) :
  lookup_prop "mcpServers" props = Some v ->
  truthy v = true ->
  (forall es extra, v <> VArr es extra) -> (forall servers, v <> VObj servers) ->
  update_config (VObj props) sc = TypeError.
Proof.
  intros Hm Ht Harr Hobj.
  unfold update_config, has_old_entry, on_mcpServers, bind, get, set, delete.
  rewrite Hm. cbn [truthy_read]. rewrite Ht. cbn [negb]. rewrite ?Hm.
  destruct v as [|b|f|str|es extra|servers];
    cbn [truthy_read]; cbn beta iota; rewrite ?Hm; try reflexivity.
  - exfalso. eapply Harr. reflexivity.
  - exfalso. eapply Hobj. reflexivity.
Qed.

(** The frame of [setup] on any configuration object, whatever its
    [mcpServers] holds: either nothing is written (the update threw), or
    every other top-level field and every other entry of an [mcpServers]
    object is the old one, as [JSON.stringify] prints it. *)
Lemma setup_frame_any_object (env : Env) (fs : Fs) (props : list (string * JsVal)) :
  configFile fs = Some (JsonText (VObj props)) ->
  setup env fs =
    (false, {| configDirExists := true; configFile := Some (JsonText (VObj props)) |}) \/
  exists written,
    setup env fs =
      (true, {| configDirExists := true; configFile := Some (JsonText written) |}) /\
    (forall k, k <> "mcpServers" -> field written k = reparse <$> lookup_prop k props) /\
    (forall k, k <> "desktopCommander" -> k <> "desktop-commander" ->
               server_entry written k = reparse <$> server_entry (VObj props) k).
Proof.
  intros Hf. rewrite (setup_existing env fs _ Hf).
  assert (Hfields : forall servers' k, k <> "mcpServers" ->
            field (reparse (VObj (assign_prop "mcpServers" servers' props))) k =
            reparse <$> lookup_prop k props).
  { intros servers' k Hk. cbn [reparse field].
    rewrite lookup_reparse, lookup_assign_ne by exact Hk. reflexivity. }
  assert (Hentries : forall servers' k,
            server_entry (reparse (VObj (assign_prop "mcpServers" servers' props))) k =
            match reparse servers' with
            | VObj entries => lookup_prop k entries
            | _ => None
            end).
  { intros servers' k. unfold server_entry. cbn [reparse field].
    rewrite lookup_reparse, lookup_assign_eq. cbn [fmap option_fmap option_map].
    unfold field. reflexivity. }
  assert (Hfresh : truthy_read (lookup_prop "mcpServers" props) = false ->
            (forall k, server_entry (VObj props) k = None) ->
            exists written,
              match update_config (VObj props) (serverConfig env) with
              | Done config' =>
                  (true, {| configDirExists := true;
                            configFile := Some (JsonText (reparse config')) |})
              | TypeError =>
                  (false, {| configDirExists := true;
                             configFile := Some (JsonText (VObj props)) |})
              end =
              (true, {| configDirExists := true; configFile := Some (JsonText written) |}) /\
              (forall k, k <> "mcpServers" ->
                         field written k = reparse <$> lookup_prop k props) /\
              (forall k, k <> "desktopCommander" -> k <> "desktop-commander" ->
                         server_entry written k = reparse <$> server_entry (VObj props) k)).
  { intros Hfalse Hnone. rewrite update_config_fresh by exact Hfalse.
    eexists. split; [reflexivity|]. split; [intros k Hk; apply Hfields; exact Hk|].
    intros k H1 H2. rewrite Hentries, Hnone. cbn [reparse map fst snd].
    change [("desktop-commander", reparse (serverConfig env))]
      with (assign_prop "desktop-commander" (reparse (serverConfig env)) []).
    rewrite lookup_assign_ne by exact H2. reflexivity. }
  destruct (lookup_prop "mcpServers" props) as [v|] eqn:Hm.
  - assert (Hnone : (forall servers, v <> VObj servers) ->
                    forall k, server_entry (VObj props) k = None).
    { intros Hno k. unfold server_entry. cbn [field]. rewrite Hm.
      destruct v; try reflexivity. exfalso. eapply Hno. reflexivity. }
    destruct (truthy v) eqn:Ht.
    + destruct v as [|b|f|str|es extra|servers].
      * discriminate Ht.
      * left. rewrite (update_config_primitive props (VBool b)); try assumption;
          try reflexivity; intros; discriminate.
      * left. rewrite (update_config_primitive props (VNum f)); try assumption;
          try reflexivity; intros; discriminate.
      * left. rewrite (update_config_primitive props (VStr str)); try assumption;
          try reflexivity; intros; discriminate.
      * right. destruct (update_config_array props extra extra es (serverConfig env) Hm)
          as (extra' & ->).
        eexists. split; [reflexivity|]. split; [intros k Hk; apply Hfields; exact Hk|].
        intros k _ _. rewrite Hentries, Hnone by (intros; discriminate). reflexivity.
      * right. rewrite (update_config_servers props servers _ Hm).
        eexists. split; [reflexivity|]. split; [intros k Hk; apply Hfields; exact Hk|].
        intros k H1 H2. rewrite Hentries. cbn [reparse].
        rewrite lookup_reparse, lookup_assign_ne by exact H2.
        unfold server_entry. cbn [field]. rewrite Hm. cbn [field].
        destruct (truthy_read (lookup_prop "desktopCommander" servers));
          [rewrite lookup_remove_ne by exact H1|]; reflexivity.
    + right. apply Hfresh; [exact Ht|].
      apply Hnone. intros servers ->. discriminate Ht.
  - right. apply Hfresh; [reflexivity|].
    intros k. unfold server_entry. cbn [field]. rewrite Hm. reflexivity.
Qed.

(** [setup] keeps the order of what it does not touch: the other top-level
    fields, and the other entries of an [mcpServers] object. *)
Lemma setup_keeps_order (env : Env) (fs : Fs) (props servers : list (string * JsVal)) :
  configFile fs = Some (JsonText (VObj props)) ->
  lookup_prop "mcpServers" props = Some (VObj servers) ->
  exists wprops wservers,
    snd (setup env fs) =
      {| configDirExists := true; configFile := Some (JsonText (VObj wprops)) |} /\
    others "mcpServers" wprops =
      map (fun p => (fst p, reparse (snd p))) (others "mcpServers" props) /\
    lookup_prop "mcpServers" wprops = Some (VObj wservers) /\
    others "desktopCommander" (others "desktop-commander" wservers) =
      map (fun p => (fst p, reparse (snd p)))
          (others "desktopCommander" (others "desktop-commander" servers)).
Proof.
  intros Hf Hm. rewrite (setup_existing env fs _ Hf), (update_config_servers _ _ _ Hm).
  cbn [snd reparse]. eexists _, _. split; [reflexivity|].
  split; [|split].
  - unfold others. rewrite remove_reparse. f_equal. apply others_assign.
  - rewrite lookup_reparse, lookup_assign_eq. reflexivity.
  - pose proof (others_assign "desktop-commander" (serverConfig env)) as Hassign.
    pose proof (others_remove_comm "desktop-commander" "desktopCommander" servers) as Hcomm.
    unfold others in *. rewrite !remove_reparse, Hassign. f_equal.
    destruct (truthy_read (lookup_prop "desktopCommander" servers)); [|reflexivity].
    rewrite Hcomm. apply remove_remove.
Qed.

(** C10 (as amended). For every configuration file that holds an object
    whose [mcpServers] is missing, falsy or an object, [setup] succeeds and
    writes a configuration in which every top-level field other than
    [mcpServers] and every [mcpServers] entry other than "desktopCommander"
    and "desktop-commander" is the one of the old file, as [JSON.stringify]
    prints it: the same value, unless it holds an infinite number, which is
    printed as null, or negative zero, which is printed as 0.
    "desktopCommander" is gone when it held a truthy value and
    kept when it held a falsy one; "desktop-commander" is the computed
    server configuration. *)
Theorem C10_setup_rewrites_its_entries_and_reprints (env : Env) (fs : Fs) (config : JsVal) :
  configFile fs = Some (JsonText config) ->
  object_config config = true ->
  exists written,
    setup env fs =
      (true, {| configDirExists := true; configFile := Some (JsonText written) |}) /\
    (forall k, k <> "mcpServers" -> field written k = reparse <$> field config k) /\
    (forall k v, k <> "mcpServers" -> field config k = Some v ->
                 survives_printing v = true -> field written k = Some v) /\
    (forall k, k <> "desktopCommander" -> k <> "desktop-commander" ->
               server_entry written k = reparse <$> server_entry config k) /\
    (forall k v, k <> "desktopCommander" -> k <> "desktop-commander" ->
                 server_entry config k = Some v -> survives_printing v = true ->
                 server_entry written k = Some v) /\
    server_entry written "desktopCommander" =
      (if truthy_read (server_entry config "desktopCommander") then None
       else reparse <$> server_entry config "desktopCommander") /\
    server_entry written "desktop-commander" = Some (serverConfig env).
Proof.
  intros Hf Hcfg. rewrite (setup_existing env fs config Hf).
  destruct config as [| | | | |props]; try discriminate Hcfg.
  cbn [object_config] in Hcfg.
  assert (Hfields : forall servers' k, k <> "mcpServers" ->
            field (reparse (VObj (assign_prop "mcpServers" servers' props))) k =
            reparse <$> field (VObj props) k).
  { intros servers' k Hk. cbn [reparse field].
    rewrite lookup_reparse, lookup_assign_ne by exact Hk. reflexivity. }
  assert (Hentries : forall servers' k,
            server_entry (reparse (VObj (assign_prop "mcpServers" (VObj servers') props))) k =
            reparse <$> lookup_prop k servers').
  { intros servers' k. unfold server_entry. cbn [reparse field].
    rewrite lookup_reparse, lookup_assign_eq. cbn [fmap option_fmap option_map reparse field].
    apply lookup_reparse. }
  assert (Hfresh : truthy_read (lookup_prop "mcpServers" props) = false ->
            (forall k, server_entry (VObj props) k = None) ->
            exists written,
              match update_config (VObj props) (serverConfig env) with
              | Done config' =>
                  (true, {| configDirExists := true;
                            configFile := Some (JsonText (reparse config')) |})
              | TypeError =>
                  (false, {| configDirExists := true;
                             configFile := Some (JsonText (VObj props)) |})
              end =
              (true, {| configDirExists := true; configFile := Some (JsonText written) |}) /\
              (forall k, k <> "mcpServers" ->
                         field written k = reparse <$> field (VObj props) k) /\
              (forall k v, k <> "mcpServers" -> field (VObj props) k = Some v ->
                           survives_printing v = true -> field written k = Some v) /\
              (forall k, k <> "desktopCommander" -> k <> "desktop-commander" ->
                         server_entry written k = reparse <$> server_entry (VObj props) k) /\
              (forall k v, k <> "desktopCommander" -> k <> "desktop-commander" ->
                           server_entry (VObj props) k = Some v ->
                           survives_printing v = true ->
                           server_entry written k = Some v) /\
              server_entry written "desktopCommander" =
                (if truthy_read (server_entry (VObj props) "desktopCommander") then None
                 else reparse <$> server_entry (VObj props) "desktopCommander") /\
              server_entry written "desktop-commander" = Some (serverConfig env)).
  { intros Hfalse Hcs. rewrite update_config_fresh by exact Hfalse.
    eexists. split; [reflexivity|].
    split; [intros k Hk; apply Hfields; exact Hk|].
    split; [intros k v Hk Hv Hr; rewrite Hfields, Hv by exact Hk; cbn; rewrite (reparse_survivor v Hr); reflexivity|].
    split.
    { intros k H1 H2. rewrite Hentries, Hcs.
      change [("desktop-commander", serverConfig env)]
        with (assign_prop "desktop-commander" (serverConfig env) []).
      rewrite lookup_assign_ne by exact H2. reflexivity. }
    split; [intros k v _ _ Hv; rewrite Hcs in Hv; discriminate Hv|].
    split; [rewrite Hentries, Hcs; reflexivity|].
    rewrite Hentries. cbn. rewrite reparse_serverConfig. reflexivity. }
  destruct (lookup_prop "mcpServers" props) as [v|] eqn:Hm.
  - assert (Hnone : (forall servers, v <> VObj servers) ->
                    forall k, server_entry (VObj props) k = None).
    { intros Hno k. unfold server_entry. cbn [field]. rewrite Hm.
      destruct v; try reflexivity. exfalso. eapply Hno. reflexivity. }
    destruct v as [|b|f|str|es extra|servers];
      try (apply negb_true_iff in Hcfg;
           apply Hfresh; [exact Hcfg | apply Hnone; intros; discriminate]).
    clear Hfresh Hnone. rewrite (update_config_servers props servers _ Hm).
    set (servers' := assign_prop "desktop-commander" (serverConfig env)
                       (if truthy_read (lookup_prop "desktopCommander" servers)
                        then remove_prop "desktopCommander" servers else servers)).
    assert (Hother : forall k, k <> "desktopCommander" -> k <> "desktop-commander" ->
              lookup_prop k servers' = lookup_prop k servers).
    { intros k H1 H2. unfold servers'. rewrite lookup_assign_ne by exact H2.
      destruct (truthy_read (lookup_prop "desktopCommander" servers));
        [apply lookup_remove_ne; exact H1|reflexivity]. }
    assert (Hcs : forall k, server_entry (VObj props) k = lookup_prop k servers).
    { intros k. unfold server_entry. cbn [field]. rewrite Hm. reflexivity. }
    eexists. split; [reflexivity|].
    split; [intros k Hk; apply Hfields; exact Hk|].
    split; [intros k v Hk Hv Hr; rewrite Hfields, Hv by exact Hk; cbn; rewrite (reparse_survivor v Hr); reflexivity|].
    split; [intros k H1 H2; rewrite Hentries, Hcs, Hother by assumption; reflexivity|].
    split; [intros k v H1 H2 Hv Hr; rewrite Hentries, Hother by assumption;
            rewrite Hcs in Hv; rewrite Hv; cbn; rewrite (reparse_survivor v Hr); reflexivity|].
    split.
    + rewrite Hentries, Hcs. unfold servers'.
      rewrite lookup_assign_ne by discriminate.
      destruct (truthy_read (lookup_prop "desktopCommander" servers)).
      * rewrite lookup_remove_eq. reflexivity.
      * reflexivity.
    + rewrite Hentries. unfold servers'. rewrite lookup_assign_eq. cbn.
      rewrite reparse_serverConfig. reflexivity.
  - apply Hfresh; [reflexivity|].
    intros k. unfold server_entry. cbn [field]. rewrite Hm. reflexivity.
Qed.

End SetupFacts.

(** A configuration with a theme, a scale, the old "desktopCommander" entry
    and a second server. *)
Lemma C10_setup_witness :
  Setup.object_config Setup.sample_config = true /\
  exists written,
    Setup.setup Setup.sample_env (Setup.with_file Setup.sample_config) =
      (true, Setup.with_file written) /\
    Setup.field written "theme" = Some (Js.VStr "dark") /\
    Setup.server_entry written "filesystem" =
      Some (Js.VObj [("command", Js.VStr "fs-server")]) /\
    Setup.server_entry written "desktopCommander" = None /\
    Setup.server_entry written "desktop-commander" =
      Some (Setup.serverConfig Setup.sample_env).
Proof.
  destruct (C10_setup_rewrites_its_entries_and_reprints Setup.sample_env
              (Setup.with_file Setup.sample_config) Setup.sample_config eq_refl eq_refl)
    as (written & Hsetup & Hfield & _ & Hentry & _ & Hold & Hnew).
  split; [reflexivity|].
  exists written. split; [exact Hsetup|].
  split; [rewrite Hfield by discriminate; reflexivity|].
  split; [rewrite Hentry by discriminate; reflexivity|].
  split; [exact Hold | exact Hnew].
Defined.

(** C10 as stated fails on three files that [setup] rewrites. In
    [{"retries": 1e400}] the field "retries", which [setup] has no business
    with, is read as [Infinity] and written back as [null]. In
    [{"mcpServers": {"desktopCommander": null}}] the old entry is present
    and is not deleted, because the script tests its truth value. In
    [{"mcpServers": ["filesystem"]}] the new entry is assigned to the array
    and [JSON.stringify] leaves it out, so the file written has no
    "desktop-commander" entry. *)
Lemma C10_setup_counterexample :
  (exists written,
     Setup.setup Setup.sample_env (Setup.with_file Setup.overflow_config) =
       (true, Setup.with_file written) /\
     Setup.field Setup.overflow_config "retries" = Some (Js.VNum infinity) /\
     Setup.field written "retries" = Some Js.VNull /\
     Setup.field written "retries" <> Setup.field Setup.overflow_config "retries") /\
  (exists written,
     Setup.setup Setup.sample_env (Setup.with_file Setup.null_entry_config) =
       (true, Setup.with_file written) /\
     Setup.server_entry Setup.null_entry_config "desktopCommander" = Some Js.VNull /\
     Setup.server_entry written "desktopCommander" = Some Js.VNull) /\
  (exists written,
     Setup.setup Setup.sample_env (Setup.with_file SetupOutcome.array_config) =
       (true, Setup.with_file written) /\
     Setup.field written "mcpServers" = Some (Js.VArr [ Js.VStr "filesystem" ] []) /\
     Setup.server_entry written "desktop-commander" = None).
Proof.
  split; [|split]; eexists; (split; [reflexivity|]).
  - split; [reflexivity|]. split; [reflexivity|]. discriminate.
  - split; reflexivity.
  - split; reflexivity.
Qed.

(** What the second of these files becomes. *)
Example setup_keeps_null_entry :
  Setup.setup Setup.sample_env (Setup.with_file Setup.null_entry_config) =
  (true,
   Setup.with_file
     (Js.VObj [ ("mcpServers",
                 Js.VObj [ ("desktopCommander", Js.VNull);
                           ("desktop-commander",
                            Setup.serverConfig Setup.sample_env) ]) ])).
Proof. reflexivity. Qed.

Section ServerFacts.
Import Server.
Context {W Args : Type}.
Variable handlers : Handlers W Args.

(** The [switch] calls exactly the function [routed] names; a returned
    result passes through, a thrown value is answered by the [catch] in
    charge, and the [default] branch answers without calling anything. *)
Lemma CallToolHandler_routed (request : CallToolRequest Args) (w : W) :
  CallToolHandler handlers request w =
  match routed handlers (name request) with
  | Some f =>
      match f (arguments request) w with
      | (Returned r, w') => (Returned r, w')
      | (Threw e, w') => (answer_to_failure (name request) e, w')
      end
  | None => (Returned (error_result ("Error: Unknown tool: " ++ name request)), w)
  end.
Proof.
  destruct request as [n a].
  unfold CallToolHandler, routed, answer_to_failure, try_catch, ret, throw.
  cbn [name arguments].
  repeat match goal with
  | |- context [String.eqb n ?lit] =>
      let E := fresh "E" in
      destruct (String.eqb n lit) eqn:E;
      [ apply String.eqb_eq in E; subst n; cbn;
        match goal with
        | |- context [match ?f w with _ => _ end] => destruct (f w) as [[?|e] ?]
        end; try reflexivity; destruct (errorMessage e); reflexivity
      | ]
  end.
  reflexivity.
Qed.

(** The [case] labels are exactly the names [routed] knows. *)
Lemma routed_None_iff (n : string) :
  routed handlers n = None <-> ~ In n dispatched_tool_names.
Proof.
  unfold routed, dispatched_tool_names. split.
  - intros H Hin. cbn [In] in Hin.
    repeat (destruct Hin as [<- | Hin]; [cbn in H; discriminate H | ]).
    exact Hin.
  - intros Hnot.
    repeat match goal with
    | |- context [String.eqb n ?lit] =>
        let E := fresh "E" in
        destruct (String.eqb n lit) eqn:E;
        [ exfalso; apply String.eqb_eq in E; subst n; apply Hnot; cbn; tauto | ]
    end.
    reflexivity.
Qed.

Lemma dispatched_tool_names_NoDup : List.NoDup dispatched_tool_names.
Proof.
  unfold dispatched_tool_names.
  repeat (constructor; [cbn [In]; intros Hin;
                        repeat (destruct Hin as [Hin | Hin]; [discriminate Hin | ]);
                        exact Hin | ]).
  constructor.
Qed.

(** How a call ends when the function called for its name throws. *)
Lemma CallToolHandler_on_failure (request : CallToolRequest Args) (w : W)
    (f : Args -> Async W ServerResult) (e : Thrown) (w1 : W) :
  routed handlers (name request) = Some f ->
  f (arguments request) w = (Threw e, w1) ->
  CallToolHandler handlers request w = (answer_to_failure (name request) e, w1).
Proof.
  intros Hr Hf. rewrite CallToolHandler_routed, Hr, Hf. reflexivity.
Qed.

(** C7 (as amended). A failure of get_config or of set_config_value is
    caught, whatever was thrown, and answered with a fixed message. A
    failure of any other function is caught by the outer [catch]: when the
    thrown value converts to text, the call returns a result with [isError]
    true and the one text item "Error: " followed by that text; when the
    conversion throws, what it throws leaves the handler. A call ends in a
    thrown value in that case only. *)
Theorem C7_call_tool_catches_what_converts (request : CallToolRequest Args) (w : W) :
  (forall e w1,
      name request = "get_config" ->
      getConfig handlers w = (Threw e, w1) ->
      CallToolHandler handlers request w =
      (Returned {| content := [ {| type := "text";
                                   text := "Error: Failed to get configuration" |} ];
                   isError := Some true |}, w1)) /\
  (forall e w1,
      name request = "set_config_value" ->
      setConfigValue handlers (arguments request) w = (Threw e, w1) ->
      CallToolHandler handlers request w =
      (Returned {| content := [ {| type := "text";
                                   text := "Error: Failed to set configuration value" |} ];
                   isError := Some true |}, w1)) /\
  (forall f e w1 message,
      routed handlers (name request) = Some f ->
      name request <> "get_config" -> name request <> "set_config_value" ->
      f (arguments request) w = (Threw e, w1) ->
      errorMessage e = Returned message ->
      CallToolHandler handlers request w =
      (Returned {| content := [ {| type := "text"; text := "Error: " ++ message |} ];
                   isError := Some true |}, w1)) /\
  (forall f e w1 raised,
      routed handlers (name request) = Some f ->
      name request <> "get_config" -> name request <> "set_config_value" ->
      f (arguments request) w = (Threw e, w1) ->
      errorMessage e = Threw raised ->
      CallToolHandler handlers request w = (Threw raised, w1)) /\
  (forall raised w',
      CallToolHandler handlers request w = (Threw raised, w') ->
      exists f e,
        routed handlers (name request) = Some f /\
        name request <> "get_config" /\ name request <> "set_config_value" /\
        f (arguments request) w = (Threw e, w') /\
        errorMessage e = Threw raised).
Proof.
  assert (Hget : name request = "get_config" ->
                 routed handlers (name request) = Some (fun _ => getConfig handlers)).
  { intros ->. reflexivity. }
  assert (Hset : name request = "set_config_value" ->
                 routed handlers (name request) = Some (setConfigValue handlers)).
  { intros ->. reflexivity. }
  assert (Hother : forall e, name request <> "get_config" ->
                     name request <> "set_config_value" ->
                     answer_to_failure (name request) e =
                     match errorMessage e with
                     | Returned message => Returned (error_result ("Error: " ++ message))
                     | Threw raised => Threw raised
                     end).
  { intros e H1 H2. unfold answer_to_failure.
    apply String.eqb_neq in H1, H2. rewrite H1, H2. reflexivity. }
  split; [|split; [|split; [|split]]].
  - intros e w1 Hn Hf.
    rewrite (CallToolHandler_on_failure request w _ e w1 (Hget Hn) Hf).
    unfold answer_to_failure. rewrite Hn. reflexivity.
  - intros e w1 Hn Hf.
    rewrite (CallToolHandler_on_failure request w _ e w1 (Hset Hn) Hf).
    unfold answer_to_failure. rewrite Hn. reflexivity.
  - intros f e w1 message Hr H1 H2 Hf Hm.
    rewrite (CallToolHandler_on_failure request w f e w1 Hr Hf), Hother, Hm by assumption.
    reflexivity.
  - intros f e w1 raised Hr H1 H2 Hf Hm.
    rewrite (CallToolHandler_on_failure request w f e w1 Hr Hf), Hother, Hm by assumption.
    reflexivity.
  - intros raised w' Hthrew. rewrite CallToolHandler_routed in Hthrew.
    destruct (routed handlers (name request)) as [f|] eqn:Hr; [|discriminate Hthrew].
    destruct (f (arguments request) w) as [[r|e] w1] eqn:Hf; [discriminate Hthrew|].
    exists f, e. split; [reflexivity|].
    unfold answer_to_failure in Hthrew.
    destruct (String.eqb (name request) "get_config") eqn:E1; [discriminate Hthrew|].
    destruct (String.eqb (name request) "set_config_value") eqn:E2; [discriminate Hthrew|].
    apply String.eqb_neq in E1, E2.
    destruct (errorMessage e) as [message|raised'] eqn:Hm; [discriminate Hthrew|].
    injection Hthrew as -> ->. auto.
Qed.

(** C9 (as amended). The [switch] has eighteen distinct [case] labels; a
    request whose name is none of them gets the result with the single text
    item "Error: Unknown tool: " followed by the name and [isError] true,
    no handler is called and the state is left as it was. *)
Theorem C9_unknown_tool_of_eighteen (request : CallToolRequest Args) (w : W) :
  ~ In (name request) dispatched_tool_names ->
  length dispatched_tool_names = 18 /\
  List.NoDup dispatched_tool_names /\
  CallToolHandler handlers request w =
    (Returned {| content := [ {| type := "text";
                                 text := "Error: Unknown tool: " ++ name request |} ];
                 isError := Some true |}, w).
Proof.
  intros Hnot. split; [reflexivity|]. split; [apply dispatched_tool_names_NoDup|].
  rewrite CallToolHandler_routed.
  apply routed_None_iff in Hnot. rewrite Hnot. reflexivity.
Qed.

End ServerFacts.

(** A handler that throws an [Error], and the two configuration cases. *)
Example call_tool_handler_throws :
  Server.CallToolHandler
    (Server.failing_handlers (Server.ErrorInstance (Server.Text "ENOENT")))
    {| Server.name := "read_file"; Server.arguments := tt |} tt =
  (Server.Returned (Server.error_result "Error: ENOENT"), tt).
Proof. reflexivity. Qed.

Example call_tool_get_config_throws :
  Server.CallToolHandler (Server.failing_handlers Server.null_prototype_object)
    {| Server.name := "get_config"; Server.arguments := tt |} tt =
  (Server.Returned (Server.error_result "Error: Failed to get configuration"), tt).
Proof. reflexivity. Qed.

Example call_tool_set_config_value_throws :
  Server.CallToolHandler
    (Server.failing_handlers (Server.ErrorInstance (Server.Text "EACCES")))
    {| Server.name := "set_config_value"; Server.arguments := tt |} tt =
  (Server.Returned (Server.error_result "Error: Failed to set configuration value"), tt).
Proof. reflexivity. Qed.

(** C7 as stated lets no tool call end in an exception. A function that
    throws [Object.create(null)] does: [String(error)] in the outer [catch]
    throws a [TypeError], nothing catches it, and the call ends in that
    error instead of a result. *)
Lemma C7_unconvertible_error_counterexample :
  Server.CallToolHandler (Server.failing_handlers Server.null_prototype_object)
    {| Server.name := "read_file"; Server.arguments := tt |} tt =
  (Server.Threw Server.cannot_convert, tt) /\
  ~ exists (r : Server.ServerResult) (w' : unit),
      Server.CallToolHandler (Server.failing_handlers Server.null_prototype_object)
        {| Server.name := "read_file"; Server.arguments := tt |} tt =
      (Server.Returned r, w').
Proof.
  split; [reflexivity|]. intros (r & w' & H). discriminate H.
Qed.

(** A request for a tool that does not exist, against handlers that would
    answer anything. *)
Lemma C9_unknown_tool_witness :
  ~ In "frobnicate" Server.dispatched_tool_names /\
  Server.CallToolHandler Server.probe_handlers
    {| Server.name := "frobnicate"; Server.arguments := tt |} tt =
  (Server.Returned (Server.error_result "Error: Unknown tool: frobnicate"), tt).
Proof.
  assert (H : ~ In "frobnicate" Server.dispatched_tool_names).
  { cbn. intros Hin. repeat (destruct Hin as [Hin|Hin]; [discriminate Hin|]). exact Hin. }
  split; [exact H|].
  exact (proj2 (proj2 (C9_unknown_tool_of_eighteen Server.probe_handlers
           {| Server.name := "frobnicate"; Server.arguments := tt |} tt H))).
Defined.

(** C9 as stated speaks of seventeen dispatched names. No list of seventeen
    names will do: whichever seventeen are chosen, some request with a name
    outside them is dispatched to a handler (here one that answers "ok")
    instead of getting the unknown-tool answer. *)
Lemma C9_seventeen_names_counterexample :
  ~ exists names : list string,
      length names = 17 /\
      forall (request : Server.CallToolRequest unit),
        ~ In (Server.name request) names ->
        Server.CallToolHandler Server.probe_handlers request tt =
        (Server.Returned
           (Server.error_result ("Error: Unknown tool: " ++ Server.name request)), tt).
Proof.
  intros (names & Hlen & Hall).
  destruct (forallb (fun n => existsb (String.eqb n) names) Server.dispatched_tool_names)
    eqn:Hcover.
  - assert (Hincl : incl Server.dispatched_tool_names names).
    { intros n Hn. rewrite forallb_forall in Hcover. specialize (Hcover n Hn).
      apply existsb_exists in Hcover. destruct Hcover as (m & Hm & E).
      apply String.eqb_eq in E. subst m. exact Hm. }
    pose proof (List.NoDup_incl_length dispatched_tool_names_NoDup Hincl) as Hle.
    rewrite Hlen in Hle. cbn in Hle. lia.
  - assert (Hex : exists n, In n Server.dispatched_tool_names /\ ~ In n names).
    { clear Hall Hlen. induction Server.dispatched_tool_names as [|d ds IH].
      - discriminate Hcover.
      - cbn [forallb] in Hcover. apply andb_false_iff in Hcover.
        destruct Hcover as [Hd|Hds].
        + exists d. split; [left; reflexivity|]. intros Hin.
          assert (existsb (String.eqb d) names = true) as Ht.
          { apply existsb_exists. exists d. split; [exact Hin|apply String.eqb_refl]. }
          congruence.
        + destruct (IH Hds) as (n & Hn & Hnn). exists n. split; [right; exact Hn|exact Hnn]. }
    destruct Hex as (n & Hn & Hnn).
    specialize (Hall {| Server.name := n; Server.arguments := tt |} Hnn).
    cbn [Server.name] in Hall. cbn [In Server.dispatched_tool_names] in Hn.
    repeat (destruct Hn as [<- | Hn]; [vm_compute in Hall; discriminate Hall | ]).
    exact Hn.
Qed.

(** ** The tool list *)

Section ListToolsFacts.
Import Server Listing.
Context {S : Type}.
Variable zodToJsonSchema : ArgsSchema -> Completion S.

Lemma listed_outcome (entries : list Tool) :
  match listed zodToJsonSchema entries with
  | Returned answer =>
      map listed_name answer = map tool_name entries /\
      Forall2 (fun entry item =>
                 zodToJsonSchema (inputSchema entry) = Returned (listed_schema item))
              entries answer
  | Threw error =>
      exists before entry after,
        entries = (before ++ entry :: after)%list /\
        Forall (fun e => exists s, zodToJsonSchema (inputSchema e) = Returned s) before /\
        zodToJsonSchema (inputSchema entry) = Threw error
  end.
Proof.
  induction entries as [|entry rest IH]; cbn [listed].
  - split; [reflexivity | constructor].
  - destruct (zodToJsonSchema (inputSchema entry)) as [schema|error] eqn:E.
    + destruct (listed zodToJsonSchema rest) as [others|error].
      * destruct IH as [Hn Hs]. split.
        -- cbn. rewrite Hn. reflexivity.
        -- constructor; [exact E | exact Hs].
      * destruct IH as (before & bad & after & -> & Hb & Hbad).
        exists (entry :: before), bad, after. split; [reflexivity|]. split; [|exact Hbad].
        constructor; [eauto | exact Hb].
    + exists [], entry, rest. split; [reflexivity|]. split; [constructor | exact E].
Qed.

(** When every schema of the catalogue converts, [tools/list] answers, with
    the names of the catalogue in its order. *)
Lemma ListToolsHandler_answers (w : list ErrorLine) :
  Forall (fun entry => exists schema, zodToJsonSchema (inputSchema entry) = Returned schema)
         tools ->
  exists answer,
    ListToolsHandler zodToJsonSchema w =
      (Returned answer,
       (w ++ [ {| label := "Generating tools list..."; logged_value := None |} ])%list) /\
    map listed_name answer = map tool_name tools.
Proof.
  intros Hall. pose proof (listed_outcome tools) as H.
  unfold ListToolsHandler, try_catch, console_error.
  destruct (listed zodToJsonSchema tools) as [answer|error].
  - exists answer. split; [reflexivity | apply H].
  - exfalso. destruct H as (before & entry & after & Ht & _ & Hbad).
    rewrite Forall_forall in Hall.
    destruct (Hall entry) as [schema Hs].
    + rewrite Ht. apply list_elem_of_In, in_or_app. right. left. reflexivity.
    + rewrite Hs in Hbad. discriminate Hbad.
Qed.

(** [tools/list] throws only what the conversion of one of the schemas
    throws. *)
Lemma ListToolsHandler_throws (w w' : list ErrorLine) (error : Thrown) :
  ListToolsHandler zodToJsonSchema w = (Threw error, w') ->
  exists entry, In entry tools /\ zodToJsonSchema (inputSchema entry) = Threw error.
Proof.
  intros H. pose proof (listed_outcome tools) as Hl.
  unfold ListToolsHandler, try_catch, console_error in H.
  destruct (listed zodToJsonSchema tools) as [answer|error0]; [discriminate H|].
  injection H as <- _.
  destruct Hl as (before & entry & after & Ht & _ & Hbad).
  exists entry. split; [|exact Hbad].
  rewrite Ht. apply in_or_app. right. left. reflexivity.
Qed.

(** X2. [tools/list] either answers with the eighteen tools in the order of the
    source, each with its converted schema, or, unlike [tools/call], throws:
    the error of the first schema that does not convert is logged and
    thrown again. *)
Theorem X2_ListTools_answers_or_rethrows (w : list ErrorLine) :
  (exists answer,
     ListToolsHandler zodToJsonSchema w =
       (Returned answer,
        (w ++ [ {| label := "Generating tools list..."; logged_value := None |} ])%list) /\
     map listed_name answer = map tool_name tools /\
     Forall2 (fun entry item =>
                zodToJsonSchema (inputSchema entry) = Returned (listed_schema item))
             tools answer) \/
  (exists error before entry after,
     ListToolsHandler zodToJsonSchema w =
       (Threw error,
        (w ++ [ {| label := "Generating tools list..."; logged_value := None |};
                {| label := "Error in list_tools request handler:";
                   logged_value := Some error |} ])%list) /\
     tools = (before ++ entry :: after)%list /\
     Forall (fun e => exists s, zodToJsonSchema (inputSchema e) = Returned s) before /\
     zodToJsonSchema (inputSchema entry) = Threw error).
Proof.
  pose proof (listed_outcome tools) as H.
  unfold ListToolsHandler, try_catch, console_error.
  destruct (listed zodToJsonSchema tools) as [answer|error].
  - left. exists answer. split; [reflexivity | exact H].
  - right. destruct H as (before & entry & after & Ht & Hb & Hbad).
    exists error, before, entry, after. split; [|auto].
    rewrite <- app_assoc. reflexivity.
Qed.

End ListToolsFacts.

(** ** The tool list and the dispatcher *)

Section ListingFacts.
Import Server Listing.
Context {W Args S : Type}.
Variable handlers : Handlers W Args.
Variable zodToJsonSchema : ArgsSchema -> Completion S.

Lemma incl_by_computation (l1 l2 : list string) :
  forallb (fun x => existsb (String.eqb x) l2) l1 = true -> List.incl l1 l2.
Proof.
  intros H x Hx. rewrite forallb_forall in H. specialize (H x Hx).
  apply existsb_exists in H. destruct H as (y & Hy & E).
  apply String.eqb_eq in E. subst y. exact Hy.
Qed.

Lemma listed_iff_dispatched (n : string) :
  In n (map tool_name tools) <-> In n dispatched_tool_names.
Proof.
  split; revert n; apply incl_by_computation; vm_compute; reflexivity.
Qed.

Lemma tool_names_NoDup : List.NoDup (map tool_name tools).
Proof.
  assert (H : forall l : list string,
             (fix nodup (l : list string) : bool :=
                match l with
                | [] => true
                | x :: rest => negb (existsb (String.eqb x) rest) && nodup rest
                end) l = true -> List.NoDup l).
  { induction l as [|x l IH]; intros H; constructor.
    - apply andb_true_iff in H. destruct H as [H _].
      intros Hin. apply negb_true_iff in H.
      assert (E : existsb (String.eqb x) l = true).
      { apply existsb_exists. exists x. split; [exact Hin | apply String.eqb_refl]. }
      rewrite E in H. discriminate H.
    - apply IH. apply andb_true_iff in H. apply H. }
  apply H. vm_compute. reflexivity.
Qed.

(** X1. When every schema converts, [tools/list] answers with eighteen tools,
    and the names it advertises are the names the [switch] of [tools/call]
    dispatches, each once: a call of an advertised tool reaches its
    function, whose result is the call's result and whose failure is
    answered by the [catch] in charge; a name that is not advertised
    reaches no function and gets the unknown-tool answer. *)
Theorem X1_advertised_tools_are_the_dispatched_ones
    (lines : list ErrorLine) (request : CallToolRequest Args) (w : W) :
  Forall (fun entry => exists schema, zodToJsonSchema (inputSchema entry) = Returned schema)
         tools ->
  exists answer,
    ListToolsHandler zodToJsonSchema lines =
      (Returned answer,
       (lines ++ [ {| label := "Generating tools list..."; logged_value := None |} ])%list) /\
    List.length answer = 18 /\
    List.NoDup (map listed_name answer) /\
    (In (name request) (map listed_name answer) ->
     exists f,
       routed handlers (name request) = Some f /\
       CallToolHandler handlers request w =
         match f (arguments request) w with
         | (Returned r, w') => (Returned r, w')
         | (Threw e, w') => (answer_to_failure (name request) e, w')
         end) /\
    (~ In (name request) (map listed_name answer) ->
     routed handlers (name request) = None /\
     CallToolHandler handlers request w =
       (Returned (error_result ("Error: Unknown tool: " ++ name request)), w)).
Proof.
  intros Hall.
  destruct (ListToolsHandler_answers zodToJsonSchema lines Hall) as (answer & Hanswer & Hnames).
  exists answer. split; [exact Hanswer|].
  split; [rewrite <- (length_map listed_name), Hnames; reflexivity|].
  rewrite Hnames. split; [apply tool_names_NoDup|]. split.
  - intros Hin. apply listed_iff_dispatched in Hin.
    rewrite CallToolHandler_routed.
    destruct (routed handlers (name request)) as [f|] eqn:Hr.
    + exists f. split; reflexivity.
    + exfalso. apply routed_None_iff in Hr. contradiction.
  - intros Hnot.
    assert (Hr : routed handlers (name request) = None).
    { apply routed_None_iff. intros Hin. apply Hnot, listed_iff_dispatched, Hin. }
    split; [exact Hr|]. rewrite CallToolHandler_routed, Hr. reflexivity.
Qed.

(** C8. Each of the six operations is exposed under its tool name: when the
    schemas convert, [tools/list] answers and its answer lists it, and
    [tools/list] fails to answer only when the conversion of a schema
    throws. A call with that name runs the operation's dedicated handler
    (inside the outer [try]): what the handler returns is the call's
    result, unchanged, together with the state the handler left. *)
Theorem C8_operations_exposed_and_dispatched (lines : list ErrorLine) (op : Operation) :
  In op operations /\
  (Forall (fun entry => exists schema, zodToJsonSchema (inputSchema entry) = Returned schema)
          tools ->
   exists answer,
     ListToolsHandler zodToJsonSchema lines =
       (Returned answer,
        (lines ++ [ {| label := "Generating tools list..."; logged_value := None |} ])%list) /\
     In (exposed_as op) (map listed_name answer)) /\
  (forall error lines',
      ListToolsHandler zodToJsonSchema lines = (Threw error, lines') ->
      exists entry, In entry tools /\ zodToJsonSchema (inputSchema entry) = Threw error) /\
  In (exposed_as op) dispatched_tool_names /\
  (forall args w,
      CallToolHandler handlers {| name := exposed_as op; arguments := args |} w =
      try_catch (dedicated_handler handlers op args)
        (fun error =>
           match errorMessage error with
           | Returned errorMessage => ret (error_result ("Error: " ++ errorMessage))
           | Threw raised => throw raised
           end) w) /\
  (forall args w r w',
      dedicated_handler handlers op args w = (Returned r, w') ->
      CallToolHandler handlers {| name := exposed_as op; arguments := args |} w =
      (Returned r, w')).
Proof.
  assert (Hd : forall args w,
      CallToolHandler handlers {| name := exposed_as op; arguments := args |} w =
      try_catch (dedicated_handler handlers op args)
        (fun error =>
           match errorMessage error with
           | Returned errorMessage => ret (error_result ("Error: " ++ errorMessage))
           | Threw raised => throw raised
           end) w).
  { intros args w. rewrite CallToolHandler_routed. unfold try_catch, ret, throw.
    destruct op; cbn;
      match goal with
      | |- context [match ?f w with _ => _ end] => destruct (f w) as [[?|e] ?]
      end; try reflexivity; destruct (errorMessage e); reflexivity. }
  split; [destruct op; cbn; tauto|].
  split.
  { intros Hall.
    destruct (ListToolsHandler_answers zodToJsonSchema lines Hall)
      as (answer & Hanswer & Hnames).
    exists answer. split; [exact Hanswer|]. rewrite Hnames.
    destruct op; cbn; tauto. }
  split; [intros error lines' H; exact (ListToolsHandler_throws _ _ _ _ H)|].
  split; [destruct op; cbn; tauto|].
  split; [exact Hd|].
  intros args w r w' Hret. rewrite Hd. unfold try_catch. rewrite Hret. reflexivity.
Qed.

End ListingFacts.

(** A conversion that succeeds on every schema, to list the tools with. *)
Lemma X1_advertised_tools_witness :
  exists answer,
    Listing.ListToolsHandler (fun schema => Server.Returned schema) [] =
      (Server.Returned answer,
       [ {| Listing.label := "Generating tools list...";
            Listing.logged_value := None |} ]) /\
    In "read_file" (map Listing.listed_name answer) /\
    Server.CallToolHandler Server.probe_handlers
      {| Server.name := "read_file"; Server.arguments := tt |} tt =
    (Server.Returned Server.probe_result, tt).
Proof.
  assert (Hall : Forall (fun entry => exists schema : Server.ArgsSchema,
                           Server.Returned (Server.inputSchema entry) = Server.Returned schema)
                        Server.tools).
  { unfold Server.tools. repeat constructor; eexists; reflexivity. }
  destruct (X1_advertised_tools_are_the_dispatched_ones Server.probe_handlers
              (fun schema => Server.Returned schema) []
              {| Server.name := "read_file"; Server.arguments := tt |} tt Hall)
    as (answer & Hanswer & _ & _ & _ & _).
  exists answer. split; [exact Hanswer|].
  split; [|reflexivity].
  cbv in Hanswer. injection Hanswer as <-. cbn. tauto.
Defined.

Lemma C8_operations_witness :
  exists answer,
    Listing.ListToolsHandler (fun schema => Server.Returned schema) [] =
      (Server.Returned answer,
       [ {| Listing.label := "Generating tools list...";
            Listing.logged_value := None |} ]) /\
    In "force_terminate" (map Listing.listed_name answer).
Proof.
  assert (Hall : Forall (fun entry => exists schema : Server.ArgsSchema,
                           Server.Returned (Server.inputSchema entry) = Server.Returned schema)
                        Server.tools).
  { unfold Server.tools. repeat constructor; eexists; reflexivity. }
  exact (proj1 (proj2 (C8_operations_exposed_and_dispatched Server.probe_handlers
                         (fun schema => Server.Returned schema) [] Server.OpTerminate))
               Hall).
Defined.

(** ** The setup script: every outcome of the update *)

Section SetupOutcomeFacts.
Import Js Setup SetupOutcome.

Lemma update_config_cases (config sc : JsVal) :
  update_config config sc =
  if container config then
    match lookup_prop "mcpServers" (properties config) with
    | Some servers =>
        if truthy servers then
          if container servers then
            Done (with_properties config
                    (assign_prop "mcpServers"
                       (with_properties servers
                          (assign_prop "desktop-commander" sc
                             (if truthy_read (lookup_prop "desktopCommander" (properties servers))
                              then remove_prop "desktopCommander" (properties servers)
                              else properties servers)))
                       (properties config)))
          else TypeError
        else
          Done (with_properties config
                  (assign_prop "mcpServers" (VObj [("desktop-commander", sc)])
                     (properties config)))
    | None =>
        Done (with_properties config
                (assign_prop "mcpServers" (VObj [("desktop-commander", sc)])
                   (properties config)))
    end
  else TypeError.
Proof.
  destruct config as [|b|f|str|elems ps|ps]; try reflexivity.
  - unfold update_config, has_old_entry, on_mcpServers, bind, get, set, delete.
    cbn [container properties with_properties].
    destruct (lookup_prop "mcpServers" ps) as [m|] eqn:Hm; cbn [truthy_read negb].
    + destruct (truthy m) eqn:Ht; cbn [negb].
      * rewrite ?Hm.
        destruct m as [|b|f|str|es extra|servers];
          cbn [container properties with_properties truthy_read]; cbn beta iota;
          rewrite ?Hm; try reflexivity.
        -- destruct (truthy_read (lookup_prop "desktopCommander" extra));
             rewrite ?Hm, ?lookup_assign_eq, ?assign_assign; reflexivity.
        -- destruct (truthy_read (lookup_prop "desktopCommander" servers));
             rewrite ?Hm, ?lookup_assign_eq, ?assign_assign; reflexivity.
      * rewrite !lookup_assign_eq. cbn. rewrite lookup_assign_eq, assign_assign.
        reflexivity.
    + rewrite !lookup_assign_eq. cbn. rewrite lookup_assign_eq, assign_assign.
      reflexivity.
  - unfold update_config, has_old_entry, on_mcpServers, bind, get, set, delete.
    cbn [container properties with_properties].
    destruct (lookup_prop "mcpServers" ps) as [m|] eqn:Hm; cbn [truthy_read negb].
    + destruct (truthy m) eqn:Ht; cbn [negb].
      * rewrite ?Hm.
        destruct m as [|b|f|str|es extra|servers];
          cbn [container properties with_properties truthy_read]; cbn beta iota;
          rewrite ?Hm; try reflexivity.
        -- destruct (truthy_read (lookup_prop "desktopCommander" extra));
             rewrite ?Hm, ?lookup_assign_eq, ?assign_assign; reflexivity.
        -- destruct (truthy_read (lookup_prop "desktopCommander" servers));
             rewrite ?Hm, ?lookup_assign_eq, ?assign_assign; reflexivity.
      * rewrite !lookup_assign_eq. cbn. rewrite lookup_assign_eq, assign_assign.
        reflexivity.
    + rewrite !lookup_assign_eq. cbn. rewrite lookup_assign_eq, assign_assign.
      reflexivity.
Qed.


Lemma reparse_props_assign (k : string) (x : JsVal) (ps : list (string * JsVal)) :
  map (fun p => (fst p, reparse (snd p))) (assign_prop k x ps) =
  assign_prop k (reparse x) (map (fun p => (fst p, reparse (snd p))) ps).
Proof.
  induction ps as [|[k' v] ps IH]; cbn; [reflexivity|].
  destruct (String.eqb k' k); cbn; [reflexivity|]. rewrite IH. reflexivity.
Qed.

Lemma reparse_props_idempotent (ps : list (string * JsVal)) :
  map (fun p => (fst p, reparse (snd p))) (map (fun p => (fst p, reparse (snd p))) ps) =
  map (fun p => (fst p, reparse (snd p))) ps.
Proof.
  rewrite map_map. apply map_ext. intros [k v]. cbn. rewrite reparse_idempotent.
  reflexivity.
Qed.

Lemma reparse_elems_idempotent (es : list JsVal) :
  map reparse (map reparse es) = map reparse es.
Proof. rewrite map_map. apply map_ext. intros v. apply reparse_idempotent. Qed.

(** A falsy value is printed as a falsy value. *)
Lemma reparse_falsy (v : JsVal) : truthy v = false -> truthy (reparse v) = false.
Proof.
  destruct v as [|b|f|str|es extra|ps]; cbn [reparse truthy];
    try (intros H; exact H).
  intros H.
  destruct (PrimFloat.is_nan f) eqn:Hn; cbn [orb negb andb] in *; [reflexivity|].
  destruct (PrimFloat.is_infinity f); [reflexivity|].
  destruct (PrimFloat.eqb f 0%float) eqn:Hz; cbn [truthy negb andb] in *.
  - reflexivity.
  - discriminate H.
Qed.

Lemma reparse_falsy_read (r : option JsVal) :
  truthy_read r = false -> truthy_read (reparse <$> r) = false.
Proof. destruct r as [v|]; cbn; [apply reparse_falsy | reflexivity]. Qed.

(** Run on what it wrote, the update block writes the same again. *)
Lemma update_config_again (config sc c1 : JsVal) :
  reparse sc = sc ->
  update_config config sc = Done c1 ->
  exists c2, update_config (reparse c1) sc = Done c2 /\ reparse c2 = reparse c1.
Proof.
  intros Hsc H1. rewrite update_config_cases in H1.
  assert (Hnew : forall elems' ps',
             let ps1 := assign_prop "mcpServers" (VObj [("desktop-commander", sc)]) ps' in
             exists c2,
               update_config (VObj (map (fun p => (fst p, reparse (snd p))) ps1)) sc = Done c2 /\
               reparse c2 = VObj (map (fun p => (fst p, reparse (snd p))) ps1) /\
             exists c3,
               update_config (VArr (map reparse elems') []) sc = Done c3 /\
               reparse c3 = VArr (map reparse elems') []).
  { intros elems' ps' ps1. split_and?; eexists; split_and?.
    - rewrite update_config_cases. cbn [container properties with_properties].
      subst ps1. rewrite reparse_props_assign, lookup_assign_eq.
      cbn [reparse map fst snd truthy container properties with_properties].
      rewrite Hsc. cbn. rewrite assign_assign. reflexivity.
    - cbn [reparse]. subst ps1. rewrite !reparse_props_assign, reparse_props_idempotent.
      cbn [reparse map fst snd]. rewrite Hsc. reflexivity.
    - eexists. split.
      + rewrite update_config_cases. cbn. reflexivity.
      + cbn [reparse]. rewrite reparse_elems_idempotent. reflexivity. }
  destruct config as [|b|f|str|elems ps|ps]; try discriminate H1;
    cbn [container properties with_properties] in H1.
  - (* the configuration is an array *)
    assert (Hshape : exists ps', c1 = VArr elems ps').
    { destruct (lookup_prop "mcpServers" ps) as [m|];
        [destruct (truthy m); [destruct (container m); [|discriminate H1]|]|];
        injection H1 as <-; eexists; reflexivity. }
    destruct Hshape as [ps' ->]. cbn [reparse].
    destruct (Hnew elems ps') as (_ & _ & _ & c3 & E3 & R3). eauto.
  - (* the configuration is an object *)
    destruct (lookup_prop "mcpServers" ps) as [m|] eqn:Hm.
    2:{ injection H1 as <-. cbn [reparse].
        destruct (Hnew ([] : list JsVal) ps) as (c2 & E2 & R2 & _). eauto. }
    destruct (truthy m) eqn:Ht.
    2:{ injection H1 as <-. cbn [reparse].
        destruct (Hnew ([] : list JsVal) ps) as (c2 & E2 & R2 & _). eauto. }
    destruct m as [|b|f|str|es extra|servers]; try discriminate H1;
      cbn [container properties with_properties] in H1; injection H1 as <-.
    + (* [mcpServers] is an array *)
      eexists. split.
      * rewrite update_config_cases. cbn [reparse container properties with_properties].
        rewrite reparse_props_assign, lookup_assign_eq.
        cbn [reparse truthy container properties with_properties lookup_prop truthy_read].
        rewrite assign_assign. reflexivity.
      * cbn [reparse]. rewrite !reparse_props_assign, reparse_props_idempotent.
        cbn [reparse]. rewrite reparse_elems_idempotent. reflexivity.
    + (* [mcpServers] is an object *)
      set (Q := if truthy_read (lookup_prop "desktopCommander" servers)
                then remove_prop "desktopCommander" servers else servers).
      assert (HQ : truthy_read (lookup_prop "desktopCommander" Q) = false).
      { subst Q. destruct (truthy_read (lookup_prop "desktopCommander" servers)) eqn:E.
        - rewrite lookup_remove_eq. reflexivity.
        - exact E. }
      eexists. split.
      * rewrite update_config_cases. cbn [reparse container properties with_properties].
        rewrite reparse_props_assign, lookup_assign_eq.
        cbn [reparse truthy container properties with_properties].
        rewrite reparse_props_assign, Hsc.
        rewrite (lookup_assign_ne "desktop-commander" "desktopCommander") by discriminate.
        rewrite lookup_reparse, (reparse_falsy_read _ HQ).
        rewrite !assign_assign. reflexivity.
      * cbn [reparse]. rewrite !reparse_props_assign, reparse_props_idempotent.
        cbn [reparse]. rewrite !reparse_props_assign, reparse_props_idempotent, Hsc.
        reflexivity.
Qed.

(** X14. Running [setup()] a second time leaves the file as the first run wrote
    it. *)
Theorem X14_setup_twice_writes_the_same (env : Env) (fs : Fs) :
  fst (setup env fs) = true ->
  setup env (snd (setup env fs)) = (true, snd (setup env fs)).
Proof.
  intros Hok. unfold setup in *. cbn [configFile configDirExists] in *.
  destruct (configFile fs) as [[config|raw]|] eqn:Hf; cbn [fst snd] in *.
  - destruct (update_config config (serverConfig env)) as [c1|] eqn:E1;
      [|discriminate Hok].
    cbn [snd writeConfig configFile configDirExists].
    destruct (update_config_again _ _ _ (reparse_serverConfig env) E1) as (c2 & E2 & R2).
    rewrite E2. unfold writeConfig. cbn [configFile configDirExists]. rewrite R2.
    reflexivity.
  - discriminate Hok.
  - destruct (update_config (defaultConfig env) (serverConfig env)) as [c1|] eqn:E1;
      [|discriminate Hok].
    cbn [snd writeConfig configFile configDirExists].
    destruct (update_config_again _ _ _ (reparse_serverConfig env) E1) as (c2 & E2 & R2).
    rewrite E2. unfold writeConfig. cbn [configFile configDirExists]. rewrite R2.
    reflexivity.
Qed.




(** X13. After a successful run on a configuration object, the server is
    registered unless [mcpServers] was an array: the entry assigned to an
    array is not printed. *)
Theorem X13_setup_registers_unless_array (env : Env) (fs : Fs)
    (props : list (string * JsVal)) :
  configFile fs = Some (JsonText (VObj props)) ->
  fst (setup env fs) = true ->
  exists written,
    snd (setup env fs) =
      {| configDirExists := true; configFile := Some (JsonText written) |} /\
    (server_entry written "desktop-commander" = Some (serverConfig env) <->
     forall es extra, lookup_prop "mcpServers" props <> Some (VArr es extra)) /\
    (forall es extra, lookup_prop "mcpServers" props = Some (VArr es extra) ->
       field written "mcpServers" = Some (VArr (map reparse es) [])).
Proof.
  intros Hf Hok. rewrite (setup_existing _ _ _ Hf) in *.
  rewrite update_config_cases in *. cbn [container properties with_properties] in *.
  assert (Hfresh :
    let written := reparse (VObj (assign_prop "mcpServers"
                                    (VObj [("desktop-commander", serverConfig env)]) props)) in
    server_entry written "desktop-commander" = Some (serverConfig env)).
  { cbn [reparse]. unfold server_entry, field.
    rewrite lookup_reparse, lookup_assign_eq. cbn [fmap option_fmap option_map reparse map fst snd].
    cbn [lookup_prop]. rewrite String.eqb_refl, reparse_serverConfig. reflexivity. }
  destruct (lookup_prop "mcpServers" props) as [m|] eqn:Hm.
  2:{ cbn [snd]. eexists. split; [reflexivity|]. split; [|discriminate].
      split; [discriminate | intros _; exact Hfresh]. }
  destruct (truthy m) eqn:Ht.
  2:{ cbn [snd]. eexists. split; [reflexivity|]. split.
      - split; [|intros _; exact Hfresh].
        intros _ es extra E. injection E as ->. discriminate Ht.
      - intros es extra E. injection E as ->. discriminate Ht. }
  destruct m as [|b|f|str|es extra|servers]; try discriminate Hok;
    cbn [container properties with_properties snd] in *.
  - eexists. split; [reflexivity|]. split.
    + split.
      * cbn [reparse]. unfold server_entry, field.
        rewrite lookup_reparse, lookup_assign_eq. cbn. discriminate.
      * intros H. exfalso. eapply H. reflexivity.
    + intros es' extra' E. injection E as <- <-. cbn [reparse]. unfold field.
      rewrite lookup_reparse, lookup_assign_eq. reflexivity.
  - eexists. split; [reflexivity|]. split; [|discriminate].
    split; [discriminate|]. intros _. cbn [reparse]. unfold server_entry, field.
    rewrite lookup_reparse, lookup_assign_eq.
    cbn [fmap option_fmap option_map reparse].
    rewrite lookup_reparse, lookup_assign_eq. cbn [fmap option_fmap option_map].
    rewrite reparse_serverConfig. reflexivity.
Qed.

(** X15. With no file on disk, [setup()] succeeds and leaves the default shell
    settings and the one server entry. *)
Theorem X15_setup_without_a_file (env : Env) (fs : Fs) :
  configFile fs = None ->
  setup env fs =
    (true,
     {| configDirExists := true;
        configFile :=
          Some (JsonText
                  (VObj [ ("serverConfig",
                           VObj [ ("command", VStr (if isWindows env then "cmd.exe"
                                                    else "/bin/sh"));
                                  ("args", VArr [ VStr (if isWindows env then "/c"
                                                        else "-c") ] []) ]);
                          ("mcpServers",
                           VObj [ ("desktop-commander", serverConfig env) ]) ])) |}).
Proof.
  intros Hf. unfold setup. cbn [configFile]. rewrite Hf.
  rewrite update_config_cases. unfold defaultConfig, writeConfig.
  cbn [container properties with_properties lookup_prop assign_prop configFile
       configDirExists].
  cbn [String.eqb Ascii.eqb Bool.eqb]. cbn [reparse map fst snd].
  rewrite reparse_serverConfig. destruct (isWindows env); reflexivity.
Qed.

End SetupOutcomeFacts.

Lemma X14_setup_twice_writes_the_same_witness :
  fst (Setup.setup Setup.sample_env
         {| Setup.configDirExists := true;
            Setup.configFile := Some (Setup.JsonText Setup.sample_config) |}) = true /\
  Setup.setup Setup.sample_env
    (snd (Setup.setup Setup.sample_env
            {| Setup.configDirExists := true;
               Setup.configFile := Some (Setup.JsonText Setup.sample_config) |})) =
  (true,
   snd (Setup.setup Setup.sample_env
          {| Setup.configDirExists := true;
             Setup.configFile := Some (Setup.JsonText Setup.sample_config) |})).
Proof.
  split; [reflexivity|]. apply X14_setup_twice_writes_the_same. reflexivity.
Defined.

Section EscapeFacts.
Import Setup SetupOutcome.

(** X16. [escape_backslashes] doubles every backslash and changes nothing
    else: the result is longer by one character for each backslash, every
    other character occurs as often as before, a string without backslashes
    is returned as it is, and escaping two strings put together is putting
    together the two escaped strings. *)
Theorem X16_escape_backslashes_doubles (s : string) :
  String.length (escape_backslashes s) = String.length s + occurrences "\"%char s /\
  occurrences "\"%char (escape_backslashes s) = 2 * occurrences "\"%char s /\
  (forall c, c <> "\"%char ->
             occurrences c (escape_backslashes s) = occurrences c s) /\
  (escape_backslashes s = s <-> occurrences "\"%char s = 0) /\
  (forall s', escape_backslashes (s ++ s') =
              escape_backslashes s ++ escape_backslashes s').
Proof.
  assert (Hlen : forall s, String.length (escape_backslashes s) =
                           String.length s + occurrences "\"%char s).
  { clear s. induction s as [|c s IH]; [reflexivity|].
    cbn [escape_backslashes occurrences String.length].
    destruct (Ascii.eqb c "\"%char); cbn [String.length]; rewrite IH; lia. }
  split; [apply Hlen|]. split; [|split; [|split]].
  - induction s as [|c s IH]; [reflexivity|].
    cbn [escape_backslashes occurrences].
    destruct (Ascii.eqb c "\"%char) eqn:E; cbn [occurrences]; rewrite ?E, IH.
    + cbn. lia.
    + lia.
  - intros c Hc. induction s as [|c' s IH]; [reflexivity|].
    cbn [escape_backslashes occurrences].
    destruct (Ascii.eqb c' "\"%char) eqn:E; cbn [occurrences]; rewrite IH.
    + apply Ascii.eqb_eq in E. subst c'.
      destruct (Ascii.eqb "\"%char c) eqn:E'; [|reflexivity].
      apply Ascii.eqb_eq in E'. congruence.
    + reflexivity.
  - split.
    + intros H. pose proof (Hlen s) as L. rewrite H in L. lia.
    + induction s as [|c s IH]; [reflexivity|].
      cbn [escape_backslashes occurrences].
      destruct (Ascii.eqb c "\"%char); [discriminate|].
      cbn [Nat.add]. intros H. rewrite (IH H). reflexivity.
  - intros s'. induction s as [|c s IH]; [reflexivity|].
    change (String c s ++ s') with (String c (s ++ s')).
    cbn [escape_backslashes]. rewrite IH.
    destruct (Ascii.eqb c "\"%char); reflexivity.
Qed.

End EscapeFacts.

Lemma X13_setup_registers_unless_array_witness :
  Setup.configFile
    {| Setup.configDirExists := true;
       Setup.configFile := Some (Setup.JsonText SetupOutcome.array_config) |} =
    Some (Setup.JsonText SetupOutcome.array_config) /\
  fst (Setup.setup Setup.sample_env
         {| Setup.configDirExists := true;
            Setup.configFile := Some (Setup.JsonText SetupOutcome.array_config) |}) = true /\
  exists written,
    snd (Setup.setup Setup.sample_env
           {| Setup.configDirExists := true;
              Setup.configFile := Some (Setup.JsonText SetupOutcome.array_config) |}) =
      {| Setup.configDirExists := true; Setup.configFile := Some (Setup.JsonText written) |} /\
    Setup.server_entry written "desktop-commander" = None /\
    Setup.field written "mcpServers" = Some (Js.VArr [ Js.VStr "filesystem" ] []).
Proof.
  split; [reflexivity|]. split; [reflexivity|].
  destruct (X13_setup_registers_unless_array Setup.sample_env
              {| Setup.configDirExists := true;
                 Setup.configFile := Some (Setup.JsonText SetupOutcome.array_config) |}
              _ eq_refl eq_refl) as (written & Hw & _ & Harr).
  exists written. split; [exact Hw|]. split.
  - unfold Setup.server_entry. rewrite (Harr _ _ eq_refl). reflexivity.
  - exact (Harr _ _ eq_refl).
Defined.

Lemma X15_setup_without_a_file_witness :
  Setup.configFile {| Setup.configDirExists := false; Setup.configFile := None |} = None /\
  Setup.setup Setup.sample_env
    {| Setup.configDirExists := false; Setup.configFile := None |} =
    (true,
     {| Setup.configDirExists := true;
        Setup.configFile :=
          Some (Setup.JsonText
                  (Js.VObj [ ("serverConfig",
                              Js.VObj [ ("command", Js.VStr "/bin/sh");
                                        ("args", Js.VArr [ Js.VStr "-c" ] []) ]);
                             ("mcpServers",
                              Js.VObj [ ("desktop-commander",
                                         Setup.serverConfig Setup.sample_env) ]) ])) |}).
Proof.
  split; [reflexivity|].
  exact (X15_setup_without_a_file Setup.sample_env
           {| Setup.configDirExists := false; Setup.configFile := None |} eq_refl).
Defined.

(** ** The setup script: logging, version, restart *)

Section ScriptFacts.
Import Js Script.
Local Open Scope script_scope.

Variable h : Host.

Lemma deeds_app (es es' : list Effect) : deeds (es ++ es') = (deeds es ++ deeds es')%list.
Proof. unfold deeds. apply List.filter_app. Qed.



(** [includes] is the substring test. *)
Lemma prefix_app (p s : string) :
  String.prefix p s = true <-> exists rest, s = p ++ rest.
Proof.
  revert s. induction p as [|a p IH]; intros s.
  - destruct s; cbn; split; eauto.
  - destruct s as [|b s]; cbn [String.prefix String.append].
    + split; [discriminate | intros [rest E]; discriminate E].
    + destruct (ascii_dec a b) as [->|Hne].
      * rewrite IH. split; intros [rest E]; exists rest; [rewrite E | injection E as E];
          auto.
      * split; [discriminate | intros [rest E]; injection E as E _; congruence].
Qed.

Lemma includes_spec (needle hay : string) :
  includes needle hay = true <-> exists before after, hay = before ++ needle ++ after.
Proof.
  induction hay as [|c hay IH]; cbn [includes].
  - rewrite orb_false_r, prefix_app. split.
    + intros [rest E]. exists "", rest. exact E.
    + intros (before & after & E). destruct before; [|discriminate E].
      exists after. exact E.
  - rewrite orb_true_iff, prefix_app, IH. split.
    + intros [[rest E] | (before & after & E)].
      * exists "", rest. exact E.
      * exists (String c before), after. cbn. rewrite E. reflexivity.
    + intros (before & after & E). destruct before as [|c' before].
      * left. exists after. exact E.
      * right. injection E as _ E. eauto.
Qed.

(** *** Rules for running the script *)

Lemma ends_ret {A : Type} (a : A) (w : World) Q :
  Q (Returned a) w -> ends (ret a) w Q.
Proof. intros HQ r w' E. injection E as <- <-. exact HQ. Qed.

Lemma ends_throw {A : Type} (error : Exn) (w : World) (Q : Completion A -> World -> Prop) :
  Q (Threw error) w -> ends (throw error) w Q.
Proof. intros HQ r w' E. injection E as <- <-. exact HQ. Qed.

Lemma ends_bind {A B : Type} (c : Async A) (k : A -> Async B) (w : World) Q :
  ends c w (fun r w1 =>
              match r with
              | Returned a => ends (k a) w1 Q
              | Threw error => Q (Threw error) w1
              end) ->
  ends (bind c k) w Q.
Proof.
  intros Hc r w' E. unfold bind in E.
  destruct (c w) as [[a|error] w1] eqn:Ec; specialize (Hc _ _ Ec); cbn in Hc.
  - exact (Hc _ _ E).
  - injection E as <- <-. exact Hc.
Qed.

Lemma ends_try_catch {A : Type} (body : Async A) (handler : Exn -> Async A)
    (w : World) Q :
  ends body w (fun r w1 =>
                 match r with
                 | Returned a => Q (Returned a) w1
                 | Threw error => ends (handler error) w1 Q
                 end) ->
  ends (try_catch body handler) w Q.
Proof.
  intros Hc r w' E. unfold try_catch in E.
  destruct (body w) as [[a|error] w1] eqn:Ec; specialize (Hc _ _ Ec); cbn in Hc.
  - injection E as <- <-. exact Hc.
  - exact (Hc _ _ E).
Qed.

Lemma ends_if {A : Type} (b : bool) (c1 c2 : Async A) (w : World) Q :
  (b = true -> ends c1 w Q) -> (b = false -> ends c2 w Q) ->
  ends (if b then c1 else c2) w Q.
Proof. destruct b; auto. Qed.

Lemma ends_emit (e : Effect) (w : World) Q :
  (forall w', fs w' = fs w ->
              deeds (effects w') =
                (deeds (effects w) ++ if silent e then [] else [e])%list ->
              Q (Returned tt) w') ->
  ends (emit e) w Q.
Proof.
  intros HQ r w' E. injection E as <- <-. apply HQ; cbn [fs effects]; [reflexivity|].
  rewrite deeds_app. cbn. destruct (silent e); reflexivity.
Qed.

(** [logToFile] always returns, and only prints and logs. *)
Lemma ends_logToFile (message : string) (isError : bool) (w : World) Q :
  (forall w', fs w' = fs w -> deeds (effects w') = (deeds (effects w) ++ [])%list ->
              Q (Returned tt) w') ->
  ends (logToFile h message isError) w Q.
Proof.
  intros HQ r w' E. unfold logToFile, try_catch, bind, appendFileSync, throw, emit in E.
  destruct (appendFileSync_error h (logged w)) as [error|];
    injection E as <- <-; apply HQ; cbn [fs effects]; try reflexivity;
    rewrite ?deeds_app; cbn; rewrite ?app_nil_r; reflexivity.
Qed.

Lemma ends_execAsync (command : string) (w : World) Q :
  (forall w' out,
      exec h (if isWindows h then "cmd.exe /c " ++ command else command) = Returned out ->
      fs w' = fs w ->
      deeds (effects w') =
        (deeds (effects w) ++
         [Exec (if isWindows h then "cmd.exe /c " ++ command else command)])%list ->
      Q (Returned out) w') ->
  (forall w' error,
      exec h (if isWindows h then "cmd.exe /c " ++ command else command) = Threw error ->
      fs w' = fs w ->
      deeds (effects w') =
        (deeds (effects w) ++
         [Exec (if isWindows h then "cmd.exe /c " ++ command else command)])%list ->
      Q (Threw error) w') ->
  ends (execAsync h command) w Q.
Proof.
  intros Hok Hko r w' E. unfold execAsync, bind, emit in E. cbv beta iota in E.
  injection E as <- <-.
  destruct (exec h (if isWindows h then "cmd.exe /c " ++ command else command)) eqn:Ex;
    [eapply Hok | eapply Hko]; cbn [fs effects]; try reflexivity;
    rewrite deeds_app; reflexivity.
Qed.

Lemma ends_console_log_each (lines : list string) (w : World) Q :
  (forall w', fs w' = fs w -> deeds (effects w') = (deeds (effects w) ++ [])%list ->
              Q (Returned tt) w') ->
  ends (console_log_each lines) w Q.
Proof.
  revert w Q. induction lines as [|line lines IH]; intros w Q HQ; cbn [console_log_each].
  - apply ends_ret. apply HQ; [reflexivity | symmetry; apply app_nil_r].
  - apply ends_bind, ends_emit. intros w1 Hfs1 Hd1. apply IH. intros w2 Hfs2 Hd2.
    apply HQ; [congruence|]. rewrite Hd2, Hd1. cbn. rewrite !app_nil_r. reflexivity.
Qed.

Lemma ends_existsSync_configDir (w : World) Q :
  (forall b, b = Setup.configDirExists (fs w) -> Q (Returned b) w) ->
  ends existsSync_configDir w Q.
Proof. intros HQ r w' E. injection E as <- <-. apply HQ. reflexivity. Qed.

Lemma ends_existsSync_config (w : World) Q :
  (forall b,
      b = match Setup.configFile (fs w) with Some _ => true | None => false end ->
      Q (Returned b) w) ->
  ends existsSync_config w Q.
Proof. intros HQ r w' E. injection E as <- <-. apply HQ. reflexivity. Qed.

Lemma ends_mkdirSync (configDir : string) (w : World) Q :
  (forall error, mkdirSync_error h = Some error -> Q (Threw error) w) ->
  (mkdirSync_error h = None ->
   forall w',
      fs w' = {| Setup.configDirExists := true;
                 Setup.configFile := Setup.configFile (fs w) |} ->
      deeds (effects w') = (deeds (effects w) ++ [Mkdir configDir])%list ->
      Q (Returned tt) w') ->
  ends (mkdirSync h configDir) w Q.
Proof.
  intros Hko Hok r w' E. unfold mkdirSync, throw in E.
  destruct (mkdirSync_error h) as [error|]; injection E as <- <-.
  - apply Hko. reflexivity.
  - apply Hok; cbn [fs effects]; try reflexivity. apply deeds_app.
Qed.

Lemma ends_readFileSync_config (w : World) Q :
  (forall error, readFileSync_error h = Some error -> Q (Threw error) w) ->
  (forall content,
      readFileSync_error h = None -> Setup.configFile (fs w) = Some content ->
      Q (Returned content) w) ->
  (readFileSync_error h = None -> Setup.configFile (fs w) = None ->
   Q (Threw (ENOENT h)) w) ->
  ends (readFileSync_config h) w Q.
Proof.
  intros Hko Hok Hno r w' E. unfold readFileSync_config, throw in E.
  destruct (readFileSync_error h) as [error|].
  - injection E as <- <-. apply Hko. reflexivity.
  - destruct (Setup.configFile (fs w)) as [content|] eqn:Hf; injection E as <- <-.
    + apply Hok; auto.
    + apply Hno; auto.
Qed.

Lemma ends_writeFileSync_config (failure : option WriteFailure) (value : JsVal)
    (w : World) Q :
  (forall failed,
      failure = Some failed -> left_behind failed = None ->
      forall w',
        fs w' = fs w ->
        deeds (effects w') = (deeds (effects w) ++ [])%list ->
        Q (Threw (write_error failed)) w') ->
  (forall failed content,
      failure = Some failed -> left_behind failed = Some content ->
      forall w',
        fs w' = {| Setup.configDirExists := Setup.configDirExists (fs w);
                   Setup.configFile := Some content |} ->
        deeds (effects w') = (deeds (effects w) ++ [])%list ->
        Q (Threw (write_error failed)) w') ->
  (failure = None ->
   forall w',
      fs w' = Setup.writeConfig value (fs w) ->
      deeds (effects w') = (deeds (effects w) ++ [WriteConfig value])%list ->
      Q (Returned tt) w') ->
  ends (writeFileSync_config failure value) w Q.
Proof.
  intros Hshut Hopen Hok r w' E. unfold writeFileSync_config, after_failed_write in E.
  destruct failure as [failed|]; injection E as <- <-.
  - destruct (left_behind failed) as [content|] eqn:Hleft.
    + apply (Hopen failed content eq_refl Hleft); cbn [fs effects];
        [reflexivity | symmetry; apply app_nil_r].
    + apply (Hshut failed eq_refl Hleft); cbn [fs effects];
        [reflexivity | symmetry; apply app_nil_r].
  - apply Hok; cbn [fs effects]; try reflexivity. apply deeds_app.
Qed.

Lemma ends_access {A : Type} (a : Access A) (error : Exn) (w : World) Q :
  (forall x, a = Done x -> Q (Returned x) w) ->
  (a = TypeError -> Q (Threw error) w) ->
  ends (access a error) w Q.
Proof.
  intros Hok Hko r w' E. destruct a as [x|]; injection E as <- <-; auto.
Qed.

Lemma getVersion_returns (w : World) : exists v, getVersion h w = (Returned v, w).
Proof.
  cbv beta iota zeta delta [getVersion try_catch bind ret throw JSON_parse access].
  destruct (truthy_read (VStr <$> npm_package_version h)); [eauto|].
  destruct (version_js h) as [[v|e]|]; [eauto | eauto |].
  destruct (package_json h) as [[[v|raw]|e]|]; eauto.
  destruct (get v "version") as [version|]; [|eauto].
  destruct (truthy_read version); eauto.
Qed.

Lemma ends_getVersion (w : World) Q :
  (forall appVersion, Q (Returned appVersion) w) -> ends (getVersion h) w Q.
Proof.
  intros HQ r w' E. destruct (getVersion_returns w) as [v Hv].
  rewrite Hv in E. injection E as <- <-. apply HQ.
Qed.

(** The facts about the world just reached, told from the world the run
    started in. *)
Ltac into_facts :=
  lazymatch goal with
  | Hd' : deeds (effects ?x) = _ |- _ =>
      lazymatch goal with
      | Hfs' : fs x = _ |- _ =>
          repeat match goal with
                 | H : fs ?y = _ |- _ =>
                     lazymatch y with
                     | x => fail
                     | _ => rewrite H in Hfs'; clear H
                     end
                 end;
          repeat match goal with
                 | H : deeds (effects ?y) = _ |- _ =>
                     lazymatch y with
                     | x => fail
                     | _ => rewrite H in Hd'; clear H
                     end
                 end;
          cbn [silent effects] in Hd';
          rewrite ?app_nil_r, <- ?app_assoc in Hd'; cbn [app] in Hd';
          cbn [fs Setup.configDirExists Setup.configFile Setup.writeConfig] in Hfs'
      end
  end.

Ltac note := intros ? ? ?; into_facts.

Ltac note_exec := intros ? ? ? ? ?; into_facts.

Ltac absurd_branch :=
  lazymatch goal with
  | H1 : ?c = true, H2 : ?c = false |- _ =>
      exfalso; clear - H1 H2; rewrite H1 in H2; discriminate H2
  end.

(** States a new fact from the world the run started in. *)
Ltac rebase H :=
  repeat match goal with
         | Hf : fs ?y = _ |- _ => rewrite Hf in H
         end;
  cbn [fs Setup.configDirExists Setup.configFile negb] in H.

Ltac wp_basic :=
  lazymatch goal with
  | |- ends (bind _ _) _ _ => apply ends_bind
  | |- ends (try_catch _ _) _ _ => apply ends_try_catch
  | |- ends (ret _) _ _ => apply ends_ret
  | |- ends (throw _) _ _ => apply ends_throw
  | |- ends (emit _) _ _ => apply ends_emit; note
  | |- ends (logToFile _ _ _) _ _ => apply ends_logToFile; note
  | |- ends (execAsync _ _) _ _ => apply ends_execAsync; note_exec
  | |- ends (if _ then _ else _) _ _ =>
      let Hc := fresh "Hc" in
      apply ends_if; intros Hc; rebase Hc; try discriminate Hc; try absurd_branch
  end.

Lemma restart_plan_cases :
  restart_plan h =
  if platform h =? "win32" then
    [ Exec (if isWindows h
            then "cmd.exe /c " ++ "taskkill /F /IM " ++ dq ++ "Claude.exe" ++ dq
            else "taskkill /F /IM " ++ dq ++ "Claude.exe" ++ dq); Sleep 3000 ]
  else if platform h =? "darwin" then
    [ Exec (if isWindows h then "cmd.exe /c " ++ "killall " ++ dq ++ "Claude" ++ dq
            else "killall " ++ dq ++ "Claude" ++ dq); Sleep 3000;
      Exec (if isWindows h then "cmd.exe /c " ++ "open -a " ++ dq ++ "Claude" ++ dq
            else "open -a " ++ dq ++ "Claude" ++ dq) ]
  else if platform h =? "linux" then
    [ Exec (if isWindows h then "cmd.exe /c " ++ "pkill -f " ++ dq ++ "claude" ++ dq
            else "pkill -f " ++ dq ++ "claude" ++ dq); Sleep 3000;
      Exec (if isWindows h then "cmd.exe /c " ++ "claude" else "claude") ]
  else [ Sleep 3000 ].
Proof.
  unfold restart_plan, isWindows. destruct (platform h =? "win32"); reflexivity.
Qed.

(** [restartClaude()] always returns, leaves the configuration alone, and
    runs the commands of [restart_plan]. *)
Lemma ends_restartClaude (w : World) Q :
  (forall w', fs w' = fs w ->
              deeds (effects w') = (deeds (effects w) ++ restart_plan h)%list ->
              Q (Returned tt) w') ->
  ends (restartClaude h) w Q.
Proof.
  intros HQ. rewrite restart_plan_cases in HQ. unfold restartClaude. cbv zeta.
  repeat (cbv beta iota; wp_basic).
  all: cbv beta iota; apply HQ; [assumption|]; clear HQ.
  all: repeat match goal with
              | H : ?c = ?b |- context [if ?c then _ else _] => rewrite H
              end; assumption.
Qed.

Ltac wp :=
  cbv beta iota;
  lazymatch goal with
  | |- ends (console_log_each _) _ _ => apply ends_console_log_each; note
  | |- ends existsSync_configDir _ _ =>
      let b := fresh "b" in
      let Hb := fresh "Hb" in
      apply ends_existsSync_configDir; intros b Hb; rebase Hb; subst b
  | |- ends existsSync_config _ _ =>
      let b := fresh "b" in
      let Hb := fresh "Hb" in
      apply ends_existsSync_config; intros b Hb; rebase Hb; subst b
  | |- ends (mkdirSync _ _) _ _ =>
      apply ends_mkdirSync; [intros ? ? | intros ?; note]
  | |- ends (readFileSync_config _) _ _ =>
      apply ends_readFileSync_config;
      [ intros ? ?
      | let content := fresh "content" in
        let Hr := fresh "Hr" in
        intros content ? Hr; rebase Hr; try discriminate Hr;
        injection Hr as Hr; subst content
      | let Hr := fresh "Hr" in intros ? Hr; rebase Hr; try discriminate Hr ]
  | |- ends (writeFileSync_config _ _) _ _ =>
      apply ends_writeFileSync_config;
      [ intros ? ? ?; note | intros ? ? ? ?; note | intros ?; note ]
  | |- ends (JSON_parse _ _) _ _ => cbn [JSON_parse]
  | |- ends (access _ _) _ _ => apply ends_access; [intros ? ? | intros ?]
  | |- ends (getVersion _) _ _ => apply ends_getVersion; intros ?
  | |- ends (restartClaude _) _ _ => apply ends_restartClaude; note
  | _ => wp_basic
  end.

(** What is left to prove where a run of [setup()] ends. *)
Ltac pure_setup :=
  unfold Setup.setup, Setup.writeConfig;
  cbn [Setup.configFile Setup.configDirExists];
  repeat match goal with
         | H : Setup.update_config _ _ = _ |- _ => rewrite H
         end;
  repeat match goal with
         | H : fs _ = _ |- _ => rewrite H
         end;
  reflexivity.

Ltac no_fault :=
  intros;
  try match goal with
      | H1 : ?x = Some _, H2 : ?x = None |- _ =>
          exfalso; clear - H1 H2; rewrite H1 in H2; discriminate H2
      end.

Ltac setup_leaf HQ :=
  cbv beta iota; apply HQ; clear HQ;
  [ first [ discriminate | intros _; pure_setup ]
  | first
      [ discriminate
      | intros _; eexists; split;
        [ cbv [preparation]; cbn [Setup.configDirExists Setup.configFile app];
          eassumption
        | match goal with H : fs _ = _ |- _ => rewrite H end; reflexivity ] ]
  | first
      [ discriminate
      | intros _;
        first
          [ exists []; split;
            [ rewrite app_nil_r; assumption | eexists; reflexivity ]
          | eexists; split;
            [ eassumption
            | cbv [preparation]; cbn [Setup.configDirExists Setup.configFile app];
              eexists; reflexivity ] ] ]
  | first
      [ discriminate
      | intros _; unfold unwritten;
        match goal with H : fs _ = _ |- _ => rewrite H end;
        cbn [Setup.configFile];
        first
          [ left; reflexivity
          | right; left; split; reflexivity
          | right; right; left; split; [reflexivity|];
            eexists _, _; split; [eassumption | split; [eassumption | reflexivity]]
          | right; right; right;
            eexists _, _; split; [eassumption | split; [eassumption | reflexivity]] ] ]
  | no_fault; pure_setup ].

Lemma ends_setup (claudeConfigPath : string) (w : World) Q :
  (forall b w',
    (b = true -> Setup.setup (env h) (fs w) = (true, fs w')) ->
    (b = true ->
     exists c,
       deeds (effects w') =
         (deeds (effects w) ++ preparation h claudeConfigPath (fs w) ++
          WriteConfig c :: restart_plan h)%list /\
       Setup.configFile (fs w') = Some (Setup.JsonText (reparse c))) ->
    (b = false ->
     exists done,
       deeds (effects w') = (deeds (effects w) ++ done)%list /\
       exists rest, preparation h claudeConfigPath (fs w) = (done ++ rest)%list) ->
    (b = false ->
     unwritten h (fs w) (fs w')) ->
    (mkdirSync_error h = None -> readFileSync_error h = None ->
     writeDefault_error h = None -> writeUpdated_error h = None ->
     Setup.setup (env h) (fs w) = (b, fs w')) ->
    Q (Returned b) w') ->
  ends (setup h claudeConfigPath) w Q.
Proof.
  intros HQ. destruct w as [[dirExists file] es n].
  cbn [fs effects Setup.configFile] in HQ.
  unfold setup. cbv zeta.
  destruct dirExists; destruct file as [[config|raw]|].
  all: repeat wp.
  all: setup_leaf HQ.
Qed.

Lemma ends_elim {A : Type} (c : Async A) (w : World) Q :
  ends c w Q -> Q (fst (c w)) (snd (c w)).
Proof. intros H. apply H. destruct (c w); reflexivity. Qed.

(** X5. [restartClaude()] never throws, whatever [exec] and the log file do; it
    leaves the configuration file alone; the commands it runs depend on the
    platform only, not on how the earlier ones ended. *)
Theorem X5_restartClaude_runs_its_plan (w : World) :
  exists w',
    restartClaude h w = (Returned tt, w') /\
    fs w' = fs w /\
    deeds (effects w') = (deeds (effects w) ++ restart_plan h)%list.
Proof.
  pose proof (ends_elim _ _ _
    (ends_restartClaude w
       (fun r w' => r = Returned tt /\ fs w' = fs w /\
                    deeds (effects w') = (deeds (effects w) ++ restart_plan h)%list)
       (fun w' Hfs Hd => conj eq_refl (conj Hfs Hd)))) as H.
  cbv beta in H. destruct (restartClaude h w) as [r w']. cbn [fst snd] in H.
  destruct H as (-> & Hfs & Hd). eauto.
Qed.

(** X3. [getVersion()] never throws and changes nothing: whatever the import,
    the read, [JSON.parse] or the property access throws, the version is
    "unknown". *)
Theorem X3_getVersion_never_throws (w : World) :
  exists v,
    getVersion h w = (Returned v, w) /\
    (truthy_read (VStr <$> npm_package_version h) = false ->
     (forall error, version_js h = Some (Threw error) -> v = Some (VStr "unknown")) /\
     (version_js h = None ->
      (forall error, package_json h = Some (Threw error) -> v = Some (VStr "unknown")) /\
      (forall raw, package_json h = Some (Returned (Setup.Unparseable raw)) ->
                   v = Some (VStr "unknown")) /\
      (package_json h = Some (Returned (Setup.JsonText VNull)) ->
       v = Some (VStr "unknown")) /\
      (package_json h = None -> v = Some (VStr "unknown")))).
Proof.
  cbv beta iota zeta delta [getVersion try_catch bind ret throw JSON_parse access].
  destruct (truthy_read (VStr <$> npm_package_version h)).
  { eexists. split; [reflexivity|]. discriminate. }
  destruct (version_js h) as [[v|e]|].
  - eexists. split; [reflexivity|]. intros _. split; [discriminate|discriminate].
  - eexists. split; [reflexivity|]. intros _. split; [reflexivity|discriminate].
  - destruct (package_json h) as [[[json|raw]|e]|].
    + destruct (get json "version") as [version|] eqn:Hg.
      * destruct (truthy_read version) eqn:Ht; eexists; (split; [reflexivity|]);
          intros _; (split; [discriminate|]); intros _;
          repeat split; try discriminate; try reflexivity.
        intros E. injection E as ->. discriminate Hg.
      * eexists. split; [reflexivity|]. intros _. split; [discriminate|]. intros _.
        repeat split; reflexivity.
    + eexists. split; [reflexivity|]. intros _. split; [discriminate|]. intros _.
      repeat split; reflexivity.
    + eexists. split; [reflexivity|]. intros _. split; [discriminate|]. intros _.
      repeat split; reflexivity.
    + eexists. split; [reflexivity|]. intros _. split; [discriminate|]. intros _.
      repeat split; reflexivity.
Qed.

(** X4. Where [getVersion()] takes the version from: the environment variable
    when it is set and not empty; otherwise [version.js] when that file
    exists, whether or not it exports [VERSION]; [package.json] only when
    there is no [version.js]. *)
Theorem X4_getVersion_precedence (w : World) :
  (forall version,
      npm_package_version h = Some version -> version <> "" ->
      getVersion h w = (Returned (Some (VStr version)), w)) /\
  (truthy_read (VStr <$> npm_package_version h) = false ->
   (forall VERSION,
       version_js h = Some (Returned VERSION) ->
       getVersion h w = (Returned VERSION, w)) /\
   (forall json version,
       version_js h = None ->
       package_json h = Some (Returned (Setup.JsonText json)) ->
       get json "version" = Done version ->
       getVersion h w =
       (Returned (if truthy_read version then version else Some (VStr "unknown")), w))).
Proof.
  split.
  - intros version Hv Hne.
    cbv beta iota zeta delta [getVersion try_catch bind ret throw JSON_parse access].
    rewrite Hv. cbn [fmap option_fmap option_map truthy_read truthy].
    destruct (String.eqb_spec version ""); [contradiction|]. reflexivity.
  - intros Hf. split.
    + intros VERSION Hjs.
      cbv beta iota zeta delta [getVersion try_catch bind ret throw JSON_parse access].
      rewrite Hf, Hjs. reflexivity.
    + intros json version Hjs Hp Hg.
      cbv beta iota zeta delta [getVersion try_catch bind ret throw JSON_parse access].
      rewrite Hf, Hjs, Hp, Hg. destruct (truthy_read version); reflexivity.
Qed.

Lemma setup_ends_well (claudeConfigPath : string) (w : World) :
  exists b w',
    setup h claudeConfigPath w = (Returned b, w') /\
    (b = true -> Setup.setup (env h) (fs w) = (true, fs w')) /\
    (b = true ->
     exists c,
       deeds (effects w') =
         (deeds (effects w) ++ preparation h claudeConfigPath (fs w) ++
          WriteConfig c :: restart_plan h)%list /\
       Setup.configFile (fs w') = Some (Setup.JsonText (reparse c))) /\
    (b = false ->
     exists done,
       deeds (effects w') = (deeds (effects w) ++ done)%list /\
       exists rest, preparation h claudeConfigPath (fs w) = (done ++ rest)%list) /\
    (b = false ->
     unwritten h (fs w) (fs w')) /\
    (mkdirSync_error h = None -> readFileSync_error h = None ->
     writeDefault_error h = None -> writeUpdated_error h = None ->
     Setup.setup (env h) (fs w) = (b, fs w')).
Proof.
  pose proof (ends_elim _ _ _
    (ends_setup claudeConfigPath w
       (fun r w' =>
          match r with
          | Returned b =>
              (b = true -> Setup.setup (env h) (fs w) = (true, fs w')) /\
              (b = true ->
               exists c,
                 deeds (effects w') =
                   (deeds (effects w) ++ preparation h claudeConfigPath (fs w) ++
                    WriteConfig c :: restart_plan h)%list /\
                 Setup.configFile (fs w') = Some (Setup.JsonText (reparse c))) /\
              (b = false ->
               exists done,
                 deeds (effects w') = (deeds (effects w) ++ done)%list /\
                 exists rest,
                   preparation h claudeConfigPath (fs w) = (done ++ rest)%list) /\
              (b = false ->
               unwritten h (fs w) (fs w')) /\
              (mkdirSync_error h = None -> readFileSync_error h = None ->
               writeDefault_error h = None -> writeUpdated_error h = None ->
               Setup.setup (env h) (fs w) = (b, fs w'))
          | Threw _ => False
          end)
       (fun b w' H1 H2 H3 H4 H5 => conj H1 (conj H2 (conj H3 (conj H4 H5)))))) as H.
  cbv beta in H. destruct (setup h claudeConfigPath w) as [[b|error] w'];
    cbn [fst snd] in H; [|destruct H].
  exists b, w'. split; [reflexivity | exact H].
Qed.





(** X11. Run directly, the script asks for exit code 1 exactly when [setup()]
    returned [false]; the handler of a rejected [setup()] never runs. *)
Theorem X11_main_exits_on_failure (claudeConfigPath : string) (w : World) :
  Script.claudeConfigPath h = Done claudeConfigPath ->
  (Nat.leb 2 (List.length (argv h)) && String.eqb (nth 1 (argv h) "") (__filename h))
    = true ->
  exists b w1,
    setup h claudeConfigPath w = (Returned b, w1) /\
    main h w =
      (Returned tt,
       if b then w1
       else {| fs := fs w1; effects := (effects w1 ++ [ExitAfter 1000 1])%list;
               logged := logged w1 |}).
Proof.
  intros Hp Hd.
  destruct (setup_ends_well claudeConfigPath w) as (b & w1 & E & _).
  exists b, w1. split; [exact E|].
  unfold main. rewrite Hp. cbn [access]. unfold bind at 1. unfold ret at 1.
  cbv beta iota. rewrite Hd. unfold try_catch, bind. rewrite E.
  destruct b; reflexivity.
Qed.

End ScriptFacts.


Lemma X11_main_exits_on_failure_witness :
  Script.claudeConfigPath Script.sample_host = Js.Done Script.sample_path /\
  exists w1,
    Script.setup Script.sample_host Script.sample_path Script.broken_world =
      (Script.Returned false, w1) /\
    Script.main Script.sample_host Script.broken_world =
      (Script.Returned tt,
       {| Script.fs := Script.fs w1;
          Script.effects := (Script.effects w1 ++ [Script.ExitAfter 1000 1])%list;
          Script.logged := Script.logged w1 |}).
Proof.
  split; [reflexivity|].
  destruct (X11_main_exits_on_failure Script.sample_host Script.sample_path
              Script.broken_world eq_refl eq_refl) as (b & w1 & E & Hm).
  assert (Hb : b = false).
  { assert (H : fst (Script.setup Script.sample_host Script.sample_path
                       Script.broken_world) = Script.Returned false)
      by (vm_compute; reflexivity).
    rewrite E in H. cbn [fst] in H. injection H as ->. reflexivity. }
  subst b. exists w1. split; [exact E | exact Hm].
Defined.

(** ** The setup script: what it reports *)

Section ScriptLogFacts.
Import Js Script.
Local Open Scope script_scope.

Variable h : Host.
Hypothesis log_writable : forall n, appendFileSync_error h n = None.

Lemma echoed_app (es es' : list Effect) :
  echoed (es ++ es') = (echoed es ++ echoed es')%list.
Proof. unfold echoed. apply flat_map_app. Qed.

Lemma said_emit (e : Effect) (w : World) Q :
  (forall w', fs w' = fs w ->
              echoed (effects w') = (echoed (effects w) ++ echoed [e])%list ->
              Q (Returned tt) w') ->
  ends (emit e) w Q.
Proof.
  intros HQ r w' E. injection E as <- <-. apply HQ; cbn [fs effects]; [reflexivity|].
  apply echoed_app.
Qed.

(** With a log file that can be written, [logToFile] echoes its message. *)
Lemma said_logToFile (message : string) (isError : bool) (w : World) Q :
  (forall w', fs w' = fs w ->
              echoed (effects w') = (echoed (effects w) ++ [echo message])%list ->
              Q (Returned tt) w') ->
  ends (logToFile h message isError) w Q.
Proof.
  intros HQ r w' E. unfold logToFile, try_catch, bind, appendFileSync, throw, emit in E.
  rewrite log_writable in E. injection E as <- <-. apply HQ; cbn [fs effects]; [reflexivity|].
  rewrite <- app_assoc, echoed_app. reflexivity.
Qed.

Lemma said_execAsync (command : string) (w : World) Q :
  (forall out,
      exec h (if isWindows h then "cmd.exe /c " ++ command else command) = Returned out ->
      forall w', fs w' = fs w ->
                 echoed (effects w') = (echoed (effects w) ++ [])%list ->
                 Q (Returned out) w') ->
  (forall error,
      exec h (if isWindows h then "cmd.exe /c " ++ command else command) = Threw error ->
      forall w', fs w' = fs w ->
                 echoed (effects w') = (echoed (effects w) ++ [])%list ->
                 Q (Threw error) w') ->
  ends (execAsync h command) w Q.
Proof.
  intros Hok Hko r w' E. unfold execAsync, bind, emit in E. cbv beta iota in E.
  injection E as <- <-.
  destruct (exec h (if isWindows h then "cmd.exe /c " ++ command else command)) eqn:Ex;
    [eapply Hok | eapply Hko]; cbn [fs effects]; try reflexivity;
    rewrite echoed_app; reflexivity.
Qed.

Ltac into_said :=
  lazymatch goal with
  | Hd' : echoed (effects ?x) = _ |- _ =>
      lazymatch goal with
      | Hfs' : fs x = _ |- _ =>
          repeat match goal with
                 | H : fs ?y = _ |- _ =>
                     lazymatch y with
                     | x => fail
                     | _ => rewrite H in Hfs'; clear H
                     end
                 end;
          repeat match goal with
                 | H : echoed (effects ?y) = _ |- _ =>
                     lazymatch y with
                     | x => fail
                     | _ => rewrite H in Hd'; clear H
                     end
                 end;
          cbn [echoed flat_map effects] in Hd';
          rewrite ?app_nil_r, <- ?app_assoc in Hd'; cbn [app] in Hd';
          cbn [fs Setup.configDirExists Setup.configFile Setup.writeConfig] in Hfs'
      end
  end.

Ltac said := intros ? ? ?; into_said.

Ltac absurd_branch :=
  lazymatch goal with
  | H1 : ?c = true, H2 : ?c = false |- _ =>
      exfalso; clear - H1 H2; rewrite H1 in H2; discriminate H2
  end.

Ltac rebase H :=
  repeat match goal with
         | Hf : fs ?y = _ |- _ => rewrite Hf in H
         end;
  cbn [fs Setup.configDirExists Setup.configFile negb] in H.

Ltac ws_basic :=
  lazymatch goal with
  | |- ends (bind _ _) _ _ => apply ends_bind
  | |- ends (try_catch _ _) _ _ => apply ends_try_catch
  | |- ends (ret _) _ _ => apply ends_ret
  | |- ends (throw _) _ _ => apply ends_throw
  | |- ends (emit _) _ _ => apply said_emit; said
  | |- ends (logToFile _ _ _) _ _ => apply said_logToFile; said
  | |- ends (execAsync _ _) _ _ => apply said_execAsync; intros ? ?; said
  | |- ends (if _ then _ else _) _ _ =>
      let Hc := fresh "Hc" in
      apply ends_if; intros Hc; rebase Hc; try discriminate Hc; try absurd_branch
  end.

Ltac exec_facts Hwin :=
  repeat match goal with
         | H : exec h _ = _ |- _ =>
             progress (unfold isWindows in H; rewrite Hwin in H)
         end.

Ltac in_list :=
  cbn [In]; repeat first [ left; reflexivity | right ].

Ltac not_in_list :=
  let H := fresh "H" in
  cbn [In]; intros H;
  repeat match type of H with
         | _ \/ _ => destruct H as [H|H]
         end;
  first [ contradiction
        | unfold echo, nl, dq in H; cbn [String.append] in H; discriminate H ].

Ltac no_E :=
  repeat constructor; unfold echo, nl, dq; cbn [String.append String.get];
  discriminate.

Ltac same_command He tac :=
  match goal with
  | H' : exec h ?c = ?r |- _ =>
      lazymatch type of He with
      | exec h c = _ => rewrite He in H'; first [ discriminate H' | tac H' ]
      end
  end.

Ltac report_failure :=
  let Hs := fresh "Hs" in
  let He := fresh "He" in
  intros ? ? Hs He;
  first
    [ discriminate Hs
    | injection Hs as <-;
      same_command He ltac:(fun H' => injection H' as <-; split; [in_list | not_in_list]) ].

Ltac report_success :=
  let Hn := fresh "Hn" in
  let Hs := fresh "Hs" in
  let He := fresh "He" in
  intros [Hn | (? & ? & Hs & He)];
  [ first [ discriminate Hn | split; [in_list | intros ?; not_in_list] ]
  | first
      [ discriminate Hs
      | injection Hs as <-;
        same_command He ltac:(fun H' => split; [in_list | intros ?; not_in_list]) ] ].

(** The two lines that tell how the restart went. *)
Lemma said_restartClaude (w : World) Q :
  (forall w' said,
      fs w' = fs w ->
      echoed (effects w') = (echoed (effects w) ++ said)%list ->
      (forall command error,
          start_command h = Some command -> exec h command = Threw error ->
          In (echo ("Failed to restart Claude: " ++ error_string error
                      ++ ". Please restart it manually.")) said /\
          ~ In (echo (nl ++ "✅ Installation successfully completed! Thank you for using Desktop Commander!" ++ nl)) said) ->
      ((start_command h = None \/
        exists command out, start_command h = Some command /\
                            exec h command = Returned out) ->
       In (echo (nl ++ "✅ Installation successfully completed! Thank you for using Desktop Commander!" ++ nl)) said /\
       forall error,
         ~ In (echo ("Failed to restart Claude: " ++ error_string error
                       ++ ". Please restart it manually.")) said) ->
      Forall (fun line => String.get 0 line <> Some "E"%char) said ->
      Q (Returned tt) w') ->
  ends (restartClaude h) w Q.
Proof.
  intros HQ. unfold start_command in HQ.
  destruct (platform h =? "win32") eqn:Hwin;
    [|destruct (platform h =? "darwin") eqn:Hmac;
      [|destruct (platform h =? "linux") eqn:Hlin]].
  all: unfold restartClaude; cbv zeta.
  all: repeat (cbv beta iota; ws_basic).
  all: cbv beta iota; exec_facts Hwin.
  all: eapply HQ; clear HQ;
    [ assumption | eassumption | report_failure | report_success | no_E ].
Qed.

(** X6. With a log file that can be written, [restartClaude()] tells how the
    start went: when the command that starts Claude fails, it reports the
    failure with the error and does not report a completed installation;
    otherwise, also where nothing is started (Windows, other platforms), it
    reports the installation as completed. *)
Theorem X6_restartClaude_reports_the_start (w : World) :
  exists w' said,
    restartClaude h w = (Returned tt, w') /\
    echoed (effects w') = (echoed (effects w) ++ said)%list /\
    (forall command error,
        start_command h = Some command -> exec h command = Threw error ->
        In (echo ("Failed to restart Claude: " ++ error_string error
                    ++ ". Please restart it manually.")) said /\
        ~ In (echo (nl ++ "✅ Installation successfully completed! Thank you for using Desktop Commander!" ++ nl)) said) /\
    ((start_command h = None \/
      exists command out, start_command h = Some command /\
                          exec h command = Returned out) ->
     In (echo (nl ++ "✅ Installation successfully completed! Thank you for using Desktop Commander!" ++ nl)) said /\
     forall error,
       ~ In (echo ("Failed to restart Claude: " ++ error_string error
                     ++ ". Please restart it manually.")) said).
Proof.
  pose proof (ends_elim _ _ _
    (said_restartClaude w
       (fun r w' =>
          r = Returned tt /\
          exists said,
            echoed (effects w') = (echoed (effects w) ++ said)%list /\
            (forall command error,
                start_command h = Some command -> exec h command = Threw error ->
                In (echo ("Failed to restart Claude: " ++ error_string error
                            ++ ". Please restart it manually.")) said /\
                ~ In (echo (nl ++ "✅ Installation successfully completed! Thank you for using Desktop Commander!" ++ nl)) said) /\
            ((start_command h = None \/
              exists command out, start_command h = Some command /\
                                  exec h command = Returned out) ->
             In (echo (nl ++ "✅ Installation successfully completed! Thank you for using Desktop Commander!" ++ nl)) said /\
             forall error,
               ~ In (echo ("Failed to restart Claude: " ++ error_string error
                             ++ ". Please restart it manually.")) said))
       (fun w' said _ Hs Hf Ho _ =>
          conj eq_refl (ex_intro _ said (conj Hs (conj Hf Ho)))))) as H.
  cbv beta in H. destruct (restartClaude h w) as [r w']. cbn [fst snd] in H.
  destruct H as (-> & said & Hs & Hf & Ho). exists w', said. auto.
Qed.



Lemma said_console_log_each (lines : list string) (w : World) Q :
  (forall w', fs w' = fs w -> echoed (effects w') = (echoed (effects w) ++ [])%list ->
              Q (Returned tt) w') ->
  ends (console_log_each lines) w Q.
Proof.
  revert w Q. induction lines as [|line lines IH]; intros w Q HQ; cbn [console_log_each].
  - apply ends_ret. apply HQ; [reflexivity | symmetry; apply app_nil_r].
  - apply ends_bind, said_emit. intros w1 Hfs1 Hd1. apply IH. intros w2 Hfs2 Hd2.
    apply HQ; [congruence|]. rewrite Hd2, Hd1. cbn. rewrite !app_nil_r. reflexivity.
Qed.

Lemma said_mkdirSync (configDir : string) (w : World) Q :
  (forall error, mkdirSync_error h = Some error -> Q (Threw error) w) ->
  (mkdirSync_error h = None ->
   forall w',
      fs w' = {| Setup.configDirExists := true;
                 Setup.configFile := Setup.configFile (fs w) |} ->
      echoed (effects w') = (echoed (effects w) ++ [])%list ->
      Q (Returned tt) w') ->
  ends (mkdirSync h configDir) w Q.
Proof.
  intros Hko Hok r w' E. unfold mkdirSync, throw in E.
  destruct (mkdirSync_error h) as [error|]; injection E as <- <-.
  - apply Hko. reflexivity.
  - apply Hok; cbn [fs effects]; try reflexivity. apply echoed_app.
Qed.

Lemma said_writeFileSync_config (failure : option WriteFailure) (value : JsVal)
    (w : World) Q :
  (forall failed,
      failure = Some failed ->
      forall w',
        fs w' = after_failed_write failed (fs w) ->
        echoed (effects w') = (echoed (effects w) ++ [])%list ->
        Q (Threw (write_error failed)) w') ->
  (failure = None ->
   forall w',
      fs w' = Setup.writeConfig value (fs w) ->
      echoed (effects w') = (echoed (effects w) ++ [])%list ->
      Q (Returned tt) w') ->
  ends (writeFileSync_config failure value) w Q.
Proof.
  intros Hko Hok r w' E. unfold writeFileSync_config in E.
  destruct failure as [failed|]; injection E as <- <-.
  - eapply Hko; cbn [fs effects]; try reflexivity. symmetry. apply app_nil_r.
  - apply Hok; cbn [fs effects]; try reflexivity. apply echoed_app.
Qed.

Ltac ws :=
  cbv beta iota;
  lazymatch goal with
  | |- ends (console_log_each _) _ _ => apply said_console_log_each; said
  | |- ends existsSync_configDir _ _ =>
      let b := fresh "b" in
      let Hb := fresh "Hb" in
      apply ends_existsSync_configDir; intros b Hb; rebase Hb; subst b
  | |- ends existsSync_config _ _ =>
      let b := fresh "b" in
      let Hb := fresh "Hb" in
      apply ends_existsSync_config; intros b Hb; rebase Hb; subst b
  | |- ends (mkdirSync _ _) _ _ =>
      apply said_mkdirSync; [intros ? ? | intros ?; said]
  | |- ends (readFileSync_config _) _ _ =>
      apply ends_readFileSync_config;
      [ intros ? ?
      | let content := fresh "content" in
        let Hr := fresh "Hr" in
        intros content ? Hr; rebase Hr; try discriminate Hr;
        injection Hr as Hr; subst content
      | let Hr := fresh "Hr" in intros ? Hr; rebase Hr; try discriminate Hr ]
  | |- ends (writeFileSync_config _ _) _ _ =>
      apply said_writeFileSync_config; [intros ? ?; said | intros ?; said]
  | |- ends (JSON_parse _ _) _ _ => cbn [JSON_parse]
  | |- ends (access _ _) _ _ => apply ends_access; [intros ? ? | intros ?]
  | |- ends (getVersion _) _ _ => apply ends_getVersion; intros ?
  | |- ends (restartClaude _) _ _ =>
      apply said_restartClaude; intros ? ? ? ? _ _ ?; into_said
  | _ => ws_basic
  end.

Ltac no_E_then_rest :=
  repeat (constructor;
          [unfold echo, nl, dq; cbn [String.append String.get]; discriminate|]);
  assumption.

Lemma said_setup (claudeConfigPath : string) (w : World) Q :
  (forall b w' said,
      echoed (effects w') = (echoed (effects w) ++ said)%list ->
      (b = false ->
       exists error,
         last said =
           Some (echo ("Error updating Claude configuration: " ++ error_string error))) ->
      (b = true -> Forall (fun line => String.get 0 line <> Some "E"%char) said) ->
      Q (Returned b) w') ->
  ends (setup h claudeConfigPath) w Q.
Proof.
  intros HQ. destruct w as [[dirExists file] es n]. cbn [fs effects] in HQ.
  unfold setup. cbv zeta.
  destruct dirExists; destruct file as [[config|raw]|].
  all: repeat ws.
  all: cbv beta iota; eapply HQ; clear HQ;
    [ eassumption
    | first [ discriminate | intros _; eexists; reflexivity ]
    | first [ discriminate | intros _; no_E_then_rest ] ].
Qed.

(** X10. With a log file that can be written, [setup()] returns [false] exactly
    when it reports "Error updating Claude configuration: " with the error
    it caught, and that report is the last thing it says. *)
Theorem X10_setup_reports_its_failure (claudeConfigPath : string) (w : World) :
  exists b w' said,
    setup h claudeConfigPath w = (Returned b, w') /\
    echoed (effects w') = (echoed (effects w) ++ said)%list /\
    (b = false ->
     exists error,
       last said =
         Some (echo ("Error updating Claude configuration: " ++ error_string error))) /\
    (b = true ->
     forall error,
       ~ In (echo ("Error updating Claude configuration: " ++ error_string error)) said).
Proof.
  pose proof (ends_elim _ _ _
    (said_setup claudeConfigPath w
       (fun r w' =>
          match r with
          | Returned b =>
              exists said,
                echoed (effects w') = (echoed (effects w) ++ said)%list /\
                (b = false ->
                 exists error,
                   last said =
                     Some (echo ("Error updating Claude configuration: "
                                   ++ error_string error))) /\
                (b = true ->
                 Forall (fun line => String.get 0 line <> Some "E"%char) said)
          | Threw _ => False
          end)
       (fun b w' said Hs Hf Ht => ex_intro _ said (conj Hs (conj Hf Ht))))) as H.
  cbv beta in H. destruct (setup h claudeConfigPath w) as [[b|error] w'];
    cbn [fst snd] in H; [|destruct H].
  destruct H as (said & Hs & Hf & Ht).
  exists b, w', said. split; [reflexivity|]. split; [exact Hs|]. split; [exact Hf|].
  intros Hb error Hin. specialize (Ht Hb).
  rewrite List.Forall_forall in Ht. apply (Ht _ Hin).
  unfold echo. reflexivity.
Qed.

End ScriptLogFacts.

Lemma X6_restartClaude_reports_the_start_witness :
  (forall n, Script.appendFileSync_error Script.sample_host n = None) /\
  exists w' said,
    Script.restartClaude Script.sample_host Script.sample_world = (Script.Returned tt, w') /\
    Script.echoed (Script.effects w') = said /\
    In (Script.echo "Failed to restart Claude: Error: Command failed: claude. Please restart it manually.") said.
Proof.
  split; [reflexivity|].
  destruct (X6_restartClaude_reports_the_start Script.sample_host (fun n => eq_refl)
              Script.sample_world) as (w' & said & E & Hs & Hf & _).
  exists w', said. split; [exact E|]. split; [exact Hs|].
  exact (proj1 (Hf "claude"
                   {| Script.error_message := "Command failed: claude";
                      Script.error_string := "Error: Command failed: claude" |}
                   eq_refl eq_refl)).
Defined.

Lemma X10_setup_reports_its_failure_witness :
  (forall n, Script.appendFileSync_error Script.sample_host n = None) /\
  exists w' said,
    Script.setup Script.sample_host Script.sample_path Script.broken_world =
      (Script.Returned false, w') /\
    Script.echoed (Script.effects w') = said /\
    exists error,
      last said =
        Some (Script.echo ("Error updating Claude configuration: "
                             ++ Script.error_string error)).
Proof.
  split; [reflexivity|].
  destruct (X10_setup_reports_its_failure Script.sample_host (fun n => eq_refl)
              Script.sample_path Script.broken_world) as (b & w' & said & E & Hs & Hf & _).
  assert (Hb : b = false).
  { assert (H : fst (Script.setup Script.sample_host Script.sample_path
                       Script.broken_world) = Script.Returned false)
      by (vm_compute; reflexivity).
    rewrite E in H. cbn [fst] in H. injection H as ->. reflexivity. }
  subst b. exists w', said. split; [exact E|]. split; [exact Hs|]. exact (Hf eq_refl).
Defined.

(** ** The setup script: what every run keeps *)

Section ScriptInvariants.
Import Js Script.
Local Open Scope script_scope.

Variable h : Host.

(** A property of the world that does not look at the configuration file,
    that neither a console line nor a deed disturbs, and that [logToFile]
    keeps. *)
Variable J : World -> Prop.
Hypothesis J_disk :
  forall w disk, J w -> J {| fs := disk; effects := effects w; logged := logged w |}.
Hypothesis J_console :
  forall w line,
    J w -> J {| fs := fs w; effects := (effects w ++ [ConsoleLog line])%list;
                logged := logged w |}.
Hypothesis J_deed :
  forall w e,
    silent e = false ->
    J w -> J {| fs := fs w; effects := (effects w ++ [e])%list; logged := logged w |}.
Hypothesis J_logToFile :
  forall w message isError, J w -> J (snd (logToFile h message isError w)).

Lemma kept_console (line : string) (w : World) Q :
  J w -> (forall w', J w' -> Q (Returned tt) w') -> ends (emit (ConsoleLog line)) w Q.
Proof. intros HJ HQ r w' E. injection E as <- <-. apply HQ, J_console, HJ. Qed.

Lemma kept_deed (e : Effect) (w : World) Q :
  silent e = false ->
  J w -> (forall w', J w' -> Q (Returned tt) w') -> ends (emit e) w Q.
Proof. intros He HJ HQ r w' E. injection E as <- <-. apply HQ, J_deed; assumption. Qed.

Lemma kept_logToFile (message : string) (isError : bool) (w : World) Q :
  J w -> (forall w', J w' -> Q (Returned tt) w') ->
  ends (logToFile h message isError) w Q.
Proof.
  intros HJ HQ r w' E.
  assert (Hr : r = Returned tt).
  { unfold logToFile, try_catch, bind, appendFileSync, throw, emit in E.
    destruct (appendFileSync_error h (logged w)); injection E as <- _; reflexivity. }
  subst r. apply HQ. pose proof (J_logToFile w message isError HJ) as H.
  rewrite E in H. exact H.
Qed.

Lemma kept_execAsync (command : string) (w : World) Q :
  J w -> (forall r w', J w' -> Q r w') -> ends (execAsync h command) w Q.
Proof.
  intros HJ HQ r w' E. unfold execAsync, bind, emit in E. cbv beta iota in E.
  injection E as <- <-. apply HQ, J_deed; [reflexivity | exact HJ].
Qed.

Lemma kept_console_log_each (lines : list string) (w : World) Q :
  J w -> (forall w', J w' -> Q (Returned tt) w') -> ends (console_log_each lines) w Q.
Proof.
  revert w Q. induction lines as [|line lines IH]; intros w Q HJ HQ;
    cbn [console_log_each].
  - apply ends_ret, HQ, HJ.
  - apply ends_bind, kept_console; [exact HJ|]. intros w1 HJ1. apply IH; assumption.
Qed.

Lemma kept_read {A : Type} (read : World -> A) (w : World) Q :
  (forall a, Q (Returned a) w) -> ends (fun w => (Returned (read w), w)) w Q.
Proof. intros HQ r w' E. injection E as <- <-. apply HQ. Qed.

Lemma kept_mkdirSync (configDir : string) (w : World) Q :
  J w -> (forall r w', J w' -> Q r w') -> ends (mkdirSync h configDir) w Q.
Proof.
  intros HJ HQ r w' E. unfold mkdirSync, throw in E.
  destruct (mkdirSync_error h) as [error|]; injection E as <- <-; apply HQ; [exact HJ|].
  apply (J_deed {| fs := _; effects := effects w; logged := logged w |});
    [reflexivity | apply J_disk, HJ].
Qed.

Lemma kept_readFileSync_config (w : World) Q :
  (forall r, Q r w) -> ends (readFileSync_config h) w Q.
Proof.
  intros HQ r w' E. unfold readFileSync_config, throw in E.
  destruct (readFileSync_error h) as [error|].
  - injection E as <- <-. apply HQ.
  - destruct (Setup.configFile (fs w)); injection E as <- <-; apply HQ.
Qed.

Lemma kept_writeFileSync_config (failure : option WriteFailure) (value : JsVal)
    (w : World) Q :
  J w -> (forall r w', J w' -> Q r w') -> ends (writeFileSync_config failure value) w Q.
Proof.
  intros HJ HQ r w' E. unfold writeFileSync_config in E.
  destruct failure as [failed|]; injection E as <- <-; apply HQ;
    [apply J_disk, HJ|].
  apply (J_deed {| fs := _; effects := effects w; logged := logged w |});
    [reflexivity | apply J_disk, HJ].
Qed.

Lemma kept_JSON_parse (content : Setup.FileContent) (w : World) Q :
  (forall r, Q r w) -> ends (JSON_parse h content) w Q.
Proof. intros HQ r w' E. destruct content; injection E as <- <-; apply HQ. Qed.

Lemma kept_access {A : Type} (a : Access A) (error : Exn) (w : World) Q :
  (forall r, Q r w) -> ends (access a error) w Q.
Proof. intros HQ r w' E. destruct a; injection E as <- <-; apply HQ. Qed.

Lemma kept_getVersion (w : World) Q :
  (forall r, Q r w) -> ends (getVersion h) w Q.
Proof. intros HQ. apply ends_getVersion. intros v. apply HQ. Qed.

Ltac keep_going :=
  cbv beta iota;
  lazymatch goal with
  | |- ends (bind _ _) _ _ => apply ends_bind
  | |- ends (try_catch _ _) _ _ => apply ends_try_catch
  | |- ends (ret _) _ _ => apply ends_ret
  | |- ends (throw _) _ _ => apply ends_throw
  | |- ends (if _ then _ else _) _ _ => apply ends_if; intros _
  | |- ends (emit (ConsoleLog _)) _ _ =>
      apply kept_console; [assumption | intros ? ?]
  | |- ends (emit _) _ _ => apply kept_deed; [reflexivity | assumption | intros ? ?]
  | |- ends (logToFile _ _ _) _ _ => apply kept_logToFile; [assumption | intros ? ?]
  | |- ends (execAsync _ _) _ _ => apply kept_execAsync; [assumption | intros [?|?] ? ?]
  | |- ends (console_log_each _) _ _ =>
      apply kept_console_log_each; [assumption | intros ? ?]
  | |- ends existsSync_configDir _ _ => apply kept_read; intros ?
  | |- ends existsSync_config _ _ => apply kept_read; intros ?
  | |- ends (mkdirSync _ _) _ _ => apply kept_mkdirSync; [assumption | intros [?|?] ? ?]
  | |- ends (readFileSync_config _) _ _ =>
      apply kept_readFileSync_config; intros [?|?]
  | |- ends (writeFileSync_config _ _) _ _ =>
      apply kept_writeFileSync_config; [assumption | intros [?|?] ? ?]
  | |- ends (JSON_parse _ _) _ _ => apply kept_JSON_parse; intros [?|?]
  | |- ends (access _ _) _ _ => apply kept_access; intros [?|?]
  | |- ends (getVersion _) _ _ => apply kept_getVersion; intros [?|?]
  end.

Lemma kept_restartClaude (w : World) Q :
  J w -> (forall w', J w' -> Q (Returned tt) w') -> ends (restartClaude h) w Q.
Proof.
  intros HJ HQ. unfold restartClaude. cbv zeta.
  repeat keep_going.
  all: cbv beta iota; apply HQ; assumption.
Qed.

Lemma kept_setup (claudeConfigPath : string) (w : World) Q :
  J w -> (forall b w', J w' -> Q (Returned b) w') ->
  ends (setup h claudeConfigPath) w Q.
Proof.
  intros HJ HQ. unfold setup. cbv zeta.
  repeat first
    [ keep_going
    | lazymatch goal with
      | |- ends (restartClaude _) _ _ =>
          apply kept_restartClaude; [assumption | intros ? ?]
      end ].
  all: cbv beta iota; apply HQ; assumption.
Qed.

Lemma kept_main (w : World) :
  J w -> ends (main h) w (fun _ w' => J w').
Proof.
  intros HJ. unfold main.
  apply ends_bind, kept_access. intros [claudeConfigPath|error]; [|exact HJ].
  apply ends_if; intros _; [|apply ends_ret; exact HJ].
  apply ends_try_catch, ends_bind, kept_setup; [exact HJ|].
  intros b w1 HJ1. destruct b; cbn [negb].
  - apply ends_ret. exact HJ1.
  - apply kept_deed; [reflexivity | exact HJ1 | auto].
Qed.

End ScriptInvariants.

Section ScriptAccounts.
Import Js Script.

Variable h : Host.

Lemma accounted_logToFile (w : World) (message : string) (isError : bool) :
  accounted w -> accounted (snd (logToFile h message isError w)).
Proof.
  unfold accounted, logToFile, try_catch, bind, appendFileSync, throw, emit.
  intros [He Hl]. destruct (appendFileSync_error h (logged w)); cbn [snd effects logged];
    unfold echoed, appended, complained in *;
    rewrite ?flat_map_app, ?length_app; cbn; lia.
Qed.

(** X17. No message of the script is lost silently. Through a whole run of
    the script, every call of [logToFile] has either appended one line to
    the log and echoed its message, or written one complaint to the
    standard error stream: as many messages are echoed as are in the log,
    and the calls are the logged lines plus the complaints. *)
Theorem X17_every_message_is_accounted_for (claudeConfigPath : string) (w : World) :
  accounted w ->
  accounted (snd (setup h claudeConfigPath w)) /\
  accounted (snd (main h w)).
Proof.
  intros Hw.
  assert (Hdisk : forall w disk,
             accounted w ->
             accounted {| fs := disk; effects := effects w; logged := logged w |})
    by (intros ? ? H; exact H).
  assert (Hconsole : forall w line,
             accounted w ->
             accounted {| fs := fs w; effects := (effects w ++ [ConsoleLog line])%list;
                          logged := logged w |}).
  { unfold accounted, echoed, appended, complained. intros ? ? [He Hl].
    cbn [effects logged]. rewrite !flat_map_app, !length_app. cbn. lia. }
  assert (Hdeed : forall w e,
             silent e = false ->
             accounted w ->
             accounted {| fs := fs w; effects := (effects w ++ [e])%list;
                          logged := logged w |}).
  { unfold accounted, echoed, appended, complained. intros ? e Hs [He Hl].
    cbn [effects logged]. rewrite !flat_map_app, !length_app.
    destruct e; try discriminate Hs; cbn; lia. }
  split.
  - apply (ends_elim _ _ _
             (kept_setup h accounted Hdisk Hconsole Hdeed accounted_logToFile
                claudeConfigPath w (fun _ w' => accounted w') Hw (fun _ _ H => H))).
  - apply (ends_elim _ _ _
             (kept_main h accounted Hdisk Hconsole Hdeed accounted_logToFile w Hw)).
Qed.

End ScriptAccounts.

Lemma X17_every_message_is_accounted_for_witness :
  Script.accounted Script.sample_world /\
  Script.accounted
    (snd (Script.setup Script.sample_host Script.sample_path Script.sample_world)) /\
  Script.accounted (snd (Script.main Script.sample_host Script.sample_world)).
Proof.
  assert (H : Script.accounted Script.sample_world) by (split; reflexivity).
  split; [exact H|].
  exact (X17_every_message_is_accounted_for Script.sample_host Script.sample_path
           Script.sample_world H).
Defined.

(** ** The command validator *)

Section ValidatorFacts.
Import Validator.

Lemma operator_free_nil : operator_free [].
Proof.
  intros pre op post Hop H. symmetry in H.
  apply app_eq_nil in H. destruct H as [_ H].
  apply app_eq_nil in H. destruct H as [H _]. subst op.
  cbn in Hop. repeat (destruct Hop as [Hop|Hop]; [discriminate Hop|]). exact Hop.
Qed.

(** A character that starts no operator here can be put in front of an
    operator-free piece. *)
Lemma operator_free_cons (c : ascii) (piece : list ascii) :
  Ascii.eqb c ";"%char || Ascii.eqb c newline = false ->
  Ascii.eqb c "|"%char = false ->
  (Ascii.eqb c "&"%char = true -> forall p, piece <> "&"%char :: p) ->
  operator_free piece ->
  operator_free (c :: piece).
Proof.
  intros H1 H2 H3 Hfree pre op post Hop Heq.
  destruct pre as [|c' pre].
  - cbn [app] in Heq. apply orb_false_iff in H1. destruct H1 as [H1a H1b].
    cbn in Hop.
    destruct Hop as [<-|[<-|[<-|[<-|[<-|[]]]]]]; cbn in Heq; injection Heq as -> Hp.
    + apply (H3 eq_refl post). exact Hp.
    + discriminate H2.
    + discriminate H1a.
    + discriminate H2.
    + rewrite Ascii.eqb_refl in H1b. discriminate H1b.
  - cbn [app] in Heq. injection Heq as _ Hp. exact (Hfree pre op post Hop Hp).
Qed.

Lemma split_push (c : ascii) (rest : list ascii) (pieces : list (list ascii)) :
  Ascii.eqb c ";"%char || Ascii.eqb c newline = false ->
  Ascii.eqb c "|"%char = false ->
  (Ascii.eqb c "&"%char = true -> forall p, rest <> "&"%char :: p) ->
  split_at_operators rest pieces ->
  split_at_operators (c :: rest) (push c pieces).
Proof.
  intros H1 H2 H3 Hsplit. destruct Hsplit as [piece Hfree|piece op rest pieces Hfree Hop Hrest].
  - cbn [push]. apply split_last. apply operator_free_cons; assumption.
  - cbn [push]. change (c :: piece ++ op ++ rest)%list with ((c :: piece) ++ op ++ rest)%list.
    apply split_next; [|exact Hop|exact Hrest].
    apply operator_free_cons; try assumption.
    intros Hc p ->. apply (H3 Hc (p ++ op ++ rest)%list). reflexivity.
Qed.

(** [split_chain] splits the line at the operators. *)
Lemma split_chain_spec (line : list ascii) :
  split_at_operators line (split_chain line).
Proof.
  remember (length line) as n eqn:Hn.
  assert (Hlen : length line <= n) by lia. clear Hn.
  revert line Hlen. induction n as [|n IH]; intros line Hlen.
  - destruct line; [|cbn in Hlen; lia]. apply split_last, operator_free_nil.
  - destruct line as [|c rest]; [apply split_last, operator_free_nil|].
    cbn [length] in Hlen. cbn [split_chain].
    destruct (Ascii.eqb c ";"%char || Ascii.eqb c newline) eqn:E1.
    { apply (split_next [] [c] rest); [apply operator_free_nil| |apply IH; lia].
      apply orb_true_iff in E1. destruct E1 as [E|E]; apply Ascii.eqb_eq in E; subst c;
        cbn; tauto. }
    destruct (Ascii.eqb c "|"%char) eqn:E2.
    { apply Ascii.eqb_eq in E2. subst c.
      destruct rest as [|c2 rest2].
      - apply (split_next [] ["|"%char] []); [apply operator_free_nil|cbn; tauto|].
        apply IH. cbn. lia.
      - destruct (Ascii.eqb c2 "|"%char) eqn:E3.
        + apply Ascii.eqb_eq in E3. subst c2.
          apply (split_next [] ["|"%char; "|"%char] rest2);
            [apply operator_free_nil|cbn; tauto|]. apply IH. cbn in Hlen. lia.
        + apply (split_next [] ["|"%char] (c2 :: rest2));
            [apply operator_free_nil|cbn; tauto|]. apply IH. lia. }
    destruct (Ascii.eqb c "&"%char) eqn:E3.
    { apply Ascii.eqb_eq in E3. subst c.
      destruct rest as [|c2 rest2].
      - apply split_push; [reflexivity|reflexivity| |apply IH; cbn; lia].
        intros _ p H. discriminate H.
      - destruct (Ascii.eqb c2 "&"%char) eqn:E4.
        + apply Ascii.eqb_eq in E4. subst c2.
          apply (split_next [] ["&"%char; "&"%char] rest2);
            [apply operator_free_nil|cbn; tauto|]. apply IH. cbn in Hlen. lia.
        + apply split_push; [reflexivity|reflexivity| |apply IH; lia].
          intros _ p [= -> _]. rewrite Ascii.eqb_refl in E4. discriminate E4. }
    apply split_push; [exact E1|exact E2| |apply IH; lia].
    intros H. congruence.
Qed.

(** [strip_path] keeps what follows the last path separator. *)
Lemma strip_path_spec (token : list ascii) :
  exists dir,
    token = (dir ++ strip_path token)%list /\
    Forall (fun c => is_path_separator c = false) (strip_path token) /\
    (dir = [] \/ exists d c, dir = (d ++ [c])%list /\ is_path_separator c = true).
Proof.
  unfold strip_path.
  assert (H : forall acc,
    Forall (fun c => is_path_separator c = false) acc ->
    exists dir,
      (acc ++ token)%list =
        (dir ++ fold_left (fun name c => if is_path_separator c then []
                                         else (name ++ [c])%list) token acc)%list /\
      Forall (fun c => is_path_separator c = false)
        (fold_left (fun name c => if is_path_separator c then []
                                  else (name ++ [c])%list) token acc) /\
      (dir = [] \/ exists d c, dir = (d ++ [c])%list /\ is_path_separator c = true)).
  { induction token as [|c token IH]; intros acc Hacc.
    - exists []. cbn. rewrite app_nil_r. split; [reflexivity|]. split; [exact Hacc|left; reflexivity].
    - cbn [fold_left]. destruct (is_path_separator c) eqn:Hc.
      + destruct (IH [] (List.Forall_nil _)) as (dir & Heq & Hno & Hdir).
        exists (acc ++ c :: dir)%list. split; [|split; [exact Hno|]].
        * cbn [app] in Heq. rewrite Heq at 1. rewrite <- app_assoc. reflexivity.
        * right. destruct Hdir as [->|(d & c' & -> & Hc')].
          -- exists acc, c. split; [reflexivity|exact Hc].
          -- exists (acc ++ c :: d)%list, c'. split; [|exact Hc'].
             rewrite <- app_assoc. reflexivity.
      + destruct (IH (acc ++ [c])%list) as (dir & Heq & Hno & Hdir).
        { apply Forall_app. split; [exact Hacc|]. constructor; [exact Hc|constructor]. }
        exists dir. split; [|split; assumption].
        rewrite <- Heq, <- app_assoc. reflexivity. }
  exact (H [] (List.Forall_nil _)).
Qed.

(** The leading token: what stands between the leading blanks and the next
    blank (or the end). *)
Lemma leading_token_spec (piece token : list ascii) :
  leading_token piece = Some token ->
  exists blanks rest,
    piece = (blanks ++ token ++ rest)%list /\
    Forall (fun c => is_space c = true) blanks /\
    Forall (fun c => is_space c = false) token /\
    token <> [] /\
    (rest = [] \/ exists c r, rest = c :: r /\ is_space c = true).
Proof.
  unfold leading_token. intros H.
  assert (Hskip : exists blanks, piece = (blanks ++ skip_spaces piece)%list /\
                                 Forall (fun c => is_space c = true) blanks).
  { clear H. induction piece as [|c piece IH]; [exists []; split; [reflexivity|constructor]|].
    cbn [skip_spaces]. destruct (is_space c) eqn:Hc.
    - destruct IH as (blanks & Heq & Hb).
      exists (c :: blanks). split; [cbn; f_equal; exact Heq|constructor; assumption].
    - exists []. split; [reflexivity|constructor]. }
  assert (Htake : forall cs, exists rest,
             cs = (take_token cs ++ rest)%list /\
             Forall (fun c => is_space c = false) (take_token cs) /\
             (rest = [] \/ exists c r, rest = c :: r /\ is_space c = true)).
  { induction cs as [|c cs IH]; [exists []; split; [reflexivity|split; [constructor|left; reflexivity]]|].
    cbn [take_token]. destruct (is_space c) eqn:Hc.
    - exists (c :: cs). split; [reflexivity|]. split; [constructor|right; eauto].
    - destruct IH as (rest & Heq & Hno & Hrest). exists rest.
      split; [cbn; f_equal; exact Heq|]. split; [constructor; assumption|exact Hrest]. }
  destruct Hskip as (blanks & Hpiece & Hblanks).
  destruct (Htake (skip_spaces piece)) as (rest & Heq & Hno & Hrest).
  destruct (take_token (skip_spaces piece)) as [|c t] eqn:Ht; [discriminate H|].
  injection H as <-. exists blanks, rest.
  split; [rewrite Hpiece at 1; rewrite Heq at 1; reflexivity|].
  split; [exact Hblanks|]. split; [exact Hno|]. split; [discriminate|exact Hrest].
Qed.

(** A sub-command is blocked exactly when its executable equals one of the
    patterns up to case. *)
Lemma blocked_iff (blockedPatterns : list string) (piece : list ascii) :
  blocked blockedPatterns piece = true <->
  exists token pattern,
    leading_token piece = Some token /\ In pattern blockedPatterns /\
    lowercase (strip_path token) = lowercase (list_ascii_of_string pattern).
Proof.
  unfold blocked, executable. destruct (leading_token piece) as [token|].
  - rewrite existsb_exists. split.
    + intros (pattern & Hin & Hm). exists token, pattern.
      split; [reflexivity|]. split; [exact Hin|].
      unfold matches in Hm. apply bool_decide_eq_true_1 in Hm. exact Hm.
    + intros (token' & pattern & [= <-] & Hin & Hm). exists pattern.
      split; [exact Hin|]. unfold matches. apply bool_decide_eq_true_2. exact Hm.
  - split; [discriminate|]. intros (token & pattern & H & _). discriminate H.
Qed.

End ValidatorFacts.

(** ** The session manager *)

Section ManagerFacts.
Import Manager.
Variable cfg : Config.

(** A registered session after one step is [session_step] of what it was. *)
Lemma step_lookup (st : State) (e : Event) (sid : nat) (s : Session) :
  wf st ->
  sessions st !! sid = Some s ->
  sessions (fst (step cfg st e)) !! sid = Some (session_step sid (now st) (awaited sid st) e s).
Proof.
  intros Hwf Hs. destruct e as [cmd t wd os|sid' str chunk|sid' failed code|sid'
                               |caller sid'|sid' os|sid'| |snap|target os|ms];
    cbn [step session_step].
  - unfold execute.
    destruct (Validator.validate _ _); [|exact Hs].
    destruct (negb _); [exact Hs|].
    destruct os as [p|d]; cbn; [|exact Hs].
    rewrite lookup_insert_ne; [exact Hs|].
    destruct (Hwf _ _ Hs) as (_ & Hlt & _). lia.
  - unfold onOutput. by_sid sid' sid.
    + rewrite Hs. destruct (terminal (status s)); cbn; [exact Hs|].
      apply lookup_insert_eq.
    + destruct (sessions st !! sid') as [s0|]; [|exact Hs].
      destruct (terminal (status s0)); cbn; [exact Hs|].
      rewrite lookup_insert_ne by congruence. exact Hs.
  - unfold onExit. by_sid sid' sid.
    + rewrite Hs.
      destruct (bool_decide _), (terminal (status s)), (awaited sid st); cbn;
        apply lookup_insert_eq.
    + destruct (sessions st !! sid') as [s0|]; [|exact Hs].
      destruct (bool_decide _); cbn; rewrite lookup_insert_ne by congruence; exact Hs.
  - unfold onTimeout. destruct (bool_decide _); [|exact Hs].
    destruct (sessions st !! sid'); exact Hs.
  - unfold readOutput. by_sid sid' sid.
    + rewrite Hs. cbn. apply lookup_insert_eq.
    + destruct (sessions st !! sid') as [s0|]; [|exact Hs].
      cbn. rewrite lookup_insert_ne by congruence. exact Hs.
  - unfold terminate. destruct os; by_sid sid' sid.
    + rewrite Hs. destruct (terminal (status s)); exact Hs.
    + destruct (sessions st !! sid') as [s0|]; [|exact Hs].
      destruct (terminal (status s0)); exact Hs.
    + rewrite Hs. destruct (terminal (status s)); cbn; [exact Hs|].
      apply lookup_insert_eq.
    + destruct (sessions st !! sid') as [s0|]; [|exact Hs].
      destruct (terminal (status s0)); cbn; [exact Hs|].
      rewrite lookup_insert_ne by congruence. exact Hs.
  - unfold onGraceElapsed.
    destruct (sessions st !! sid') as [s0|]; [|exact Hs].
    destruct (escalate sid' (attempts st)); [|exact Hs].
    destruct (terminal (status s0)); exact Hs.
  - exact Hs.
  - exact Hs.
  - unfold killProcess. destruct os; cbn; [|exact Hs|exact Hs].
    rewrite lookup_fmap, Hs. reflexivity.
  - exact Hs.
Qed.

(** An unregistered id stays unregistered, unless the step is the
    [execute] that registers it: then it is the counter's value and the
    session starts [Running], with empty buffers and the cursor at zero. *)
Lemma step_lookup_None (st : State) (e : Event) (sid : nat) :
  sessions st !! sid = None ->
  sessions (fst (step cfg st e)) !! sid = None \/
  exists s', sessions (fst (step cfg st e)) !! sid = Some s' /\
             sid = nextId st /\ id s' = sid /\ status s' = Running /\
             stdoutBuffer s' = [] /\ stderrBuffer s' = [] /\
             outputCursor s' = (0, 0) /\
             nextId (fst (step cfg st e)) = S (nextId st) /\
             exists cmd t wd p, e = Execute cmd t wd (Spawned p).
Proof.
  intros Hs. destruct e as [cmd t wd os|sid' str chunk|sid' failed code|sid'
                           |caller sid'|sid' os|sid'| |snap|target os|ms];
    cbn [step].
  - unfold execute.
    destruct (Validator.validate _ _); [|left; exact Hs].
    destruct (negb _); [left; exact Hs|].
    destruct os as [p|d]; cbn; [|left; exact Hs].
    destruct (decide (nextId st = sid)) as [<-|Hne].
    + right. eexists. rewrite lookup_insert_eq. split; [reflexivity|].
      cbn. repeat split; eauto.
    + left. rewrite lookup_insert_ne by exact Hne. exact Hs.
  - left. unfold onOutput.
    destruct (sessions st !! sid') as [s0|] eqn:H0; [|exact Hs].
    destruct (terminal (status s0)); cbn; [exact Hs|].
    rewrite lookup_insert_ne by congruence. exact Hs.
  - left. unfold onExit.
    destruct (sessions st !! sid') as [s0|] eqn:H0; [|exact Hs].
    destruct (bool_decide _); cbn; rewrite lookup_insert_ne by congruence; exact Hs.
  - left. unfold onTimeout. destruct (bool_decide _); [|exact Hs].
    destruct (sessions st !! sid'); exact Hs.
  - left. unfold readOutput.
    destruct (sessions st !! sid') as [s0|] eqn:H0; [|exact Hs].
    cbn. rewrite lookup_insert_ne by congruence. exact Hs.
  - left. unfold terminate.
    destruct (sessions st !! sid') as [s0|] eqn:H0; [|exact Hs].
    destruct (terminal (status s0)); cbn; [exact Hs|].
    destruct os; cbn; [exact Hs|].
    rewrite lookup_insert_ne by congruence. exact Hs.
  - left. unfold onGraceElapsed.
    destruct (sessions st !! sid') as [s0|]; [|exact Hs].
    destruct (escalate sid' (attempts st)); [|exact Hs].
    destruct (terminal (status s0)); exact Hs.
  - left. exact Hs.
  - left. exact Hs.
  - left. unfold killProcess. destruct os; cbn; [|exact Hs|exact Hs].
    rewrite lookup_fmap, Hs. reflexivity.
  - left. exact Hs.
Qed.

(** The id counter never goes back. *)
Lemma step_nextId (st : State) (e : Event) :
  nextId st <= nextId (fst (step cfg st e)).
Proof.
  destruct e as [cmd t wd os|sid' str chunk|sid' failed code|sid'
                |caller sid'|sid' os|sid'| |snap|target os|ms]; cbn [step].
  - unfold execute. destruct (Validator.validate _ _); [|cbn; lia].
    destruct (negb _); [cbn; lia|]. destruct os; cbn; lia.
  - unfold onOutput. destruct (sessions st !! sid') as [s0|]; [|cbn; lia].
    destruct (terminal _); cbn; lia.
  - unfold onExit. destruct (sessions st !! sid') as [s0|]; [|cbn; lia].
    destruct (bool_decide _); cbn; lia.
  - unfold onTimeout. destruct (bool_decide _); [|cbn; lia].
    destruct (sessions st !! sid'); cbn; lia.
  - unfold readOutput. destruct (sessions st !! sid'); cbn; lia.
  - unfold terminate. destruct (sessions st !! sid'); [|cbn; lia].
    destruct (terminal _); cbn; [lia|]. destruct os; cbn; lia.
  - unfold onGraceElapsed. destruct (sessions st !! sid') as [s0|]; [|cbn; lia].
    destruct (escalate sid' (attempts st)); [|cbn; lia].
    destruct (terminal _); cbn; lia.
  - cbn; lia.
  - cbn; lia.
  - unfold killProcess. destruct os; cbn; lia.
  - cbn; lia.
Qed.

(** One event keeps a session's identity and its cursors within bounds. *)
Lemma session_step_keeps (sid at_time : nat) (waited_for : bool) (e : Event) (s : Session) :
  fst (outputCursor s) <= length (stdoutBuffer s) ->
  snd (outputCursor s) <= length (stderrBuffer s) ->
  id (session_step sid at_time waited_for e s) = id s /\
  pid (session_step sid at_time waited_for e s) = pid s /\
  fst (outputCursor (session_step sid at_time waited_for e s))
    <= length (stdoutBuffer (session_step sid at_time waited_for e s)) /\
  snd (outputCursor (session_step sid at_time waited_for e s))
    <= length (stderrBuffer (session_step sid at_time waited_for e s)).
Proof.
  intros H1 H2.
  destruct e as [cmd t wd os|sid' str chunk|sid' failed code|sid'
                |caller sid'|sid' os|sid'| |snap|target os|ms]; cbn [session_step];
    try (repeat split; assumption).
  - destruct (_ && _); [|repeat split; assumption].
    destruct str; cbn; rewrite ?length_app; repeat split; lia.
  - destruct (_ && _); [destruct waited_for|]; cbn; repeat split; assumption.
  - destruct (Nat.eqb sid' sid); cbn; repeat split; try assumption; lia.
  - destruct os; [repeat split; assumption|].
    destruct (_ && _); cbn; repeat split; assumption.
  - destruct os; try (repeat split; assumption).
    unfold reconcile. destruct (_ && _); cbn; repeat split; assumption.
Qed.

Lemma wf_initial : wf initial.
Proof. intros sid s H. cbn in H. rewrite lookup_empty in H. discriminate H. Qed.

Lemma wf_step (st : State) (e : Event) : wf st -> wf (fst (step cfg st e)).
Proof.
  intros Hwf sid s' Hs'.
  pose proof (step_nextId st e) as Hn.
  destruct (sessions st !! sid) as [s|] eqn:Hs.
  - rewrite (step_lookup st e sid s Hwf Hs) in Hs'. injection Hs' as <-.
    destruct (Hwf _ _ Hs) as (Hid & Hlt & Hc1 & Hc2).
    destruct (session_step_keeps sid (now st) (awaited sid st) e s Hc1 Hc2) as (Hid' & _ & Hc1' & Hc2').
    repeat split; [congruence | lia | exact Hc1' | exact Hc2'].
  - destruct (step_lookup_None st e sid Hs)
      as [Hnone|(s0 & Hs0 & Hsid & Hid & _ & Hb1 & Hb2 & Hc & Hnext & _)].
    + rewrite Hnone in Hs'. discriminate Hs'.
    + rewrite Hs0 in Hs'. injection Hs' as <-.
      rewrite Hb1, Hb2, Hc, Hnext. cbn. repeat split; try lia; assumption.
Qed.

Lemma wf_after (st : State) (events : list Event) : wf st -> wf (after cfg st events).
Proof.
  revert st. induction events as [|e rest IH]; intros st Hwf; [exact Hwf|].
  unfold after in *. cbn [run].
  destruct (step cfg st e) as [st1 rs] eqn:Hstep.
  specialize (IH st1). destruct (run cfg st1 rest) as [st2 tr] eqn:Hrun.
  cbn in *. apply IH. replace st1 with (fst (step cfg st e)) by (rewrite Hstep; reflexivity).
  apply wf_step. exact Hwf.
Qed.

(** C5. In every state of the Registry, [listSessions] holds one entry for
    each session whose status is [Running] at that moment, and nothing else:
    no entry has status [Completed], [Terminated] or [Failed], and no
    session is listed twice. *)
Theorem C5_listSessions_exactly_running (st : State) (info : SessionInfo) :
  step cfg st ListSessions = (st, [SessionList (listSessions st)]) /\
  (In info (listSessions st) <->
   exists sid s, sessions st !! sid = Some s /\ status s = Running /\
                 info = info_of (now st) (sid, s)) /\
  (In info (listSessions st) ->
   info_status info = Running /\ info_status info <> Completed /\
   info_status info <> Terminated /\ info_status info <> Failed) /\
  List.NoDup (map info_id (listSessions st)).
Proof.
  assert (Hiff : In info (listSessions st) <->
    exists sid s, sessions st !! sid = Some s /\ status s = Running /\
                  info = info_of (now st) (sid, s)).
  { unfold listSessions. rewrite in_map_iff. split.
    - intros ([sid s] & <- & Hin). apply filter_In in Hin. destruct Hin as [Hin Hrun].
      apply list_elem_of_In, elem_of_map_to_list in Hin.
      exists sid, s. split; [exact Hin|]. split; [|reflexivity].
      unfold is_running in Hrun. cbn in Hrun. destruct (status s); cbn in Hrun; congruence.
    - intros (sid & s & Hs & Hrun & ->). exists (sid, s). split; [reflexivity|].
      apply filter_In. split.
      + apply list_elem_of_In, elem_of_map_to_list. exact Hs.
      + unfold is_running. cbn. rewrite Hrun. reflexivity. }
  split; [reflexivity|]. split; [exact Hiff|]. split.
  - intros Hin. apply Hiff in Hin. destruct Hin as (sid & s & _ & Hrun & ->).
    cbn. rewrite Hrun. repeat split; discriminate.
  - unfold listSessions. rewrite map_map.
    pose proof (NoDup_fst_map_to_list (sessions st)) as Hfst.
    revert Hfst. generalize (map_to_list (sessions st)) as l.
    induction l as [|[k v] l IH]; intros Hnd; [constructor|].
    rewrite fmap_cons in Hnd. apply NoDup_cons in Hnd. destruct Hnd as [Hnotin Hnd].
    cbn [List.filter]. destruct (is_running (k, v)); [|apply IH; exact Hnd].
    cbn [map]. constructor; [|apply IH; exact Hnd].
    intros Hin. apply Hnotin. apply in_map_iff in Hin.
    destruct Hin as ([k' v'] & Hk & Hin). cbn in Hk. subst k'.
    apply filter_In in Hin. destruct Hin as [Hin _].
    apply list_elem_of_fmap. exists (k, v'). split; [reflexivity|].
    apply list_elem_of_In. exact Hin.
Qed.

(** One event moves a session's status only from [Running], and only to a
    terminal status. *)
Lemma session_step_status (sid at_time : nat) (waited_for : bool) (e : Event) (s : Session) :
  status (session_step sid at_time waited_for e s) = status s \/
  (status s = Running /\ terminal (status (session_step sid at_time waited_for e s)) = true).
Proof.
  destruct e as [cmd t wd os|sid' str chunk|sid' failed code|sid'
                |caller sid'|sid' os|sid'| |snap|target os|ms]; cbn [session_step];
    try (left; reflexivity).
  - destruct (_ && _); left; [destruct str|]; reflexivity.
  - destruct (Nat.eqb sid' sid); cbn [andb]; [|left; reflexivity].
    destruct (status s) eqn:Hst; cbn; try (left; exact Hst).
    right. split; [reflexivity|]. destruct waited_for, failed; reflexivity.
  - destruct (Nat.eqb sid' sid); left; reflexivity.
  - destruct os; [left; reflexivity|].
    destruct (Nat.eqb sid' sid); cbn [andb]; [|left; reflexivity].
    destruct (status s) eqn:Hst; cbn; try (left; exact Hst).
    right. split; reflexivity.
  - destruct os; try (left; reflexivity). unfold reconcile.
    destruct (status s) eqn:Hst; cbn; try (left; exact Hst).
    destruct (Nat.eqb (pid s) target); cbn; [|left; exact Hst].
    right. split; reflexivity.
Qed.

Lemma step_lifecycle (st : State) (e : Event) (sid : nat) :
  wf st ->
  lifecycle_step (status_of st sid) (status_of (fst (step cfg st e)) sid).
Proof.
  intros Hwf. unfold status_of, lifecycle_step.
  destruct (sessions st !! sid) as [s|] eqn:Hs.
  - rewrite (step_lookup st e sid s Hwf Hs). cbn.
    destruct (session_step_status sid (now st) (awaited sid st) e s) as [Heq|[Hrun Hterm]].
    + left. rewrite Heq. reflexivity.
    + right. right. rewrite Hrun. split; [reflexivity|]. eauto.
  - destruct (step_lookup_None st e sid Hs) as [Hn|(s' & Hs' & _ & _ & Hrun & _)].
    + left. rewrite Hn. reflexivity.
    + right. left. rewrite Hs'. cbn. rewrite Hrun. split; reflexivity.
Qed.

Lemma status_history_cons (st : State) (e : Event) (rest : list Event) (sid : nat) :
  status_history cfg st (e :: rest) sid =
  status_of st sid :: status_history cfg (fst (step cfg st e)) rest sid.
Proof. reflexivity. Qed.

Lemma status_history_head (st : State) (events : list Event) (sid : nat) :
  exists tl, status_history cfg st events sid = status_of st sid :: tl.
Proof. destruct events; eexists; reflexivity. Qed.

(** A terminal status is final: every later entry of the history repeats it. *)
Lemma terminal_forever (st : State) (events : list Event) (sid : nat) (t : Status) :
  wf st -> status_of st sid = Some t -> terminal t = true ->
  Forall (fun x => x = Some t) (status_history cfg st events sid).
Proof.
  revert st. induction events as [|e rest IH]; intros st Hwf Hst Ht.
  - cbn. constructor; [exact Hst|constructor].
  - rewrite status_history_cons. constructor; [exact Hst|].
    apply IH; [apply wf_step; exact Hwf| |exact Ht].
    destruct (step_lifecycle st e sid Hwf) as [Heq|[[Hn _]|[Hr _]]].
    + rewrite <- Heq. exact Hst.
    + rewrite Hst in Hn. discriminate Hn.
    + rewrite Hst in Hr. injection Hr as ->. discriminate Ht.
Qed.

Lemma transitions_cons (a b : option Status) (rest : list (option Status)) :
  transitions (a :: b :: rest) =
  match a with
  | Some _ => if bool_decide (a = b) then 0 else 1
  | None => 0
  end + transitions (b :: rest).
Proof. reflexivity. Qed.

Lemma transitions_constant (x : option Status) (h : list (option Status)) :
  Forall (fun y => y = x) h -> transitions h = 0.
Proof.
  induction h as [|a [|b h'] IH]; intros Hall; [reflexivity|reflexivity|].
  inversion Hall as [|? ? Ha Hall']; subst.
  inversion Hall' as [|? ? Hb _]; subst.
  rewrite transitions_cons, (IH Hall').
  destruct x; [rewrite bool_decide_eq_true_2 by reflexivity|]; reflexivity.
Qed.

Lemma transitions_at_most_one (st : State) (events : list Event) (sid : nat) :
  wf st -> transitions (status_history cfg st events sid) <= 1.
Proof.
  revert st. induction events as [|e rest IH]; intros st Hwf; [cbn; lia|].
  rewrite status_history_cons.
  pose proof (wf_step st e Hwf) as Hwf1.
  destruct (status_history_head (fst (step cfg st e)) rest sid) as [tl Htl].
  specialize (IH _ Hwf1). rewrite Htl in *. rewrite transitions_cons.
  destruct (step_lifecycle st e sid Hwf) as [Heq|[[Hn _]|[Hr (t & Hb & Ht)]]].
  - rewrite <- Heq. rewrite <- Heq in IH.
    destruct (status_of st sid); [rewrite bool_decide_eq_true_2 by reflexivity|]; exact IH.
  - rewrite Hn. exact IH.
  - rewrite Hr, Hb. rewrite bool_decide_eq_false_2.
    + rewrite <- Hb, <- Htl.
      rewrite (transitions_constant (Some t)); [lia|].
      apply terminal_forever; assumption.
    + intros [= <-]. discriminate Ht.
Qed.

(** C4. Along every run from a well-formed state, the status of a session
    is registered as [Running], changes at most once, and only from
    [Running] to one of [Completed], [Terminated], [Failed]; once terminal
    it is the same in every later state, whatever happens (exit callbacks,
    [terminate], [killProcess], reads, timers). *)
Theorem C4_status_one_terminal_transition (st : State) (events : list Event) (sid : nat) :
  wf st ->
  (forall i a b,
      status_history cfg st events sid !! i = Some a ->
      status_history cfg st events sid !! S i = Some b ->
      lifecycle_step a b) /\
  (forall i j t x, i <= j ->
      status_history cfg st events sid !! i = Some (Some t) ->
      terminal t = true ->
      status_history cfg st events sid !! j = Some x ->
      x = Some t) /\
  transitions (status_history cfg st events sid) <= 1.
Proof.
  intros Hwf. split; [|split].
  - revert st Hwf. induction events as [|e rest IH]; intros st Hwf i a b Ha Hb.
    + destruct i; cbn in Hb; discriminate Hb.
    + rewrite status_history_cons in Ha, Hb. destruct i as [|i].
      * cbn in Ha, Hb. injection Ha as <-.
        destruct (status_history_head (fst (step cfg st e)) rest sid) as [tl Htl].
        rewrite Htl in Hb. cbn in Hb. injection Hb as <-.
        apply step_lifecycle. exact Hwf.
      * cbn in Ha, Hb. eapply IH; [apply wf_step; exact Hwf|exact Ha|exact Hb].
  - revert st Hwf. induction events as [|e rest IH]; intros st Hwf i j t x Hij Hi Ht Hj.
    + destruct i; [|cbn in Hi; destruct i; discriminate Hi].
      destruct j; [cbn in Hi, Hj; congruence|cbn in Hj; destruct j; discriminate Hj].
    + destruct i as [|i].
      * rewrite status_history_cons in Hi. cbn in Hi. injection Hi as Hi.
        pose proof (terminal_forever st (e :: rest) sid t Hwf Hi Ht) as Hall.
        rewrite Forall_forall in Hall. apply Hall.
        eapply list_elem_of_lookup_2. exact Hj.
      * destruct j as [|j]; [lia|].
        rewrite status_history_cons in Hi, Hj. cbn in Hi, Hj.
        eapply (IH _ (wf_step st e Hwf) i j); [lia|exact Hi|exact Ht|exact Hj].
  - apply transitions_at_most_one. exact Hwf.
Qed.

Lemma run_cons (st : State) (e : Event) (rest : list Event) :
  run cfg st (e :: rest) =
  (fst (run cfg (fst (step cfg st e)) rest),
   (e, snd (step cfg st e)) :: snd (run cfg (fst (step cfg st e)) rest)).
Proof.
  cbn [run]. destruct (step cfg st e) as [st1 rs]. cbn [fst snd].
  destruct (run cfg st1 rest) as [st2 tr]. reflexivity.
Qed.

Lemma after_cons (st : State) (e : Event) (rest : list Event) :
  after cfg st (e :: rest) = after cfg (fst (step cfg st e)) rest.
Proof. unfold after. rewrite run_cons. reflexivity. Qed.

Lemma after_app (st : State) (ev1 ev2 : list Event) :
  after cfg st (ev1 ++ ev2) = after cfg (after cfg st ev1) ev2.
Proof.
  revert st. induction ev1 as [|e rest IH]; intros st; [reflexivity|].
  rewrite <- app_comm_cons, !after_cons. apply IH.
Qed.

Lemma trace_app (st : State) (ev1 ev2 : list Event) :
  snd (run cfg st (ev1 ++ ev2)) =
  (snd (run cfg st ev1) ++ snd (run cfg (after cfg st ev1) ev2))%list.
Proof.
  revert st. induction ev1 as [|e rest IH]; intros st; [reflexivity|].
  rewrite <- app_comm_cons, !run_cons, after_cons. cbn [snd].
  rewrite IH. reflexivity.
Qed.

Lemma produced_app (st : State) (ev1 ev2 : list Event) (sid : nat) (stream : Stream) :
  produced cfg st (ev1 ++ ev2) sid stream =
  (produced cfg st ev1 sid stream ++ produced cfg (after cfg st ev1) ev2 sid stream)%list.
Proof.
  revert st. induction ev1 as [|e rest IH]; intros st; [reflexivity|].
  rewrite <- app_comm_cons, after_cons. cbn [produced].
  rewrite IH, app_assoc. reflexivity.
Qed.

Lemma delivered_cons (sid : nat) (stream : Stream) (entry : Event * list Response)
    (trace : list (Event * list Response)) :
  delivered sid stream (entry :: trace) =
  (delivered sid stream [entry] ++ delivered sid stream trace)%list.
Proof. unfold delivered. cbn [flat_map]. rewrite app_nil_r. reflexivity. Qed.

Lemma delivered_app (sid : nat) (stream : Stream) (t1 t2 : list (Event * list Response)) :
  delivered sid stream (t1 ++ t2) =
  (delivered sid stream t1 ++ delivered sid stream t2)%list.
Proof. unfold delivered. apply flat_map_app. Qed.

Lemma not_terminal_Running (x : Status) : negb (terminal x) = true <-> x = Running.
Proof. destruct x; cbn; split; congruence. Qed.

(** What one read of a registered session returns and leaves behind. *)
Lemma readOutput_registered (st : State) (sid : nat) (s : Session) :
  sessions st !! sid = Some s ->
  readOutput sid st =
  (with_sessions (<[sid := acknowledge s]> (sessions st)) st,
   [OutputSlice (drop (cursor s Stdout) (buffer s Stdout))
                (drop (cursor s Stderr) (buffer s Stderr))
                (status s)
                (if terminal (status s) && negb (exitReported s)
                 then exitCode s else None)]).
Proof. intros Hs. unfold readOutput. rewrite Hs. reflexivity. Qed.

(** The books of one step, for one registered session and one stream: the
    buffer grows by what the process produced, the acknowledged prefix by
    what a read delivered. *)
Lemma step_accounting (st : State) (e : Event) (sid : nat) (s : Session)
    (stream : Stream) :
  cursor s stream <= length (buffer s stream) ->
  sessions st !! sid = Some s ->
  buffer (session_step sid (now st) (awaited sid st) e s) stream =
    (buffer s stream ++ produced cfg st [e] sid stream)%list /\
  take (cursor (session_step sid (now st) (awaited sid st) e s) stream)
       (buffer (session_step sid (now st) (awaited sid st) e s) stream) =
    (take (cursor s stream) (buffer s stream)
     ++ delivered sid stream [(e, snd (step cfg st e))])%list.
Proof.
  intros Hc Hs.
  assert (Hst : status_of st sid = Some (status s)).
  { unfold status_of. rewrite Hs. reflexivity. }
  destruct e as [cmd t wd os|sid' str chunk|sid' failed code|sid'
                |caller sid'|sid' os|sid'| |snap|target os|ms];
    cbn [session_step produced delivered flat_map fst snd step];
    rewrite ?app_nil_r.
  - split; reflexivity.
  - rewrite Hst.
    destruct (Nat.eqb sid' sid); cbn [andb]; [|rewrite app_nil_r; split; reflexivity].
    destruct (terminal (status s)) eqn:Ht; cbn [negb].
    + rewrite (bool_decide_eq_false_2 (Some (status s) = Some Running)).
      * rewrite andb_false_r, app_nil_r. split; reflexivity.
      * intros [= Hrun]. rewrite Hrun in Ht. discriminate Ht.
    + rewrite (bool_decide_eq_true_2 (Some (status s) = Some Running)).
      * rewrite andb_true_r.
        destruct str, stream; cbn;
          rewrite ?bool_decide_eq_true_2 by reflexivity;
          rewrite ?bool_decide_eq_false_2 by discriminate;
          rewrite ?app_nil_r; split; try reflexivity.
        -- apply take_app_le. exact Hc.
        -- apply take_app_le. exact Hc.
      * f_equal. apply not_terminal_Running. rewrite Ht. reflexivity.
  - destruct (_ && _); [destruct (awaited sid st)|]; split; destruct stream; reflexivity.
  - split; reflexivity.
  - destruct (Nat.eqb sid' sid) eqn:E.
    + apply Nat.eqb_eq in E. subst sid'.
      rewrite (readOutput_registered st sid s Hs). cbn [snd flat_map slice].
      rewrite !app_nil_r. split; [destruct stream; reflexivity|].
      destruct stream; cbn [cursor buffer acknowledge outputCursor stdoutBuffer
                            stderrBuffer fst snd];
        rewrite firstn_all, take_drop; reflexivity.
    + rewrite app_nil_r. split; reflexivity.
  - destruct os; [split; reflexivity|].
    destruct (_ && _); split; destruct stream; reflexivity.
  - split; reflexivity.
  - split; reflexivity.
  - split; reflexivity.
  - destruct os; try (split; reflexivity).
    unfold reconcile. destruct (_ && _); split; destruct stream; reflexivity.
  - split; reflexivity.
Qed.

(** The books of a whole run. *)
Lemma run_accounting (events : list Event) (st : State) (sid : nat) (s : Session) :
  wf st ->
  sessions st !! sid = Some s ->
  exists s', sessions (after cfg st events) !! sid = Some s' /\
    forall stream,
      buffer s' stream = (buffer s stream ++ produced cfg st events sid stream)%list /\
      take (cursor s' stream) (buffer s' stream) =
        (take (cursor s stream) (buffer s stream)
         ++ delivered sid stream (snd (run cfg st events)))%list /\
      cursor s' stream <= length (buffer s' stream).
Proof.
  revert st s. induction events as [|e rest IH]; intros st s Hwf Hs.
  - exists s. split; [exact Hs|]. intros stream. cbn. rewrite !app_nil_r.
    split; [reflexivity|]. split; [reflexivity|].
    destruct (Hwf _ _ Hs) as (_ & _ & H1 & H2). destruct stream; assumption.
  - pose proof (step_lookup st e sid s Hwf Hs) as Hs1.
    destruct (IH _ _ (wf_step st e Hwf) Hs1) as (s' & Hs' & Hbooks).
    exists s'. rewrite after_cons. split; [exact Hs'|].
    intros stream. destruct (Hbooks stream) as (Hb & Ht & Hc).
    assert (Hc0 : cursor s stream <= length (buffer s stream)).
    { destruct (Hwf _ _ Hs) as (_ & _ & H1 & H2). destruct stream; assumption. }
    destruct (step_accounting st e sid s stream Hc0 Hs) as (Hb1 & Ht1).
    split; [|split; [|exact Hc]].
    + rewrite Hb, Hb1. cbn [produced]. rewrite app_nil_r, app_assoc. reflexivity.
    + rewrite run_cons. cbn [snd]. rewrite delivered_cons, Ht, Ht1, app_assoc.
      reflexivity.
Qed.

(** While no buffer has reached its retention bound (which this model
    leaves out): a read of a registered session returns, for each buffer,
    exactly what lies after the session's cursor, and moves the cursor to
    the buffer's end. Hence along any run, with reads by any callers mixed
    with any other events: the buffer only grows, by what the process
    produced; what the reads delivered, put together in call order, is
    exactly the stretch of the buffer between the cursor at the start and
    the cursor at the end; and one more read completes it to everything
    produced. *)
Lemma reads_deliver_in_order (st : State) (events : list Event)
    (sid caller : nat) (s : Session) :
  wf st ->
  sessions st !! sid = Some s ->
  step cfg st (ReadOutput caller sid) =
    (with_sessions (<[sid := acknowledge s]> (sessions st)) st,
     [OutputSlice (drop (cursor s Stdout) (buffer s Stdout))
                  (drop (cursor s Stderr) (buffer s Stderr))
                  (status s)
                  (if terminal (status s) && negb (exitReported s)
                   then exitCode s else None)]) /\
  (forall stream,
      cursor (acknowledge s) stream = length (buffer (acknowledge s) stream) /\
      buffer (acknowledge s) stream = buffer s stream) /\
  exists s', sessions (after cfg st events) !! sid = Some s' /\
    forall stream,
      buffer s' stream = (buffer s stream ++ produced cfg st events sid stream)%list /\
      take (cursor s' stream) (buffer s' stream) =
        (take (cursor s stream) (buffer s stream)
         ++ delivered sid stream (snd (run cfg st events)))%list /\
      (take (cursor s stream) (buffer s stream)
       ++ delivered sid stream (snd (run cfg st events))
       ++ drop (cursor s' stream) (buffer s' stream))%list =
        (buffer s stream ++ produced cfg st events sid stream)%list /\
      delivered sid stream (snd (run cfg st (events ++ [ReadOutput caller sid]))) =
        (drop (cursor s stream) (buffer s stream)
         ++ produced cfg st events sid stream)%list.
Proof.
  intros Hwf Hs.
  split; [exact (readOutput_registered st sid s Hs)|].
  split; [intros stream; destruct stream; split; reflexivity|].
  destruct (run_accounting events st sid s Hwf Hs) as (s' & Hs' & Hbooks).
  exists s'. split; [exact Hs'|]. intros stream.
  destruct (Hbooks stream) as (Hb & Ht & Hc).
  assert (Hall : (take (cursor s stream) (buffer s stream)
       ++ delivered sid stream (snd (run cfg st events))
       ++ drop (cursor s' stream) (buffer s' stream))%list =
        (buffer s stream ++ produced cfg st events sid stream)%list).
  { rewrite app_assoc, <- Ht, take_drop. exact Hb. }
  split; [exact Hb|]. split; [exact Ht|]. split; [exact Hall|].
  rewrite trace_app, delivered_app.
  assert (Hlast : delivered sid stream
                    (snd (run cfg (after cfg st events) [ReadOutput caller sid])) =
                  drop (cursor s' stream) (buffer s' stream)).
  { cbn [run step]. rewrite (readOutput_registered _ sid s' Hs').
    unfold delivered. cbn [flat_map fst snd slice]. rewrite Nat.eqb_refl.
    cbn [flat_map slice]. rewrite !app_nil_r. destruct stream; reflexivity. }
  rewrite Hlast.
  apply (app_inv_head (take (cursor s stream) (buffer s stream))).
  rewrite Hall, app_assoc, take_drop. reflexivity.
Qed.









(** Escalation changes the stage of an attempt, not the attempts there are. *)
Lemma escalate_sessions (sid : nat) (pending escalated : list (nat * Stage)) :
  escalate sid pending = Some escalated -> map fst escalated = map fst pending.
Proof.
  revert escalated. induction pending as [|[sid' stage] rest IH]; intros escalated H.
  - discriminate H.
  - cbn [escalate] in H. destruct stage.
    + destruct (Nat.eqb sid' sid).
      * injection H as <-. reflexivity.
      * destruct (escalate sid rest) as [rest'|]; [|discriminate H].
        injection H as <-. cbn. rewrite (IH rest' eq_refl). reflexivity.
    + destruct (escalate sid rest) as [rest'|]; [|discriminate H].
      injection H as <-. cbn. rewrite (IH rest' eq_refl). reflexivity.
Qed.

Lemma awaited_by_sessions (sid : nat) (st st' : State) :
  map fst (attempts st') = map fst (attempts st) -> awaited sid st' = awaited sid st.
Proof.
  unfold awaited. generalize (attempts st) as l. generalize (attempts st') as l'.
  induction l' as [|a' l' IH]; intros [|a l] H; try discriminate H; [reflexivity|].
  cbn [map] in H. injection H as Ha Hl. cbn [existsb]. rewrite Ha, (IH l Hl).
  reflexivity.
Qed.

(** A suspended [terminate] call stays suspended until the exit
    notification of its session is served. *)
Lemma awaited_step (st : State) (e : Event) (sid : nat) :
  awaited sid st = true -> before_exit sid e = true ->
  awaited sid (fst (step cfg st e)) = true.
Proof.
  intros Hw Hb.
  destruct e as [cmd t wd os|sid' str chunk|sid' failed code|sid'
                |caller sid'|sid' os|sid'| |snap|target os|ms];
    cbn [step before_exit] in *.
  - unfold execute. destruct (Validator.validate _ _); [|exact Hw].
    destruct (negb _); [exact Hw|]. destruct os; exact Hw.
  - unfold onOutput. destruct (sessions st !! sid'); [|exact Hw].
    destruct (terminal _); exact Hw.
  - unfold onExit. destruct (sessions st !! sid'); [|exact Hw].
    assert (Hkept : existsb (fun attempt => Nat.eqb (fst attempt) sid)
                      (attempts_elsewhere sid' st) = true).
    { unfold awaited in Hw. apply existsb_exists in Hw.
      destruct Hw as ([x stage] & Hin & Hx). cbn [fst] in Hx.
      apply existsb_exists. exists (x, stage). split; [|exact Hx].
      unfold attempts_elsewhere. apply filter_In. split; [exact Hin|].
      cbn [fst]. apply Nat.eqb_eq in Hx. subst x. rewrite Nat.eqb_sym. exact Hb. }
    destruct (bool_decide _); exact Hkept.
  - unfold onTimeout. destruct (bool_decide _); [|exact Hw].
    destruct (sessions st !! sid'); exact Hw.
  - unfold readOutput. destruct (sessions st !! sid'); exact Hw.
  - unfold terminate. destruct (sessions st !! sid'); [|exact Hw].
    destruct (terminal _); [exact Hw|]. destruct os; [|exact Hw].
    unfold awaited in *. cbn [fst with_attempts log_os attempts].
    rewrite existsb_app, Hw. reflexivity.
  - unfold onGraceElapsed. destruct (sessions st !! sid'); [|exact Hw].
    destruct (escalate sid' (attempts st)) as [pending|] eqn:He; [|exact Hw].
    destruct (terminal _); [exact Hw|].
    rewrite <- Hw. apply awaited_by_sessions. cbn [fst with_attempts log_os attempts].
    apply (escalate_sessions _ _ _ He).
  - exact Hw.
  - exact Hw.
  - unfold killProcess. destruct os; exact Hw.
  - exact Hw.
Qed.

(** Before the exit notification, nothing makes a session [Completed] or
    [Failed]: its status stays as it is or becomes [Terminated]. *)
Lemma session_step_before_exit (sid at_time : nat) (waited_for : bool) (e : Event)
    (s : Session) :
  before_exit sid e = true ->
  status (session_step sid at_time waited_for e s) = status s \/
  (status s = Running /\ status (session_step sid at_time waited_for e s) = Terminated).
Proof.
  destruct e as [cmd t wd os|sid' str chunk|sid' failed code|sid'
                |caller sid'|sid' os|sid'| |snap|target os|ms];
    cbn [session_step before_exit]; intros Hb; try (left; reflexivity).
  - destruct (_ && _); left; [destruct str|]; reflexivity.
  - apply negb_true_iff in Hb. rewrite Hb. left. reflexivity.
  - destruct (Nat.eqb sid' sid); left; reflexivity.
  - destruct os; [left; reflexivity|].
    destruct (Nat.eqb sid' sid); cbn [andb]; [|left; reflexivity].
    destruct (status s) eqn:Hst; cbn; try (left; exact Hst).
    right. split; reflexivity.
  - destruct os; try (left; reflexivity). unfold reconcile.
    destruct (status s) eqn:Hst; cbn; try (left; exact Hst).
    destruct (Nat.eqb (pid s) target); cbn; [|left; exact Hst].
    right. split; reflexivity.
Qed.

(** While a [terminate] call on a running session is suspended, whatever
    the Registry serves short of the exit notification leaves the call
    suspended and the session [Running] or [Terminated]. *)
Lemma suspended_until_exit (events : list Event) (st : State) (sid : nat) (s : Session) :
  wf st ->
  sessions st !! sid = Some s ->
  status s = Running \/ status s = Terminated ->
  awaited sid st = true ->
  forallb (before_exit sid) events = true ->
  exists s',
    sessions (after cfg st events) !! sid = Some s' /\
    (status s' = Running \/ status s' = Terminated) /\
    awaited sid (after cfg st events) = true.
Proof.
  revert st s. induction events as [|e rest IH]; intros st s Hwf Hs Hst Hw Hb.
  - exists s. auto.
  - cbn [forallb] in Hb. apply andb_true_iff in Hb. destruct Hb as [Hb1 Hb2].
    unfold after. rewrite run_cons. cbn [fst].
    apply (IH _ (session_step sid (now st) (awaited sid st) e s)).
    + apply wf_step. exact Hwf.
    + apply step_lookup; assumption.
    + destruct (session_step_before_exit sid (now st) (awaited sid st) e s Hb1)
        as [Heq|[_ Ht]].
      * rewrite Heq. exact Hst.
      * right. exact Ht.
    + apply awaited_step; assumption.
    + exact Hb2.
Qed.

(** The exit notification ends the suspended calls on its session: each
    returns [alreadyFinished = false], and the session is [Terminated]. *)
Lemma exit_confirms (st : State) (sid : nat) (s : Session) (failed : bool) (code : Z) :
  sessions st !! sid = Some s ->
  status s = Running \/ status s = Terminated ->
  awaited sid st = true ->
  In (TerminateResult false) (snd (step cfg st (ProcessExit sid failed code))) /\
  status_of (fst (step cfg st (ProcessExit sid failed code))) sid = Some Terminated /\
  awaited sid (fst (step cfg st (ProcessExit sid failed code))) = false.
Proof.
  intros Hs Hst Hw. cbn [step]. unfold onExit. rewrite Hs, Hw.
  assert (Hconfirmed : In (TerminateResult false)
                          (map (fun _ => TerminateResult false) (attempts_on sid st))).
  { unfold awaited in Hw. apply existsb_exists in Hw. destruct Hw as (attempt & Hin & Hx).
    apply in_map_iff. exists attempt. split; [reflexivity|].
    unfold attempts_on. apply filter_In. auto. }
  assert (Hgone : existsb (fun attempt => Nat.eqb (fst attempt) sid)
                    (attempts_elsewhere sid st) = false).
  { apply not_true_is_false. intros H. apply existsb_exists in H.
    destruct H as (attempt & Hin & Hx). unfold attempts_elsewhere in Hin.
    apply filter_In in Hin. destruct Hin as [_ Hne]. rewrite Hx in Hne. discriminate Hne. }
  assert (Hstatus : status (if terminal (status s) then s else finish Terminated None s)
                    = Terminated).
  { destruct Hst as [H|H]; rewrite H; cbn [terminal]; [reflexivity | exact H]. }
  destruct (bool_decide (sid ∈ racing st)); cbn [fst snd];
    (split; [try right; exact Hconfirmed|]);
    (split; [unfold status_of; cbn; rewrite lookup_insert_eq; cbn; rewrite Hstatus;
             reflexivity | exact Hgone]).
Qed.

(** C3. [terminate] answers [NotFound] exactly when the id is not in the
    Registry. On a session already in a terminal state it answers
    [alreadyFinished = true] and changes nothing. On a [Running] session
    whose process turns out to be gone already, the session is reconciled
    to [Terminated] and the call answers [alreadyFinished = false]. On a
    [Running] session that takes the signal, the call is suspended; whatever
    the Registry serves meanwhile short of the exit notification (output,
    reads, timers, the escalation, other calls of [terminate], kills), the
    call stays suspended and the session is not [Completed] or [Failed];
    the exit notification ends the call, which answers
    [alreadyFinished = false] with the session [Terminated]. A further
    [terminate] then answers [alreadyFinished = true] and changes nothing. *)
Theorem C3_terminate_outcomes (st : State) (sid : nat) (os os' : SignalOutcome)
    (meanwhile : list Event) (failed : bool) (code : Z) :
  wf st ->
  forallb (before_exit sid) meanwhile = true ->
  (snd (step cfg st (Terminate sid os)) = [NotFound] <-> sessions st !! sid = None) /\
  (sessions st !! sid = None -> step cfg st (Terminate sid os) = (st, [NotFound])) /\
  (forall s, sessions st !! sid = Some s -> terminal (status s) = true ->
     step cfg st (Terminate sid os) = (st, [TerminateResult true])) /\
  (forall s, sessions st !! sid = Some s -> status s = Running ->
     snd (step cfg st (Terminate sid NoSuchProcess)) = [TerminateResult false] /\
     status_of (fst (step cfg st (Terminate sid NoSuchProcess))) sid = Some Terminated /\
     step cfg (fst (step cfg st (Terminate sid NoSuchProcess))) (Terminate sid os') =
       (fst (step cfg st (Terminate sid NoSuchProcess)), [TerminateResult true])) /\
  (forall s, sessions st !! sid = Some s -> status s = Running ->
     snd (step cfg st (Terminate sid Delivered)) = [] /\
     awaited sid (after cfg st (Terminate sid Delivered :: meanwhile)) = true /\
     (status_of (after cfg st (Terminate sid Delivered :: meanwhile)) sid = Some Running \/
      status_of (after cfg st (Terminate sid Delivered :: meanwhile)) sid
        = Some Terminated) /\
     In (TerminateResult false)
        (snd (step cfg (after cfg st (Terminate sid Delivered :: meanwhile))
                (ProcessExit sid failed code))) /\
     status_of (after cfg st (Terminate sid Delivered :: meanwhile
                              ++ [ProcessExit sid failed code])) sid
       = Some Terminated /\
     awaited sid (after cfg st (Terminate sid Delivered :: meanwhile
                                ++ [ProcessExit sid failed code])) = false /\
     step cfg (after cfg st (Terminate sid Delivered :: meanwhile
                             ++ [ProcessExit sid failed code])) (Terminate sid os') =
       (after cfg st (Terminate sid Delivered :: meanwhile
                      ++ [ProcessExit sid failed code]), [TerminateResult true])).
Proof.
  intros Hwf Hb.
  assert (Hagain : forall st2, status_of st2 sid = Some Terminated ->
            step cfg st2 (Terminate sid os') = (st2, [TerminateResult true])).
  { intros st2 H2. cbn [step]. unfold terminate. unfold status_of in H2.
    destruct (sessions st2 !! sid) as [s2|]; [|discriminate H2].
    cbn in H2. injection H2 as ->. reflexivity. }
  split; [|split; [|split; [|split]]].
  - cbn [step]. unfold terminate.
    destruct (sessions st !! sid) as [s|].
    + split; [|discriminate].
      destruct (terminal (status s)); [discriminate|]. destruct os; discriminate.
    + split; reflexivity.
  - intros Hs. cbn [step]. unfold terminate. rewrite Hs. reflexivity.
  - intros s Hs Ht. cbn [step]. unfold terminate. rewrite Hs, Ht. reflexivity.
  - intros s Hs Hrun.
    assert (E : step cfg st (Terminate sid NoSuchProcess) =
                (with_sessions (<[sid := finish Terminated None s]> (sessions st))
                   (log_os [OsSignal (pid s) Graceful] st), [TerminateResult false])).
    { cbn [step]. unfold terminate. rewrite Hs, Hrun. reflexivity. }
    assert (Hst : status_of (fst (step cfg st (Terminate sid NoSuchProcess))) sid
                  = Some Terminated).
    { rewrite E. unfold status_of. cbn. rewrite lookup_insert_eq. reflexivity. }
    split; [rewrite E; reflexivity|]. split; [exact Hst|]. apply Hagain, Hst.
  - intros s Hs Hrun.
    assert (E : step cfg st (Terminate sid Delivered) =
                (with_attempts (attempts st ++ [(sid, Signalled)])
                   (log_os [OsSignal (pid s) Graceful] st), [])).
    { cbn [step]. unfold terminate. rewrite Hs, Hrun. reflexivity. }
    set (st1 := fst (step cfg st (Terminate sid Delivered))).
    assert (Hwf1 : wf st1) by (apply wf_step; exact Hwf).
    assert (Hs1 : sessions st1 !! sid = Some s).
    { unfold st1. rewrite E. exact Hs. }
    assert (Hw1 : awaited sid st1 = true).
    { unfold st1. rewrite E. unfold awaited. cbn [fst with_attempts attempts].
      rewrite existsb_app. cbn. rewrite Nat.eqb_refl. apply orb_true_r. }
    destruct (suspended_until_exit meanwhile st1 sid s Hwf1 Hs1 (or_introl Hrun) Hw1 Hb)
      as (s2 & Hs2 & Hst2 & Hw2).
    assert (Hafter : after cfg st (Terminate sid Delivered :: meanwhile) =
                     after cfg st1 meanwhile).
    { unfold after. rewrite run_cons. reflexivity. }
    assert (Hended : after cfg st (Terminate sid Delivered :: meanwhile
                                   ++ [ProcessExit sid failed code]) =
                     fst (step cfg (after cfg st1 meanwhile) (ProcessExit sid failed code))).
    { rewrite app_comm_cons, after_app, Hafter. unfold after at 1. rewrite run_cons.
      reflexivity. }
    destruct (exit_confirms (after cfg st1 meanwhile) sid s2 failed code Hs2 Hst2 Hw2)
      as (Hin & Hterm & Hgone).
    rewrite Hended, Hafter.
    split; [rewrite E; reflexivity|]. split; [exact Hw2|].
    split.
    { unfold status_of. rewrite Hs2. cbn. destruct Hst2 as [-> | ->]; auto. }
    split; [exact Hin|]. split; [exact Hterm|]. split; [exact Hgone|].
    apply Hagain, Hterm.
Qed.

(** The validator of section 4.1 cuts the command line at the operators
    [&&], [||], [;], pipe and newline; it rejects the line exactly when some
    piece's leading token, stripped of its path prefix, equals a blocked
    pattern up to case; and a rejected line makes [execute] answer
    [ValidationError] with the state as it was: no session registered and
    no call made to the operating system, whereas an accepted line is
    spawned. *)
Lemma blocked_line_rejected_before_spawn (commandLine : string) (st : State)
    (t : nat) (wd : option string) (os : SpawnOutcome) :
  Validator.split_at_operators (list_ascii_of_string commandLine)
    (Validator.split_chain (list_ascii_of_string commandLine)) /\
  ((exists reason,
       Validator.validate commandLine (blockedCommands cfg) = Validator.Rejected reason) <->
   (exists piece token pattern,
       In piece (Validator.split_chain (list_ascii_of_string commandLine)) /\
       Validator.leading_token piece = Some token /\
       In pattern (blockedCommands cfg) /\
       Validator.lowercase (Validator.strip_path token) =
       Validator.lowercase (list_ascii_of_string pattern))) /\
  (forall reason,
      Validator.validate commandLine (blockedCommands cfg) = Validator.Rejected reason ->
      step cfg st (Execute commandLine t wd os) = (st, [ValidationError reason]) /\
      osLog (fst (step cfg st (Execute commandLine t wd os))) = osLog st /\
      sessions (fst (step cfg st (Execute commandLine t wd os))) = sessions st) /\
  (Validator.validate commandLine (blockedCommands cfg) = Validator.Allowed ->
   directory_allowed cfg wd = true ->
   osLog (fst (step cfg st (Execute commandLine t wd os))) =
   (osLog st ++ [OsSpawn (defaultShell cfg) commandLine wd])%list).
Proof.
  split; [apply split_chain_spec|]. split; [|split].
  - unfold Validator.validate.
    destruct (existsb _ _) eqn:E.
    + split; [intros _|intros _; eauto].
      apply existsb_exists in E. destruct E as (piece & Hin & Hb).
      apply blocked_iff in Hb. destruct Hb as (token & pattern & H1 & H2 & H3).
      exists piece, token, pattern. auto.
    + split; [intros [reason H]; discriminate H|].
      intros (piece & token & pattern & Hin & H1 & H2 & H3). exfalso.
      assert (existsb (Validator.blocked (blockedCommands cfg))
                (Validator.split_chain (list_ascii_of_string commandLine)) = true) as Ht.
      { apply existsb_exists. exists piece. split; [exact Hin|].
        apply blocked_iff. exists token, pattern. auto. }
      congruence.
  - intros reason Hv.
    assert (Hstep : step cfg st (Execute commandLine t wd os) = (st, [ValidationError reason])).
    { cbn [step]. unfold execute. rewrite Hv. reflexivity. }
    rewrite Hstep. repeat split; reflexivity.
  - intros Hv Hd. cbn [step]. unfold execute. rewrite Hv, Hd.
    destruct os; reflexivity.
Qed.

End ManagerFacts.

Lemma sample_state_wf : Manager.wf Manager.sample_state.
Proof. apply wf_after, wf_initial. Qed.

(** The sample session, read twice more by two callers while it goes on
    producing and then exits. *)
Example reads_deliver_in_order_sample :
  Manager.delivered 1 Manager.Stdout
    (snd (Manager.run Manager.sample_config Manager.sample_state
            (Manager.sample_events ++ [Manager.ReadOutput 9 1]))) =
  list_ascii_of_string "ne".
Proof. reflexivity. Qed.

(** The validator on the command lines of the specification's examples,
    with [rm] and [sudo] blocked. *)
Example validate_rm :
  Validator.validate "rm -rf /" ["rm"] = Validator.Rejected "command is blocked".
Proof. reflexivity. Qed.

Example validate_chained_rm :
  Validator.validate "echo hi && rm -rf /" ["rm"] =
  Validator.Rejected "command is blocked".
Proof. reflexivity. Qed.

Example validate_path_and_case :
  Validator.validate "ls | /usr/bin/RM -rf /" ["rm"] =
  Validator.Rejected "command is blocked".
Proof. reflexivity. Qed.

Example validate_argument_is_not_matched :
  Validator.validate "echo rm" ["rm"] = Validator.Allowed.
Proof. reflexivity. Qed.

(** The leading token of this line is [sudo]: the rule of section 4.1 lets
    it pass when only [rm] is blocked, where section 8 of the specification
    expects a rejection. *)
Example validate_sudo_rm :
  Validator.validate "sudo rm -rf /" ["rm"] = Validator.Allowed /\
  Validator.validate "sudo rm -rf /" ["rm"; "sudo"] =
    Validator.Rejected "command is blocked".
Proof. split; reflexivity. Qed.


(** The sample session exits, and is then terminated, killed and reported
    exited once more. *)
Lemma C4_status_witness :
  Manager.wf Manager.sample_state /\
  Manager.status_history Manager.sample_config Manager.sample_state
    Manager.sample_events 1 =
    [ Some Manager.Running; Some Manager.Running; Some Manager.Running;
      Some Manager.Running; Some Manager.Completed; Some Manager.Completed;
      Some Manager.Completed; Some Manager.Completed; Some Manager.Completed ] /\
  Manager.transitions
    (Manager.status_history Manager.sample_config Manager.sample_state
       Manager.sample_events 1) <= 1.
Proof.
  split; [exact sample_state_wf|]. split; [reflexivity|].
  exact (proj2 (proj2 (C4_status_one_terminal_transition Manager.sample_config
                         Manager.sample_state Manager.sample_events 1
                         sample_state_wf))).
Defined.

(** A [terminate] call on the sample session: the Registry serves other
    events while it is suspended, the process then exits with code 0, and
    the call and the second one made meanwhile both return. *)
Lemma C3_terminate_witness :
  Manager.wf Manager.sample_state /\
  forallb (Manager.before_exit 1) Manager.sample_meanwhile = true /\
  Manager.sessions Manager.sample_state !! 1 = Some Manager.sample_session /\
  snd (Manager.step Manager.sample_config
         (Manager.after Manager.sample_config Manager.sample_state
            (Manager.Terminate 1 Manager.Delivered :: Manager.sample_meanwhile))
         (Manager.ProcessExit 1 false 0)) =
    [ Manager.TerminateResult false; Manager.TerminateResult false ] /\
  Manager.status_of
    (Manager.after Manager.sample_config Manager.sample_state
       (Manager.Terminate 1 Manager.Delivered :: Manager.sample_meanwhile
        ++ [Manager.ProcessExit 1 false 0])) 1 = Some Manager.Terminated.
Proof.
  split; [exact sample_state_wf|]. split; [reflexivity|]. split; [reflexivity|].
  split; [reflexivity|].
  exact (proj1 (proj2 (proj2 (proj2 (proj2
           (proj2 (proj2 (proj2 (proj2
              (C3_terminate_outcomes Manager.sample_config Manager.sample_state 1
                 Manager.Delivered Manager.Delivered Manager.sample_meanwhile false 0
                 sample_state_wf eq_refl))))
            Manager.sample_session eq_refl eq_refl)))))).
Defined.

(** The signals of that call: the graceful one at its start, the forceful
    one when the grace period has run out, and the graceful one of the
    second call. *)
Example terminate_signals_sample :
  Manager.osLog
    (Manager.after Manager.sample_config Manager.sample_state
       (Manager.Terminate 1 Manager.Delivered :: Manager.sample_meanwhile)) =
  (Manager.osLog Manager.sample_state ++
   [ Manager.OsSignal 4242 Manager.Graceful;
     Manager.OsSignal 4242 Manager.Forceful;
     Manager.OsSignal 4242 Manager.Graceful;
     Manager.OsSignal 5 Manager.Graceful ])%list.
Proof. reflexivity. Qed.

